(** * Fractal Studio: the escape-time drivers, the coordinate mapper, the
      parameter validator, the LOD controller and the palette gradient

    A shallow embedding of the TypeScript sources.  A JavaScript [number] is
    an IEEE-754 binary64 value, which is exactly Rocq's primitive [float]:
    the worker, the shader's coordinate mapping, the validator, the
    performance monitor, the Newton step and the renderer's methods
    ([updateParams], [resize], [zoom], [pan]) are therefore written over
    [float] and can be evaluated on concrete inputs.  So are the
    recommendations of the presets module, the type guards, the registry
    formulas, the frame window of the monitor and the wheel and pinch
    handlers of the studio.

    Some parts are stated over exact rationals instead, and say so where
    they are defined: the laws of panning and dragging (identities of exact
    arithmetic, relative to the pixel mapping that [zoom] uses), the palette
    gradient (which needs [Math.floor], [Math.round] and the remainder
    operator; only its length and its first entry are spoken of) and the
    buffer sizes of the context manager (of which nothing is said).  The
    palette table, custom palettes and the bytes of the palette texture are
    integers and strings. *)

From Stdlib Require Import Floats ZArith QArith Qround List Bool Lia.
From Stdlib Require Import Ascii String.
Import ListNotations.

Set Warnings "-inexact-float".

(* ================================================================== *)
(** * JavaScript numbers *)

Module JS.
Local Open Scope float_scope.

(** [isNaN(x)] on a value that already is a number. *)
Definition isNaN (x : float) : bool := PrimFloat.is_nan x.

(** [Math.abs]. *)
Definition Math_abs (x : float) : float := PrimFloat.abs x.

(** [Math.max(a, b)]: NaN when either argument is NaN, and [+0] is larger
    than [-0]. *)
Definition Math_max (a b : float) : float :=
  if isNaN a || isNaN b then nan
  else if PrimFloat.is_zero a && PrimFloat.is_zero b
       then (if PrimFloat.get_sign a then b else a)
  else if a <? b then b else a.

(** [Math.min(a, b)]: NaN when either argument is NaN, and [-0] is smaller
    than [+0]. *)
Definition Math_min (a b : float) : float :=
  if isNaN a || isNaN b then nan
  else if PrimFloat.is_zero a && PrimFloat.is_zero b
       then (if PrimFloat.get_sign a then a else b)
  else if a <? b then a else b.

(** An integer loop counter read as a number.  Counters stay far below
    2^53, where the conversion is exact, so [i++] on the number is [S i]
    on the counter. *)
Definition float_of_nat (n : nat) : float :=
  PrimFloat.of_uint63 (Uint63.of_Z (Z.of_nat n)).

(** [Math.log2] and [Math.log] are not primitive operations of binary64;
    the drivers take them from the host. *)
Record MathLib : Type := {
  Math_log2 : float -> float;
  Math_log : float -> float
}.

(** [Array.prototype.includes] on an array of numbers without NaN. *)
Definition includes_number (xs : list float) (x : float) : bool :=
  existsb (fun y => y =? x) xs.

(** [Array.prototype.includes] on an array of strings. *)
Definition includes_string (xs : list string) (s : string) : bool :=
  existsb (String.eqb s) xs.

Arguments includes_number : simpl never.
Arguments includes_string : simpl never.
End JS.

(* ================================================================== *)
(** * types/fractal.ts *)

Record Complex : Type := { real : float; imag : float }.

Record FractalParams : Type := {
  fractalType : string;
  escapeRadius : float;
  maxIterations : float;
  center : Complex;
  zoom : float;
  juliaConstant : option Complex;
  colorPalette : string;
  precision : string
}.

Record ViewportState : Type := {
  vp_center : Complex;
  vp_zoom : float;
  vp_width : float;
  vp_height : float;
  vp_aspectRatio : float
}.

Record PerformanceMetrics : Type := {
  fps : float;
  frameTime : float;
  gpuMemoryUsage : float;
  renderLatency : float;
  lastRenderTime : float
}.

Record QualitySetting : Type := {
  q_maxIterations : float;
  q_samplesPerPixel : float;
  q_precision : string
}.

Record LODConfig : Type := {
  enabled : bool;
  zoomThresholds : list float;
  iterationReductions : list float;
  qualitySettings : list QualitySetting
}.

(* ================================================================== *)
(** * workers/fractal-worker.ts *)

Module ComplexMath.
Local Open Scope float_scope.

Definition add (a b : Complex) : Complex :=
  {| real := real a + real b; imag := imag a + imag b |}.

Definition multiply (a b : Complex) : Complex :=
  {| real := real a * real b - imag a * imag b;
     imag := real a * imag b + imag a * real b |}.

Definition square (z : Complex) : Complex :=
  {| real := real z * real z - imag z * imag z;
     imag := 2 * real z * imag z |}.

Definition magnitude (z : Complex) : float :=
  PrimFloat.sqrt (real z * real z + imag z * imag z).

Definition magnitudeSquared (z : Complex) : float :=
  real z * real z + imag z * imag z.

Definition abs (z : Complex) : Complex :=
  {| real := JS.Math_abs (real z); imag := JS.Math_abs (imag z) |}.
End ComplexMath.

(** How a [while] or [for] loop of the drivers is left: through the
    [return] inside its body, or because its condition became false. *)
Inductive LoopExit : Type :=
| Escaped (iteration : nat) (zMagSquared : float)
| Exhausted.

Module FractalCompute.
Import ComplexMath.
Local Open Scope float_scope.

Section WithMath.
Variable M : JS.MathLib.

(** [iteration + 1 - Math.log2(Math.log2(zMagSquared) * 0.5)] *)
Definition smoothIteration (iteration : nat) (zMagSquared : float) : float :=
  JS.float_of_nat iteration + 1
  - JS.Math_log2 M (JS.Math_log2 M zMagSquared * 0.5).

(** The [while (iteration < maxIterations)] loop shared, word for word,
    by [mandelbrot] and [julia].  [fuel] bounds the number of turns;
    [None] means the fuel ran out before the loop was left. *)
Fixpoint escape_while (fuel iteration : nat) (z c : Complex)
         (maxIterations escapeRadiusSquared : float) : option LoopExit :=
  match fuel with
  | O => None
  | S fuel' =>
      if JS.float_of_nat iteration <? maxIterations then
        let zMagSquared := magnitudeSquared z in
        if escapeRadiusSquared <? zMagSquared
        then Some (Escaped iteration zMagSquared)
        else escape_while fuel' (S iteration) (add (square z) c) c
                          maxIterations escapeRadiusSquared
      else Some Exhausted
  end.

Definition driver_result (maxIterations : float) (e : LoopExit) : float :=
  match e with
  | Escaped iteration zMagSquared => smoothIteration iteration zMagSquared
  | Exhausted => maxIterations
  end.

Definition mandelbrot (fuel : nat) (c : Complex)
           (maxIterations escapeRadius : float) : option float :=
  let z := {| real := 0; imag := 0 |} in
  let escapeRadiusSquared := escapeRadius * escapeRadius in
  option_map (driver_result maxIterations)
    (escape_while fuel 0 z c maxIterations escapeRadiusSquared).

Definition julia (fuel : nat) (z c : Complex)
           (maxIterations escapeRadius : float) : option float :=
  let escapeRadiusSquared := escapeRadius * escapeRadius in
  option_map (driver_result maxIterations)
    (escape_while fuel 0 z c maxIterations escapeRadiusSquared).

Fixpoint burningShip_while (fuel iteration : nat) (z c : Complex)
         (maxIterations escapeRadiusSquared : float) : option LoopExit :=
  match fuel with
  | O => None
  | S fuel' =>
      if JS.float_of_nat iteration <? maxIterations then
        let zMagSquared := magnitudeSquared z in
        if escapeRadiusSquared <? zMagSquared
        then Some (Escaped iteration zMagSquared)
        else
          let absZ := abs z in
          burningShip_while fuel' (S iteration) (add (square absZ) c) c
                            maxIterations escapeRadiusSquared
      else Some Exhausted
  end.

Definition burningShip (fuel : nat) (c : Complex)
           (maxIterations escapeRadius : float) : option float :=
  let z := {| real := 0; imag := 0 |} in
  let escapeRadiusSquared := escapeRadius * escapeRadius in
  option_map (driver_result maxIterations)
    (burningShip_while fuel 0 z c maxIterations escapeRadiusSquared).

(** The [for] loop of [lyapunov]: [inl v] is a [return v] from inside the
    body, [inr sum] the accumulated sum once [i < maxIterations] fails. *)
Fixpoint lyapunov_for (fuel i : nat) (a b x lyapunovSum maxIterations : float)
  : option (float + float) :=
  match fuel with
  | O => None
  | S fuel' =>
      if JS.float_of_nat i <? maxIterations then
        let r := if Nat.even i then a else b in
        if (x <=? 0) || (1 <=? x) then Some (inl (-10))
        else
          let derivative := r * (1 - 2 * x) in
          if JS.Math_abs derivative <? 1e-10 then Some (inl (-10))
          else lyapunov_for fuel' (S i) a b (r * x * (1 - x))
                 (lyapunovSum + JS.Math_log M (JS.Math_abs derivative))
                 maxIterations
      else Some (inr lyapunovSum)
  end.

Definition lyapunov (fuel : nat) (coord : Complex) (maxIterations : float)
  : option float :=
  let a := real coord in
  let b := imag coord in
  if (a <=? 0) || (4 <=? a) || (b <=? 0) || (4 <=? b) then Some 0
  else
    match lyapunov_for fuel 0 a b 0.5 0 maxIterations with
    | None => None
    | Some (inl v) => Some v
    | Some (inr lyapunovSum) => Some (lyapunovSum / maxIterations)
    end.
End WithMath.
End FractalCompute.

(** The [preset] argument of [computeFractalRegion]: either an object with a
    [fractalType] key, or a preset with optional [id] and [params]. *)
Inductive PresetArg : Type :=
| ByType (fractalType : string)
| ByPreset (id : option string) (params_fractalType : option (option string)).

Module Worker.
Local Open Scope float_scope.

(** [a || b] on optional strings: the empty string is falsy. *)
Definition or_string (a : option string) (b : string) : string :=
  match a with
  | Some s => if String.eqb s EmptyString then b else s
  | None => b
  end.

(** ['fractalType' in preset ? preset.fractalType
      : (preset.id || preset.params?.fractalType || params.fractalType)] *)
Definition resolveFractalType (preset : PresetArg) (params : FractalParams) : string :=
  match preset with
  | ByType t => t
  | ByPreset id pft =>
      or_string id
        (or_string (match pft with Some o => o | None => None end)
                   (fractalType params))
  end.

(** Lines 181-189 of [computeFractalRegion]: the complex coordinate of the
    sample at ([pixelX], [pixelY]). *)
Definition sampleCoord (viewport : ViewportState) (pixelX pixelY : float) : Complex :=
  let normalizedX := pixelX / vp_width viewport in
  let normalizedY := pixelY / vp_height viewport in
  let aspectRatio := vp_width viewport / vp_height viewport in
  let complexX := (normalizedX - 0.5) * aspectRatio * vp_zoom viewport
                  + real (vp_center viewport) in
  let complexY := (normalizedY - 0.5) * vp_zoom viewport
                  + imag (vp_center viewport) in
  {| real := complexX; imag := complexY |}.

Section WithMath.
Variable M : JS.MathLib.

(** The [switch (fractalType)] of [computeFractalRegion]. *)
Definition sampleIteration (fuel : nat) (fractalType : string)
           (params : FractalParams) (coord : Complex) : option float :=
  if String.eqb fractalType "mandelbrot" then
    FractalCompute.mandelbrot M fuel coord (maxIterations params) (escapeRadius params)
  else if String.eqb fractalType "julia" then
    match juliaConstant params with
    | None => Some 0
    | Some jc =>
        FractalCompute.julia M fuel coord jc (maxIterations params) (escapeRadius params)
    end
  else if String.eqb fractalType "burning-ship" then
    let flippedCoord := {| real := real coord; imag := - imag coord |} in
    FractalCompute.burningShip M fuel flippedCoord (maxIterations params) (escapeRadius params)
  else if String.eqb fractalType "lyapunov" then
    let paramCoord := {| real := (real coord + 2) * 2;
                         imag := (imag coord + 2) * 2 |} in
    FractalCompute.lyapunov M fuel paramCoord (maxIterations params)
  else Some 0.

(** One sample of [computeFractalRegion]: coordinate, then dispatch. *)
Definition computeSample (fuel : nat) (preset : PresetArg)
           (params : FractalParams) (viewport : ViewportState)
           (pixelX pixelY : float) : option float :=
  sampleIteration fuel (resolveFractalType preset params) params
                  (sampleCoord viewport pixelX pixelY).
End WithMath.
End Worker.

(* ================================================================== *)
(** * lib/webgl/shaders.ts

    GLSL [highp float] is modelled by the same [float]; the inputs the
    shader is evaluated on below are small dyadic values, on which binary32
    and binary64 agree. *)

Module Shaders.
Local Open Scope float_scope.

Record vec2 : Type := { vx : float; vy : float }.

(** Vertex shader: [v_texCoord = (a_position + 1.0) * 0.5]. *)
Definition vertex_texCoord (a_position : vec2) : vec2 :=
  {| vx := (vx a_position + 1.0) * 0.5; vy := (vy a_position + 1.0) * 0.5 |}.

(** [main] of every fragment shader:
    [vec2 aspect = vec2(u_resolution.x / u_resolution.y, 1.0);]
    [vec2 c = (uv - 0.5) * aspect / u_zoom + u_center;] *)
Definition main_coord (v_texCoord u_resolution u_center : vec2) (u_zoom : float) : vec2 :=
  let uv := v_texCoord in
  let aspect := {| vx := vx u_resolution / vy u_resolution; vy := 1.0 |} in
  {| vx := (vx uv - 0.5) * vx aspect / u_zoom + vx u_center;
     vy := (vy uv - 0.5) * vy aspect / u_zoom + vy u_center |}.

(** [length(v)] *)
Definition length (v : vec2) : float := PrimFloat.sqrt (vx v * vx v + vy v * vy v).

(** The constant [juliaIteration] iterates with:
    [if (length(juliaC) == 0.0) juliaC = vec2(-0.7269, 0.1889);] *)
Definition juliaC (u_juliaConstant : vec2) : vec2 :=
  if length u_juliaConstant =? 0.0
  then {| vx := -0.7269; vy := 0.1889 |}
  else u_juliaConstant.
End Shaders.

(* ================================================================== *)
(** * lib/fractal-renderer.ts: the uniforms *)

Module Uniforms.
Local Open Scope float_scope.

(** [updateUniforms]: the value uploaded as [u_juliaConstant]. *)
Definition u_juliaConstant (currentParams : FractalParams) : Complex :=
  if String.eqb (fractalType currentParams) "julia" then
    match juliaConstant currentParams with
    | Some jc => jc
    | None => {| real := -0.7269; imag := 0.1889 |}
    end
  else
    match juliaConstant currentParams with
    | Some jc => jc
    | None => {| real := 0.0; imag := 0.0 |}
    end.

(** [updateUniforms]: [u_resolution], [u_center] and [u_zoom]. *)
Definition u_resolution (viewport : ViewportState) : Shaders.vec2 :=
  {| Shaders.vx := vp_width viewport; Shaders.vy := vp_height viewport |}.
Definition u_center (viewport : ViewportState) : Shaders.vec2 :=
  {| Shaders.vx := real (vp_center viewport); Shaders.vy := imag (vp_center viewport) |}.
Definition u_zoom (viewport : ViewportState) : float := vp_zoom viewport.

(** The coordinate a fragment at texture coordinate [uv] is given when the
    renderer draws [viewport]. *)
Definition fragmentCoord (viewport : ViewportState) (uv : Shaders.vec2) : Complex :=
  let c := Shaders.main_coord uv (u_resolution viewport) (u_center viewport)
                              (u_zoom viewport) in
  {| real := Shaders.vx c; imag := Shaders.vy c |}.
End Uniforms.

(* ================================================================== *)
(** * lib/fractals/loader.ts and lib/fractal-presets-modular.ts *)

Module FractalLoader.
Local Open Scope string_scope.

(** The keys of [fractalRegistry], in insertion order. *)
Definition fractalRegistry_keys : list string :=
  [ "mandelbrot"; "julia"; "burning-ship"; "lyapunov"; "tricorn"; "celtic";
    "newton"; "phoenix"; "lambda"; "perpendicular"; "heart" ].

Definition getAvailableTypes : list string := fractalRegistry_keys.
End FractalLoader.

(** [Partial<FractalParams>]: every field may be absent.  At run time a
    present field holds whatever number or string the caller passed. *)
Record PartialFractalParams : Type := {
  p_fractalType : option string;
  p_escapeRadius : option float;
  p_maxIterations : option float;
  p_center : option Complex;
  p_zoom : option float;
  p_juliaConstant : option Complex;
  p_colorPalette : option string;
  p_precision : option string
}.

Module Presets.
Local Open Scope float_scope.

Definition defaults : FractalParams :=
  {| fractalType := "mandelbrot";
     escapeRadius := 2;
     maxIterations := 100;
     center := {| real := 0; imag := 0 |};
     zoom := 4.0;
     juliaConstant := None;
     colorPalette := "viridis";
     precision := "highp" |}.

(** [!isNaN(c.real) && !isNaN(c.imag)]; the [typeof] tests hold of every
    [Complex]. *)
Definition complex_ok (c : Complex) : bool :=
  negb (JS.isNaN (real c)) && negb (JS.isNaN (imag c)).

Definition validate_fractalType (v : option string) : string :=
  match v with
  | Some t =>
      if negb (String.eqb t EmptyString)
         && JS.includes_string FractalLoader.getAvailableTypes t
      then t else fractalType defaults
  | None => fractalType defaults
  end.

Definition validate_escapeRadius (v : option float) : float :=
  match v with
  | Some r => if JS.includes_number [2; 4; 8] r then r else escapeRadius defaults
  | None => escapeRadius defaults
  end.

Definition validate_maxIterations (v : option float) : float :=
  match v with
  | Some n => if JS.includes_number [50; 100; 500; 1000] n then n
              else maxIterations defaults
  | None => maxIterations defaults
  end.

Definition validate_center (v : option Complex) : Complex :=
  match v with
  | Some c => if complex_ok c then c else center defaults
  | None => center defaults
  end.

Definition validate_zoom (v : option float) : float :=
  match v with
  | Some z =>
      if (0 <? z) && negb (JS.isNaN z)
      then JS.Math_max 0.1 (JS.Math_min 1000000 z)
      else zoom defaults
  | None => zoom defaults
  end.

Definition validate_colorPalette (v : option string) : string :=
  match v with
  | Some s => if String.eqb s EmptyString then colorPalette defaults else s
  | None => colorPalette defaults
  end.

Definition validate_precision (v : option string) : string :=
  match v with
  | Some s => if JS.includes_string ["lowp"; "mediump"; "highp"]%string s
              then s else precision defaults
  | None => precision defaults
  end.

Definition validate_juliaConstant (v : option Complex) : option Complex :=
  match v with
  | Some c => if complex_ok c then Some c else None
  | None => None
  end.

Definition validateFractalParams (params : PartialFractalParams) : FractalParams :=
  {| fractalType := validate_fractalType (p_fractalType params);
     escapeRadius := validate_escapeRadius (p_escapeRadius params);
     maxIterations := validate_maxIterations (p_maxIterations params);
     center := validate_center (p_center params);
     zoom := validate_zoom (p_zoom params);
     juliaConstant := validate_juliaConstant (p_juliaConstant params);
     colorPalette := validate_colorPalette (p_colorPalette params);
     precision := validate_precision (p_precision params) |}.

(** A [FractalParams] passed where a [Partial<FractalParams>] is expected. *)
Definition asPartial (p : FractalParams) : PartialFractalParams :=
  {| p_fractalType := Some (fractalType p);
     p_escapeRadius := Some (escapeRadius p);
     p_maxIterations := Some (maxIterations p);
     p_center := Some (center p);
     p_zoom := Some (zoom p);
     p_juliaConstant := juliaConstant p;
     p_colorPalette := Some (colorPalette p);
     p_precision := Some (precision p) |}.
End Presets.

(* ================================================================== *)
(** * lib/performance-monitor.ts *)

Module PerformanceMonitor.
Local Open Scope float_scope.

Record State : Type := {
  metrics : PerformanceMetrics;
  lodConfig : LODConfig
}.

Definition initial_lodConfig : LODConfig :=
  {| enabled := true;
     zoomThresholds := [1; 10; 100; 1000];
     iterationReductions := [1; 0.8; 0.6; 0.4];
     qualitySettings :=
       [ {| q_maxIterations := 1000; q_samplesPerPixel := 4; q_precision := "highp" |};
         {| q_maxIterations := 500; q_samplesPerPixel := 2; q_precision := "highp" |};
         {| q_maxIterations := 100; q_samplesPerPixel := 1; q_precision := "mediump" |};
         {| q_maxIterations := 50; q_samplesPerPixel := 1; q_precision := "lowp" |} ] |}.

Definition isPerformanceAcceptable (st : State) : bool :=
  (58 <=? fps (metrics st)) && (frameTime (metrics st) <=? 17).

(** [for (i = 0; i < zoomThresholds.length; i++)
       if (zoom > zoomThresholds[i]) lodLevel = i + 1;]
    run from index [i] over the thresholds not yet visited. *)
Fixpoint baseLOD_for (i : Z) (rest : list float) (zoom : float) (lodLevel : Z) : Z :=
  match rest with
  | [] => lodLevel
  | t :: rest' =>
      baseLOD_for (i + 1) rest' zoom (if t <? zoom then (i + 1)%Z else lodLevel)
  end.

(** The zoom-determined tier, before the performance adjustment. *)
Definition baseLOD (st : State) (zoom : float) : Z :=
  baseLOD_for 0 (zoomThresholds (lodConfig st)) zoom 0.

Definition getRecommendedLOD (st : State) (zoom : float) : Z :=
  let lodLevel := baseLOD st zoom in
  let last := (Z.of_nat (List.length (qualitySettings (lodConfig st))) - 1)%Z in
  let lodLevel :=
    if negb (isPerformanceAcceptable st) && (lodLevel <? last)%Z then (lodLevel + 1)%Z
    else if (65 <? fps (metrics st)) && (0 <? lodLevel)%Z then (lodLevel - 1)%Z
    else lodLevel in
  Z.min lodLevel last.

(** [configureLOD]: the given fields replace the current ones. *)
Definition configureLOD (st : State) (thresholds : option (list float))
           (quality : option (list QualitySetting)) : State :=
  {| metrics := metrics st;
     lodConfig :=
       {| enabled := enabled (lodConfig st);
          zoomThresholds := match thresholds with
                            | Some t => t | None => zoomThresholds (lodConfig st) end;
          iterationReductions := iterationReductions (lodConfig st);
          qualitySettings := match quality with
                             | Some q => q | None => qualitySettings (lodConfig st) end |} |}.
End PerformanceMonitor.

(* ================================================================== *)
(** * lib/fractals/newton.ts *)

Module NewtonFractal.
Local Open Scope float_scope.

(** [c² + d²] of the denominator [3z²] of the Newton step. *)
Definition denomMagnitude (z : Complex) : float :=
  let z2Real := real z * real z - imag z * imag z in
  let z2Imag := 2 * real z * imag z in
  let denominatorReal := 3 * z2Real in
  let denominatorImag := 3 * z2Imag in
  denominatorReal * denominatorReal + denominatorImag * denominatorImag.

(** The branch after the guard: the complex division and the subtraction. *)
Definition divisionStep (z : Complex) : Complex :=
  let z3Real := real z * real z * real z - 3 * real z * imag z * imag z in
  let z3Imag := 3 * real z * real z * imag z - imag z * imag z * imag z in
  let numeratorReal := z3Real - 1 in
  let numeratorImag := z3Imag in
  let z2Real := real z * real z - imag z * imag z in
  let z2Imag := 2 * real z * imag z in
  let denominatorReal := 3 * z2Real in
  let denominatorImag := 3 * z2Imag in
  let denomMagnitude := denominatorReal * denominatorReal
                        + denominatorImag * denominatorImag in
  let divisionReal := (numeratorReal * denominatorReal
                       + numeratorImag * denominatorImag) / denomMagnitude in
  let divisionImag := (numeratorImag * denominatorReal
                       - numeratorReal * denominatorImag) / denomMagnitude in
  {| real := real z - divisionReal; imag := imag z - divisionImag |}.

(** [definition.formula] *)
Definition formula (z : Complex) : Complex :=
  if denomMagnitude z <? 1e-10 then z else divisionStep z.
End NewtonFractal.

(* ================================================================== *)
(** * lib/fractal-renderer.ts: the pixel mapping of [zoom]

    Over exact rationals, for the laws of panning and dragging, which are
    identities of exact arithmetic.  The methods of the renderer themselves
    are written over [float] in [RendererState]. *)

Module FractalRenderer.
Local Open Scope Q_scope.

Record QComplex : Type := { q_real : Q; q_imag : Q }.

Record Viewport : Type := {
  v_center : QComplex;
  v_zoom : Q;
  v_width : Q;
  v_height : Q;
  v_aspectRatio : Q
}.

(** The fields of the renderer that [pan] reads and writes. *)
Record Renderer : Type := {
  viewport : Viewport;
  currentParams_zoom : Q;
  currentParams_center : QComplex
}.


Definition set_center (vp : Viewport) (c : QComplex) : Viewport :=
  {| v_center := c; v_zoom := v_zoom vp; v_width := v_width vp;
     v_height := v_height vp; v_aspectRatio := v_aspectRatio vp |}.
End FractalRenderer.

(* ================================================================== *)
(** * lib/color-palettes.ts

    Colour channels and hexadecimal strings are integers and characters, as
    in the source.  The fractional quantities of [generateSmoothGradient]
    ([segmentSize], [segmentT], the interpolant) are exact rationals. *)

Module ColorPalettes.
Local Open Scope Z_scope.

Definition code (c : ascii) : Z := Z.of_N (N_of_ascii c).

(** One character of the class [[a-f\d]] under the [i] flag, with the value
    [parseInt] gives it in base 16. *)
Definition hex_digit_value (c : ascii) : option Z :=
  let n := code c in
  if (48 <=? n) && (n <=? 57) then Some (n - 48)
  else if (97 <=? n) && (n <=? 102) then Some (n - 87)
  else if (65 <=? n) && (n <=? 70) then Some (n - 55)
  else None.

(** [parseInt(result[k], 16)] on a group of two hexadecimal digits. *)
Definition parseInt16 (a b : ascii) : option Z :=
  match hex_digit_value a, hex_digit_value b with
  | Some x, Some y => Some (16 * x + y)
  | _, _ => None
  end.

(** The part of the pattern after [#?]: exactly three groups. *)
Definition match_groups (s : string) : option (Z * Z * Z) :=
  match s with
  | String a (String b (String c (String d (String e (String f EmptyString))))) =>
      match parseInt16 a b, parseInt16 c d, parseInt16 e f with
      | Some r, Some g, Some bl => Some (r, g, bl)
      | _, _, _ => None
      end
  | _ => None
  end.

(** [/^#?([a-f\d]{2})([a-f\d]{2})([a-f\d]{2})$/i.exec(hex)] and the three
    [parseInt]s. *)
Definition hexToRgb (hex : string) : option (Z * Z * Z) :=
  match hex with
  | String "#"%char rest => match_groups rest
  | _ => match_groups hex
  end.

(** [ToInt32] and the [<<] operator. *)
Definition toInt32 (x : Z) : Z :=
  let m := x mod 2 ^ 32 in
  if m <? 2 ^ 31 then m else m - 2 ^ 32.

Definition shl (x k : Z) : Z := toInt32 (toInt32 x * 2 ^ (k mod 32)).

Definition hex_char (d : Z) : ascii :=
  ascii_of_N (Z.to_N (if d <? 10 then 48 + d else 87 + d)).

Fixpoint hex_digits (fuel : nat) (n : Z) (acc : string) : string :=
  match fuel with
  | O => acc
  | S fuel' =>
      if n =? 0 then acc
      else hex_digits fuel' (n / 16) (String (hex_char (n mod 16)) acc)
  end.

(** [n.toString(16)] on an integer. *)
Definition toString16 (n : Z) : string :=
  let digits m := hex_digits (S (Z.to_nat (Z.log2 m))) m EmptyString in
  if n =? 0 then "0"%string
  else if n <? 0 then String "-"%char (digits (- n))
  else digits n.

(** [s.slice(1)] *)
Definition slice1 (s : string) : string :=
  match s with
  | EmptyString => EmptyString
  | String _ rest => rest
  end.

(** [ColorUtils.rgbToHex] *)
Definition rgbToHex (r g b : Z) : string :=
  String "#"%char (slice1 (toString16 (shl 1 24 + shl r 16 + shl g 8 + b))).

(** [Math.round]: the nearest integer, halves upwards. *)
Definition Math_round (x : Q) : Z := Qfloor (x + (1#2))%Q.

(** [Math.floor] *)
Definition Math_floor (x : Q) : Z := Qfloor x.

(** The remainder operator [a % b]: the sign of the dividend, the quotient
    truncated. *)
Definition js_rem (a b : Q) : Q :=
  let q := (a / b)%Q in
  let t := if Qle_bool 0 q then Qfloor q else Qceiling q in
  (a - b * inject_Z t)%Q.

(** [ColorUtils.interpolateRgb] *)
Definition interpolateRgb (color1 color2 : Z * Z * Z) (t : Q) : Z * Z * Z :=
  let '(r1, g1, b1) := color1 in
  let '(r2, g2, b2) := color2 in
  (Math_round (inject_Z r1 + inject_Z (r2 - r1) * t)%Q,
   Math_round (inject_Z g1 + inject_Z (g2 - g1) * t)%Q,
   Math_round (inject_Z b1 + inject_Z (b2 - b1) * t)%Q).

(** [colors[k]]: [undefined] outside the array. *)
Definition at_index (colors : list string) (k : Z) : option string :=
  if k <? 0 then None else nth_error colors (Z.to_nat k).

(** [hexToRgb(colors[k])]: [undefined] does not match the pattern. *)
Definition colorAt (colors : list string) (k : Z) : option (Z * Z * Z) :=
  match at_index colors k with
  | Some hex => hexToRgb hex
  | None => None
  end.

(** The body of the [for] loop: what turn [i] pushes, if anything. *)
Definition gradientEntry (colors : list string) (steps i : nat) : option string :=
  let len := Z.of_nat (List.length colors) in
  let segmentSize := (inject_Z (Z.of_nat steps) / inject_Z (len - 1))%Q in
  let segmentIndex := Math_floor (inject_Z (Z.of_nat i) / segmentSize)%Q in
  let segmentT := (js_rem (inject_Z (Z.of_nat i)) segmentSize / segmentSize)%Q in
  let color1Index := Z.min segmentIndex (len - 2) in
  let color2Index := color1Index + 1 in
  match colorAt colors color1Index, colorAt colors color2Index with
  | Some color1, Some color2 =>
      let '(r, g, b) := interpolateRgb color1 color2 segmentT in
      Some (rgbToHex r g b)
  | _, _ => None
  end.

(** [generateSmoothGradient(colors, steps)] for a whole number of steps. *)
Definition generateSmoothGradient (colors : list string) (steps : nat) : list string :=
  if (Z.of_nat (List.length colors) <? 2) then colors
  else
    fold_left
      (fun gradient i =>
         match gradientEntry colors steps i with
         | Some hex => gradient ++ [hex]
         | None => gradient
         end)
      (seq 0 steps) [].
End ColorPalettes.

(* ================================================================== *)
(** * Concrete inputs used below *)

Module Inputs.
Local Open Scope float_scope.

Definition origin : Complex := {| real := 0; imag := 0 |}.
Definition two : Complex := {| real := 2; imag := 0 |}.

(** A host with placeholder logarithms, for closed examples. *)
Definition plainMath : JS.MathLib :=
  {| JS.Math_log2 := fun x => x; JS.Math_log := fun x => x |}.

(** A square 100 x 100 surface centred on the origin. *)
Definition square100 (z : float) : ViewportState :=
  {| vp_center := origin; vp_zoom := z;
     vp_width := 100; vp_height := 100; vp_aspectRatio := 1 |}.

Definition defaultJulia : Complex := {| real := -0.7269; imag := 0.1889 |}.

Definition juliaParams (jc : option Complex) : FractalParams :=
  {| fractalType := "julia"; escapeRadius := 2; maxIterations := 50;
     center := origin; zoom := 4; juliaConstant := jc;
     colorPalette := "viridis"; precision := "highp" |}.

(** An update with valid and invalid fields side by side. *)
Definition mixedUpdate : PartialFractalParams :=
  {| p_fractalType := Some "julia"%string; p_escapeRadius := Some 3;
     p_maxIterations := Some 500;
     p_center := Some {| real := infinity; imag := 0 |};
     p_zoom := Some 0.05;
     p_juliaConstant := Some {| real := nan; imag := 0.5 |};
     p_colorPalette := Some EmptyString; p_precision := Some "highp"%string |}.

Definition withCenter (c : Complex) : PartialFractalParams :=
  {| p_fractalType := None; p_escapeRadius := None; p_maxIterations := None;
     p_center := Some c; p_zoom := None; p_juliaConstant := None;
     p_colorPalette := None; p_precision := None |}.


Definition idleMonitor : PerformanceMonitor.State :=
  {| PerformanceMonitor.metrics :=
       {| fps := 0; frameTime := 0; gpuMemoryUsage := 0;
          renderLatency := 0; lastRenderTime := 0 |};
     PerformanceMonitor.lodConfig := PerformanceMonitor.initial_lodConfig |}.

(** A monitor that has measured 70 frames per second, 10 ms per frame. *)
Definition fastMonitor : PerformanceMonitor.State :=
  {| PerformanceMonitor.metrics :=
       {| fps := 70; frameTime := 10; gpuMemoryUsage := 0;
          renderLatency := 0; lastRenderTime := 0 |};
     PerformanceMonitor.lodConfig := PerformanceMonitor.initial_lodConfig |}.
End Inputs.

(* ================================================================== *)
(** * Vocabulary of the statements *)

(** What the validator promises of one field: a present value that passes
    the test is kept, anything else becomes the default. *)
Definition replaced_or_kept {T : Type} (valid : T -> Prop)
           (input : option T) (output default : T) : Prop :=
  match input with
  | Some x => (valid x -> output = x) /\ (~ valid x -> output = default)
  | None => output = default
  end.

(** The tier the zoom alone selects in [getRecommendedLOD]: one past the
    last threshold that the zoom exceeds, and 0 when it exceeds none. *)
Definition zoomSelects (thresholds : list float) (zoom : float) (base : Z) : Prop :=
  (base = 0%Z
   /\ forall k : nat, (k < List.length thresholds)%nat ->
        PrimFloat.ltb (nth k thresholds 0%float) zoom = false)
  \/ (exists k : nat,
        (k < List.length thresholds)%nat
        /\ base = (Z.of_nat k + 1)%Z
        /\ PrimFloat.ltb (nth k thresholds 0%float) zoom = true
        /\ forall j : nat, (k < j < List.length thresholds)%nat ->
             PrimFloat.ltb (nth j thresholds 0%float) zoom = false).

(** A colour written the way [rgbToHex] writes it: [#] and six digits among
    0-9 and a-f. *)
Definition lowerHexDigit (c : ascii) : bool :=
  let n := ColorPalettes.code c in
  ((48 <=? n) && (n <=? 57) || (97 <=? n) && (n <=? 102))%Z.

Definition lowercaseHexColor (s : string) : bool :=
  match s with
  | String "#"%char
      (String a (String b (String c (String d (String e (String f EmptyString)))))) =>
      lowerHexDigit a && lowerHexDigit b && lowerHexDigit c
      && lowerHexDigit d && lowerHexDigit e && lowerHexDigit f
  | _ => false
  end.

(** Reduce the projections of the parameter records, and nothing else. *)
Ltac project_fields :=
  cbn [fractalType escapeRadius maxIterations center zoom juliaConstant
       colorPalette precision
       p_fractalType p_escapeRadius p_maxIterations p_center p_zoom
       p_juliaConstant p_colorPalette p_precision].

(* ================================================================== *)
(** * lib/fractal-presets-modular.ts: recommendations *)

Inductive DeviceTier : Type := TierHigh | TierMedium | TierLow.

Module PresetAdvice.
Local Open Scope float_scope.

Definition getRecommendedIterations (zoom : float) : float :=
  if 1000 <? zoom then 1000
  else if 100 <? zoom then 500
  else if 10 <? zoom then 100
  else 50.

Definition getRecommendedPrecision (zoom : float) (deviceTier : DeviceTier) : string :=
  match deviceTier with
  | TierLow => "lowp"
  | _ =>
      if (1e6 <? zoom) && (match deviceTier with TierHigh => true | _ => false end)
      then "highp"
      else if 1000 <? zoom then "mediump"
      else "highp"
  end.
End PresetAdvice.

(* ================================================================== *)
(** * types/fractal.ts: the run-time type guards *)

Module TypeGuards.
Local Open Scope string_scope.

Definition isFractalType (value : string) : bool :=
  JS.includes_string ["mandelbrot"; "julia"; "burning-ship"; "lyapunov"] value.

Definition isShaderPrecision (value : string) : bool :=
  JS.includes_string ["highp"; "mediump"; "lowp"] value.
End TypeGuards.

(* ================================================================== *)
(** * lib/fractals/*.ts: the step formulas of the registry *)

Module Formulas.
Local Open Scope float_scope.

(** [x || d] on an optional number: [undefined], [NaN] and both zeros are
    falsy. *)
Definition number_or (x : option float) (d : float) : float :=
  match x with
  | Some v => if JS.isNaN v || PrimFloat.is_zero v then d else v
  | None => d
  end.

(** [c?.real] and [c?.imag] *)
Definition opt_real (c : option Complex) : option float := option_map real c.
Definition opt_imag (c : option Complex) : option float := option_map imag c.

(** mandelbrot.ts *)
Definition mandelbrot (z : Complex) (c : option Complex) : Complex :=
  let newReal := real z * real z - imag z * imag z + number_or (opt_real c) 0 in
  let newImag := 2 * real z * imag z + number_or (opt_imag c) 0 in
  {| real := newReal; imag := newImag |}.

(** julia.ts: [const constant = c || { real: -0.7269, imag: 0.1889 }] *)
Definition julia (z : Complex) (c : option Complex) : Complex :=
  let constant := match c with
                  | Some k => k
                  | None => {| real := -0.7269; imag := 0.1889 |}
                  end in
  let newReal := real z * real z - imag z * imag z + real constant in
  let newImag := 2 * real z * imag z + imag constant in
  {| real := newReal; imag := newImag |}.

(** burning-ship.ts *)
Definition burningShip (z : Complex) (c : option Complex) : Complex :=
  let absReal := JS.Math_abs (real z) in
  let absImag := JS.Math_abs (imag z) in
  let squareReal := absReal * absReal - absImag * absImag in
  let squareImag := 2 * absReal * absImag in
  {| real := squareReal + number_or (opt_real c) 0;
     imag := squareImag + number_or (opt_imag c) 0 |}.
End Formulas.

(* ================================================================== *)
(** * lib/performance-monitor.ts: frame timing and quality tiers *)

Module FrameMonitor.
Local Open Scope float_scope.

(** The timing fields of the monitor; [frameCount] is a counter. *)
Record Timing : Type := {
  frameCount : nat;
  lastFpsUpdate : float;
  frameStartTime : float;
  renderTimes : list float
}.

Record Monitor : Type := {
  core : PerformanceMonitor.State;
  timing : Timing
}.

Definition maxSamples : nat := 60.

(** [startFrame()], with the value [performance.now()] returns. *)
Definition startFrame (m : Monitor) (now : float) : Monitor :=
  {| core := core m;
     timing := {| frameCount := frameCount (timing m);
                  lastFpsUpdate := lastFpsUpdate (timing m);
                  frameStartTime := now;
                  renderTimes := renderTimes (timing m) |} |}.

(** [renderTimes.reduce((a, b) => a + b, 0)] *)
Definition sum (xs : list float) : float := fold_left PrimFloat.add xs 0.

(** [endFrame()], with the values its two calls of [performance.now()]
    return. *)
Definition endFrame (m : Monitor) (now1 now2 : float) : Monitor :=
  let t := timing m in
  let frameTime := now1 - frameStartTime t in
  let pushed := renderTimes t ++ [frameTime] in
  let window := if (maxSamples <? List.length pushed)%nat then tl pushed else pushed in
  let frameCount1 := S (frameCount t) in
  let now := now2 in
  let update := 1000 <=? now - lastFpsUpdate t in
  let old := PerformanceMonitor.metrics (core m) in
  {| core :=
       {| PerformanceMonitor.metrics :=
            {| fps := if update
                      then JS.float_of_nat frameCount1 * 1000 / (now - lastFpsUpdate t)
                      else fps old;
               frameTime := sum window / JS.float_of_nat (List.length window);
               gpuMemoryUsage := gpuMemoryUsage old;
               renderLatency := frameTime;
               lastRenderTime := frameTime |};
          PerformanceMonitor.lodConfig := PerformanceMonitor.lodConfig (core m) |};
     timing := {| frameCount := if update then 0%nat else frameCount1;
                  lastFpsUpdate := if update then now else lastFpsUpdate t;
                  frameStartTime := frameStartTime t;
                  renderTimes := window |} |}.

(** [reset()] *)
Definition reset (m : Monitor) (now : float) : Monitor :=
  {| core :=
       {| PerformanceMonitor.metrics :=
            {| fps := 0; frameTime := 0; gpuMemoryUsage := 0;
               renderLatency := 0; lastRenderTime := 0 |};
          PerformanceMonitor.lodConfig := PerformanceMonitor.lodConfig (core m) |};
     timing := {| frameCount := 0%nat;
                  lastFpsUpdate := now;
                  frameStartTime := frameStartTime (timing m);
                  renderTimes := [] |} |}.

(** [getQualitySettings(lodLevel)]: [undefined] outside the tier list. *)
Definition getQualitySettings (st : PerformanceMonitor.State) (lodLevel : Z)
  : option QualitySetting :=
  let tiers := qualitySettings (PerformanceMonitor.lodConfig st) in
  let k := Z.min lodLevel (Z.of_nat (List.length tiers) - 1) in
  if (k <? 0)%Z then None else nth_error tiers (Z.to_nat k).

(** [getAdaptiveQuality(baseIterations)]; [None] is the TypeError raised
    when the chosen tier does not exist. *)
Definition getAdaptiveQuality (st : PerformanceMonitor.State) (baseIterations : float)
  : option QualitySetting :=
  let tiers := qualitySettings (PerformanceMonitor.lodConfig st) in
  let performanceRatio := JS.Math_min 1 (fps (PerformanceMonitor.metrics st) / 60) in
  let quality :=
    if 0.95 <=? performanceRatio then nth_error tiers 0
    else if 0.8 <=? performanceRatio then nth_error tiers 1
    else if 0.6 <=? performanceRatio then nth_error tiers 2
    else nth_error tiers 3 in
  match quality with
  | Some q =>
      Some {| q_maxIterations := JS.Math_min baseIterations (q_maxIterations q);
              q_samplesPerPixel := q_samplesPerPixel q;
              q_precision := q_precision q |}
  | None => None
  end.

(** One rendered frame: [startFrame] at [s], then [endFrame] reading the
    clock at [e1] and [e2]. *)
Definition frame (m : Monitor) (f : float * float * float) : Monitor :=
  let '(s, e1, e2) := f in endFrame (startFrame m s) e1 e2.

Definition frames (m : Monitor) (fs : list (float * float * float)) : Monitor :=
  fold_left frame fs m.

(** The render time [endFrame] records for a frame. *)
Definition frameTimeOf (f : float * float * float) : float :=
  let '(s, e1, _) := f in e1 - s.
End FrameMonitor.

(* ================================================================== *)
(** * components/FractalStudio.tsx: the wheel and pinch handlers *)

Module Studio.
Local Open Scope float_scope.

(** [handleWheel]: the zoom it stores for a wheel event with [deltaY]. *)
Definition handleWheel (viewport_zoom deltaY : float) : float :=
  let zoomFactor := if 0 <? deltaY then 1.1 else 0.9 in
  JS.Math_max 0.001 (JS.Math_min 1000 (viewport_zoom * zoomFactor)).

(** [handleTouchMove] with two touches: the zoom it stores. *)
Definition handlePinch (viewport_zoom distance lastZoomDistance : float) : float :=
  let zoomFactor := distance / lastZoomDistance in
  JS.Math_max 0.001 (JS.Math_min 1000 (viewport_zoom / zoomFactor)).
End Studio.

(* ================================================================== *)
(** * lib/fractal-presets-modular.ts: preset identifiers *)

Module PresetIds.
Local Open Scope string_scope.

(** The [id] of a location preset,
    [`${definition.id}-${location.name.toLowerCase().replace(/\s+/g, '-')}`];
    [slug] is the rewritten location name. *)
Definition locationPresetId (definitionId slug : string) : string :=
  definitionId ++ "-" ++ slug.
End PresetIds.

(* ================================================================== *)
(** * lib/color-palettes.ts: the palette table, custom palettes and the
      palette texture *)

Inductive PaletteType : Type := Linear | Cyclic.

Record ColorPalette : Type := {
  cp_id : string;
  cp_name : string;
  cp_type : PaletteType;
  cp_colors : list string
}.

Module Palettes.
Import ColorPalettes.
Local Open Scope string_scope.

Definition colorPalettes : list ColorPalette :=
  [ {| cp_id := "viridis"; cp_name := "Viridis"; cp_type := Linear;
       cp_colors := ["#440154"; "#482777"; "#3f4a8a"; "#31678e"; "#26838f";
                     "#1f9d8a"; "#6cce5a"; "#b6de2b"; "#fee825"] |};
    {| cp_id := "plasma"; cp_name := "Plasma"; cp_type := Linear;
       cp_colors := ["#0d0887"; "#4c02a1"; "#7e03a8"; "#a92395"; "#cc4778";
                     "#e56b5d"; "#f89441"; "#fdc328"; "#f0f921"] |};
    {| cp_id := "inferno"; cp_name := "Inferno"; cp_type := Linear;
       cp_colors := ["#000004"; "#1b0c41"; "#4a0c6b"; "#781c6d"; "#a52c60";
                     "#cf4446"; "#ed6925"; "#fb9b06"; "#f7d03c"; "#fcffa4"] |};
    {| cp_id := "magma"; cp_name := "Magma"; cp_type := Linear;
       cp_colors := ["#000004"; "#140e36"; "#3b0f70"; "#641a80"; "#8c2981";
                     "#b73779"; "#de4968"; "#f7705c"; "#fe9f6d"; "#fecf92";
                     "#fcfdbf"] |};
    {| cp_id := "cividis"; cp_name := "Cividis"; cp_type := Linear;
       cp_colors := ["#00204d"; "#00336f"; "#0f4d8c"; "#3968a1"; "#5d82b0";
                     "#839bb8"; "#aab3bd"; "#d1ccc0"; "#fde725"] |};
    {| cp_id := "twilight"; cp_name := "Twilight"; cp_type := Cyclic;
       cp_colors := ["#e2d9e2"; "#9ebbd8"; "#6785be"; "#4e62a8"; "#3e4e8a";
                     "#2e3f5f"; "#1e2f35"; "#1a252f"; "#2e3f5f"; "#4e62a8";
                     "#6785be"; "#9ebbd8"; "#e2d9e2"] |};
    {| cp_id := "ocean"; cp_name := "Ocean"; cp_type := Linear;
       cp_colors := ["#000033"; "#000055"; "#000077"; "#003399"; "#0066cc";
                     "#3399ff"; "#66ccff"; "#99eeff"; "#ccffff"] |};
    {| cp_id := "fire"; cp_name := "Fire"; cp_type := Linear;
       cp_colors := ["#000000"; "#330000"; "#660000"; "#990000"; "#cc0000";
                     "#ff3300"; "#ff6600"; "#ff9900"; "#ffcc00"; "#ffff00"] |};
    {| cp_id := "rainbow"; cp_name := "Rainbow"; cp_type := Cyclic;
       cp_colors := ["#ff0000"; "#ff8000"; "#ffff00"; "#80ff00"; "#00ff00";
                     "#00ff80"; "#00ffff"; "#0080ff"; "#0000ff"; "#8000ff";
                     "#ff00ff"; "#ff0080"] |};
    {| cp_id := "electric"; cp_name := "Electric"; cp_type := Linear;
       cp_colors := ["#000000"; "#1a0033"; "#330066"; "#4d0099"; "#6600cc";
                     "#8000ff"; "#9933ff"; "#b366ff"; "#cc99ff"; "#e6ccff"] |} ].

(** [colorPalettes.find(palette => palette.id === id) || null] *)
Definition getColorPalette (id : string) : option ColorPalette :=
  find (fun palette => String.eqb (cp_id palette) id) colorPalettes.

Definition getColorPaletteIds : list string := map cp_id colorPalettes.

(** One character of the class [[0-9a-fA-F]]. *)
Definition isHexDigit (c : ascii) : bool :=
  let n := code c in
  ((48 <=? n) && (n <=? 57) || (97 <=? n) && (n <=? 102)
   || (65 <=? n) && (n <=? 70))%Z.

(** [/^#[0-9a-fA-F]{6}$/.test(color)] *)
Definition testHexColor (color : string) : bool :=
  match color with
  | String "#"%char
      (String a (String b (String c (String d (String e (String f EmptyString)))))) =>
      isHexDigit a && isHexDigit b && isHexDigit c
      && isHexDigit d && isHexDigit e && isHexDigit f
  | _ => false
  end.

(** [toLowerCase] on one character of a Latin-1 name, seen through the
    class [[^a-z0-9]] that follows it: only A-Z reaches a-z. *)
Definition toLowerCase_char (c : ascii) : ascii :=
  let n := code c in
  if ((65 <=? n) && (n <=? 90))%Z then ascii_of_N (Z.to_N (n + 32)) else c.

(** [.replace(/[^a-z0-9]/g, '-')] on one character. *)
Definition replace_char (c : ascii) : ascii :=
  let n := code c in
  if ((97 <=? n) && (n <=? 122) || (48 <=? n) && (n <=? 57))%Z then c else "-"%char.

Fixpoint map_string (f : ascii -> ascii) (s : string) : string :=
  match s with
  | EmptyString => EmptyString
  | String c rest => String (f c) (map_string f rest)
  end.

(** [createCustomPalette(name, colors, type)], for a name of Latin-1
    characters. *)
Definition createCustomPalette (name : string) (colors : list string)
           (type : PaletteType) : ColorPalette :=
  {| cp_id := "custom-" ++ map_string replace_char (map_string toLowerCase_char name);
     cp_name := name;
     cp_type := type;
     cp_colors := filter testHexColor colors |}.

(** [data[k] = v] on a [Uint8Array]: the value is stored modulo 256, and a
    write outside the array does nothing. *)
Fixpoint store (data : list Z) (k : nat) (v : Z) : list Z :=
  match data, k with
  | [], _ => []
  | _ :: rest, O => (v mod 256)%Z :: rest
  | x :: rest, S k' => x :: store rest k' v
  end.

(** [hexToRgb(gradientColors[i])]: [undefined] does not match the
    pattern. *)
Definition texelColor (gradientColors : list string) (i : nat) : option (Z * Z * Z) :=
  match nth_error gradientColors i with
  | Some hex => hexToRgb hex
  | None => None
  end.

(** The body of the [for] loop of [createPaletteTexture]. *)
Definition writeTexel (gradientColors : list string) (data : list Z) (i : nat)
  : list Z :=
  match texelColor gradientColors i with
  | Some (r, g, b) =>
      let index := (i * 4)%nat in
      store (store (store (store data index r) (index + 1) g) (index + 2) b)
            (index + 3) 255
  | None => data
  end.

(** [data] after the [for] loop of [createPaletteTexture], which starts
    from [new Uint8Array(resolution * 4)], for any [gradientColors]. *)
Definition textureLoop (gradientColors : list string) (resolution : nat) : list Z :=
  let data := repeat 0%Z (resolution * 4) in
  fold_left (writeTexel gradientColors) (seq 0 resolution) data.

(** The RGBA bytes [createPaletteTexture] uploads for a palette. *)
Definition paletteTextureData (palette : ColorPalette) (resolution : nat) : list Z :=
  let gradientColors := generateSmoothGradient (cp_colors palette) resolution in
  textureLoop gradientColors resolution.
End Palettes.

(* ================================================================== *)
(** * lib/fractal-renderer.ts: the renderer's parameters and viewport *)

Module RendererState.
Local Open Scope float_scope.

(** The two fields of the renderer the public methods keep up to date. *)
Record Renderer : Type := {
  currentParams : FractalParams;
  viewport : ViewportState
}.

(** [this.currentParams.precision = value] *)
Definition set_precision (p : FractalParams) (value : string) : FractalParams :=
  {| fractalType := fractalType p; escapeRadius := escapeRadius p;
     maxIterations := maxIterations p; center := center p; zoom := zoom p;
     juliaConstant := juliaConstant p; colorPalette := colorPalette p;
     precision := value |}.

(** [contextManager.getTextureFormatCapabilities().format] of a manager
    that holds a context: [this.workingFormat?.format || 'uint8'], where
    [setupBuffers] is the one writer of [workingFormat] and stores the
    format ['uint8']. *)
Definition textureCapabilities_format : string := "uint8".

(** [initializeRenderer], as far as it writes the two fields: before its
    first [await] it lowers the precision ['highp'] to ['mediump'] on a
    context whose format is ['uint8'].  It is called by the constructor and
    by the handler of a restored context, both of which hold a context
    (they throw before the call otherwise), so the capabilities are not
    [null]. *)
Definition initializeRenderer (r : Renderer) : Renderer :=
  if String.eqb textureCapabilities_format "uint8"
     && String.eqb (precision (currentParams r)) "highp"
  then {| currentParams := set_precision (currentParams r) "mediump";
          viewport := viewport r |}
  else r.

(** The constructor, for a canvas of the given size that provides a WebGL 2
    context. *)
Definition construct (initialParams : PartialFractalParams)
           (canvas_width canvas_height : float) : Renderer :=
  let currentParams := Presets.validateFractalParams initialParams in
  initializeRenderer
    {| currentParams := currentParams;
       viewport := {| vp_center := center currentParams;
                      vp_zoom := zoom currentParams;
                      vp_width := canvas_width;
                      vp_height := canvas_height;
                      vp_aspectRatio := canvas_width / canvas_height |} |}.

Definition or_else {T : Type} (update : option T) (current : T) : T :=
  match update with Some v => v | None => current end.

(** [{ ...this.currentParams, ...newParams }] *)
Definition spread (current : FractalParams) (newParams : PartialFractalParams)
  : PartialFractalParams :=
  {| p_fractalType := Some (or_else (p_fractalType newParams) (fractalType current));
     p_escapeRadius := Some (or_else (p_escapeRadius newParams) (escapeRadius current));
     p_maxIterations :=
       Some (or_else (p_maxIterations newParams) (maxIterations current));
     p_center := Some (or_else (p_center newParams) (center current));
     p_zoom := Some (or_else (p_zoom newParams) (zoom current));
     p_juliaConstant := match p_juliaConstant newParams with
                        | Some c => Some c
                        | None => juliaConstant current
                        end;
     p_colorPalette :=
       Some (or_else (p_colorPalette newParams) (colorPalette current));
     p_precision := Some (or_else (p_precision newParams) (precision current)) |}.

(** [if (newParams.zoom)]: a number is truthy unless it is NaN or a zero. *)
Definition truthy (x : option float) : bool :=
  match x with
  | Some v => negb (JS.isNaN v || PrimFloat.is_zero v)
  | None => false
  end.

(** [updateParams(newParams)], without the shader reload and the render. *)
Definition updateParams (r : Renderer) (newParams : PartialFractalParams) : Renderer :=
  let currentParams :=
    Presets.validateFractalParams (spread (currentParams r) newParams) in
  let vp := viewport r in
  {| currentParams := currentParams;
     viewport :=
       {| vp_center := match p_center newParams with
                       | Some _ => center currentParams
                       | None => vp_center vp
                       end;
          vp_zoom := if truthy (p_zoom newParams) then zoom currentParams
                     else vp_zoom vp;
          vp_width := vp_width vp;
          vp_height := vp_height vp;
          vp_aspectRatio := vp_aspectRatio vp |} |}.

(** [resize(width, height)] *)
Definition resize (r : Renderer) (width height : float) : Renderer :=
  {| currentParams := currentParams r;
     viewport := {| vp_center := vp_center (viewport r);
                    vp_zoom := vp_zoom (viewport r);
                    vp_width := width;
                    vp_height := height;
                    vp_aspectRatio := width / height |} |}.

Definition with_view (p : FractalParams) (z : float) (c : Complex) : FractalParams :=
  {| fractalType := fractalType p; escapeRadius := escapeRadius p;
     maxIterations := maxIterations p; center := c; zoom := z;
     juliaConstant := juliaConstant p; colorPalette := colorPalette p;
     precision := precision p |}.

(** [pan(deltaX, deltaY)] on numbers. *)
Definition pan (r : Renderer) (deltaX deltaY : float) : Renderer :=
  let vp := viewport r in
  let aspectRatio := vp_aspectRatio vp in
  let scale := vp_zoom vp / JS.Math_min (vp_width vp) (vp_height vp) in
  let newCenter := {| real := real (vp_center vp) - deltaX * scale * aspectRatio;
                      imag := imag (vp_center vp) + deltaY * scale |} in
  {| currentParams := with_view (currentParams r) (zoom (currentParams r)) newCenter;
     viewport := {| vp_center := newCenter; vp_zoom := vp_zoom vp;
                    vp_width := vp_width vp; vp_height := vp_height vp;
                    vp_aspectRatio := vp_aspectRatio vp |} |}.

(** [zoom(factor, centerX?, centerY?)] on numbers. *)
Definition zoom (r : Renderer) (factor : float) (centerX centerY : option float)
  : Renderer :=
  let vp := viewport r in
  let '(newZoom, newCenter) :=
    match centerX, centerY with
    | Some centerX, Some centerY =>
        let normalizedX := centerX / vp_width vp in
        let normalizedY := centerY / vp_height vp in
        let aspectRatio := vp_aspectRatio vp in
        let complexX := (normalizedX - 0.5) * aspectRatio * vp_zoom vp
                        + real (vp_center vp) in
        let complexY := (normalizedY - 0.5) * vp_zoom vp + imag (vp_center vp) in
        let zoom1 := vp_zoom vp / factor in
        let newComplexX := (normalizedX - 0.5) * aspectRatio * zoom1
                           + real (vp_center vp) in
        let newComplexY := (normalizedY - 0.5) * zoom1 + imag (vp_center vp) in
        (zoom1,
         {| real := real (vp_center vp) + (complexX - newComplexX);
            imag := imag (vp_center vp) + (complexY - newComplexY) |})
    | _, _ => (vp_zoom vp / factor, vp_center vp)
    end in
  {| currentParams := with_view (currentParams r) newZoom newCenter;
     viewport := {| vp_center := newCenter; vp_zoom := newZoom;
                    vp_width := vp_width vp; vp_height := vp_height vp;
                    vp_aspectRatio := vp_aspectRatio vp |} |}.

(** What changes the two fields after the construction: a call of one of
    the public methods, or the restoration of a lost context, whose handler
    runs [initializeRenderer] again. *)
Inductive Call : Type :=
| UpdateParams (newParams : PartialFractalParams)
| Resize (width height : float)
| Zoom (factor : float) (centerX centerY : option float)
| Pan (deltaX deltaY : float)
| ContextRestored.

Definition call (r : Renderer) (c : Call) : Renderer :=
  match c with
  | UpdateParams newParams => updateParams r newParams
  | Resize width height => resize r width height
  | Zoom factor centerX centerY => zoom r factor centerX centerY
  | Pan deltaX deltaY => pan r deltaX deltaY
  | ContextRestored => initializeRenderer r
  end.

Definition calls (r : Renderer) (cs : list Call) : Renderer := fold_left call cs r.
End RendererState.

(* ================================================================== *)
(** * lib/fractal-renderer.ts and components/FractalStudio.tsx: moving the
      view, over exact rationals *)

Module RendererMoves.
Import FractalRenderer.
Local Open Scope Q_scope.

(** [Math.min] on rationals. *)
Definition Math_min (a b : Q) : Q := if Qle_bool a b then a else b.

(** [pan(deltaX, deltaY)] of the renderer. *)
Definition pan (r : Renderer) (deltaX deltaY : Q) : Renderer :=
  let vp := viewport r in
  let aspectRatio := v_aspectRatio vp in
  let scale := v_zoom vp / Math_min (v_width vp) (v_height vp) in
  let vp' := set_center vp
               {| q_real := q_real (v_center vp) - deltaX * scale * aspectRatio;
                  q_imag := q_imag (v_center vp) + deltaY * scale |} in
  {| viewport := vp';
     currentParams_zoom := currentParams_zoom r;
     currentParams_center := v_center vp' |}.

End RendererMoves.

(* ================================================================== *)
(** * lib/webgl/context-manager.ts

    Sizes are exact rationals; framebuffers and textures are handles, and
    the statements about the manager speak of the handles only. *)

Inductive BufferType : Type := DoubleBuffer | TripleBuffer.

Module ContextManager.
Local Open Scope Q_scope.

Definition Math_min (a b : Q) : Q := if Qle_bool a b then a else b.
Definition Math_max (a b : Q) : Q := if Qle_bool a b then b else a.
Definition gt (a b : Q) : bool := negb (Qle_bool a b).

(** [validateAndAdjustBufferConfig]: the size stored in the configuration,
    for a context with the given limits. *)
Definition validateAndAdjustBufferConfig
           (width height maxTextureSize maxFramebufferSize : Q) : Q * Q :=
  let maxSize := Math_min maxTextureSize maxFramebufferSize in
  let '(adjustedWidth, adjustedHeight) :=
    if gt width maxSize then
      let ratio := maxSize / width in
      (maxSize, inject_Z (Qfloor (height * ratio)))
    else (width, height) in
  let '(adjustedWidth, adjustedHeight) :=
    if gt adjustedHeight maxSize then
      let ratio := maxSize / adjustedHeight in
      (inject_Z (Qfloor (adjustedWidth * ratio)), maxSize)
    else (adjustedWidth, adjustedHeight) in
  (Math_max 1 adjustedWidth, Math_max 1 adjustedHeight).

(** The buffer state of a manager whose context was obtained. *)
Record Manager : Type := {
  buffers : list nat;
  textures : list nat;
  currentBufferIndex : nat;
  config_type : BufferType;
  config_width : Q;
  config_height : Q
}.

Definition cleanupBuffers (m : Manager) : Manager :=
  {| buffers := []; textures := [];
     currentBufferIndex := currentBufferIndex m;
     config_type := config_type m;
     config_width := config_width m; config_height := config_height m |}.

(** [setupBuffers]: direct canvas rendering, no framebuffer is created. *)
Definition setupBuffers (m : Manager) : Manager := cleanupBuffers m.

(** The constructor, once [getContext] has returned a context. *)
Definition construct (type : BufferType)
           (width height maxTextureSize maxFramebufferSize : Q) : Manager :=
  let '(w, h) :=
    validateAndAdjustBufferConfig width height maxTextureSize maxFramebufferSize in
  setupBuffers {| buffers := []; textures := []; currentBufferIndex := 0;
                  config_type := type; config_width := w; config_height := h |}.

Definition swapBuffers (m : Manager) : Manager :=
  if (List.length (buffers m) =? 0)%nat then m
  else
    {| buffers := buffers m; textures := textures m;
       currentBufferIndex :=
         match config_type m with
         | TripleBuffer => (currentBufferIndex m + 1) mod 3
         | DoubleBuffer => (currentBufferIndex m + 1) mod 2
         end;
       config_type := config_type m;
       config_width := config_width m; config_height := config_height m |}.

Definition getCurrentFramebuffer (m : Manager) : option nat :=
  if (List.length (buffers m) =? 0)%nat then None
  else nth_error (buffers m) (currentBufferIndex m).

Definition getCurrentTexture (m : Manager) : option nat :=
  if (List.length (textures m) =? 0)%nat then None
  else nth_error (textures m) (currentBufferIndex m).

Definition getReadFramebuffer (m : Manager) : option nat :=
  if (List.length (buffers m) =? 0)%nat then None
  else
    let readIndex := match config_type m with
                     | TripleBuffer => (currentBufferIndex m + 2) mod 3
                     | DoubleBuffer => (currentBufferIndex m + 1) mod 2
                     end in
    nth_error (buffers m) readIndex.

Definition resize (m : Manager) (width height : Q) : Manager :=
  setupBuffers {| buffers := buffers m; textures := textures m;
                  currentBufferIndex := currentBufferIndex m;
                  config_type := config_type m;
                  config_width := width; config_height := height |}.

Definition destroy (m : Manager) : Manager := cleanupBuffers m.

(** What can happen to a manager after its construction. *)
Inductive Event : Type :=
| SwapBuffers
| ResizeTo (width height : Q)
| ContextRestored
| Destroy.

Definition event (m : Manager) (e : Event) : Manager :=
  match e with
  | SwapBuffers => swapBuffers m
  | ResizeTo width height => resize m width height
  | ContextRestored => setupBuffers m
  | Destroy => destroy m
  end.

Definition events (m : Manager) (es : list Event) : Manager := fold_left event es m.
End ContextManager.

(* ================================================================== *)
(** * Vocabulary of the further statements *)

(** Case split on every integer comparison left in a goal about
    [SFcompare]. *)
Ltac split_compares :=
  repeat match goal with
         | H : context [Z.compare ?a ?b] |- _ =>
             destruct (Z.compare_spec a b); try discriminate H
         | H : context [Pos.compare_cont Eq ?a ?b] |- _ =>
             change (Pos.compare_cont Eq a b) with (Pos.compare a b) in H;
             destruct (Pos.compare_spec a b); try discriminate H
         | |- context [Z.compare ?a ?b] =>
             destruct (Z.compare_spec a b)
         | |- context [Pos.compare_cont Eq ?a ?b] =>
             change (Pos.compare_cont Eq a b) with (Pos.compare a b);
             destruct (Pos.compare_spec a b)
         end.

(** The orbit the escape loops walk: [orbit c z k] is [z] after [k] turns of
    [z = ComplexMath.add(ComplexMath.square(z), c)]. *)
Definition orbit (c z : Complex) (k : nat) : Complex :=
  Nat.iter k (fun w => ComplexMath.add (ComplexMath.square w) c) z.

(** Whether the worker's Lyapunov driver rejects a parameter pair. *)
Definition lyapunovOutOfRange (coord : Complex) : bool :=
  (PrimFloat.leb (real coord) 0 || PrimFloat.leb 4 (real coord)
   || PrimFloat.leb (imag coord) 0 || PrimFloat.leb 4 (imag coord))%bool.

(** A monitor that has rendered nothing yet. *)
Definition idleFrameMonitor : FrameMonitor.Monitor :=
  {| FrameMonitor.core := Inputs.idleMonitor;
     FrameMonitor.timing :=
       {| FrameMonitor.frameCount := 0;
          FrameMonitor.lastFpsUpdate := 0;
          FrameMonitor.frameStartTime := 0;
          FrameMonitor.renderTimes := [] |} |}.

(** Three frames of 16 ms, 10 ms and 20 ms within 60 ms of a reset at
    time 100: start, end, and the second clock reading of [endFrame]. *)
Definition threeFrames : list (float * float * float) :=
  [ (100, 116, 116.5); (120, 130, 130.5); (140, 160, 160.5) ]%float.

(** The four bytes of texel [i] of a palette texture; a byte that was never
    allocated reads as 0 here. *)
Definition texel (data : list Z) (i : nat) : Z * Z * Z * Z :=
  (nth (i * 4) data 0%Z, nth (i * 4 + 1) data 0%Z,
   nth (i * 4 + 2) data 0%Z, nth (i * 4 + 3) data 0%Z).

(** A character that can stand in the id of a custom palette: a-z, 0-9 or
    the dash. *)
Definition slugChar (c : ascii) : bool :=
  let n := ColorPalettes.code c in
  ((97 <=? n) && (n <=? 122) || (48 <=? n) && (n <=? 57) || (n =? 45))%Z.

Fixpoint forall_chars (f : ascii -> bool) (s : string) : bool :=
  match s with
  | EmptyString => true
  | String c rest => f c && forall_chars f rest
  end.

(** A colour channel: an integer from 0 to 255. *)
Definition channel (v : Z) : Prop := (0 <= v <= 255)%Z.

(** Three colour stops, red to green to blue. *)
Definition rgbStops : list string := ["#ff0000"; "#00ff00"; "#0000ff"]%string.

(** The texel the loop is meant to leave at index [i]. *)
Definition writtenTexel (gradientColors : list string) (i : nat) : Z * Z * Z * Z :=
  match Palettes.texelColor gradientColors i with
  | Some (r, g, b) => (r, g, b, 255%Z)
  | None => (0, 0, 0, 0)%Z
  end.

(** What holds of the byte array after [k] turns of the texture loop: the
    first [k] texels are written, the rest is still zero. *)
Definition textureLoopInv (gradientColors : list string) (resolution k : nat)
           (data : list Z) : Prop :=
  List.length data = (resolution * 4)%nat
  /\ (forall i, (i < k)%nat -> texel data i = writtenTexel gradientColors i)
  /\ (forall j, (k * 4 <= j)%nat -> nth j data 0%Z = 0%Z).

(** A palette with a single colour. *)
Definition singleColorPalette : ColorPalette :=
  {| cp_id := "single"; cp_name := "Single"; cp_type := Linear;
     cp_colors := ["#336699"%string] |}.

(** Whether [hexToRgb] reads a colour from a string. *)
Definition parsesAsColor (c : string) : bool :=
  match ColorPalettes.hexToRgb c with Some _ => true | None => false end.

(** The parameters with finitely many values are valid: what the validator
    guarantees of them. *)
Definition discreteParamsValid (p : FractalParams) : Prop :=
  In (fractalType p) FractalLoader.getAvailableTypes
  /\ In (escapeRadius p) [2; 4; 8]%float
  /\ In (maxIterations p) [50; 100; 500; 1000]%float
  /\ In (precision p) ["lowp"; "mediump"; "highp"]%string
  /\ colorPalette p <> EmptyString.




(** A registry constant whose components [c.real || 0] and [c.imag || 0]
    leave as they are. *)
Definition truthyComplex (c : Complex) : bool :=
  negb (JS.isNaN (real c) || PrimFloat.is_zero (real c))
  && negb (JS.isNaN (imag c) || PrimFloat.is_zero (imag c)).


(* ================================================================== *)
(** * Facts about binary64 comparisons *)

Module FloatOrder.
Local Open Scope float_scope.

(** Replace the specification of a literal by its value. *)
Ltac spec_of x :=
  let v := eval vm_compute in (Prim2SF x) in
  change (Prim2SF x) with v in *.

Lemma compare_cont_swap (p q : positive) :
  Pos.compare_cont Eq q p = CompOpp (Pos.compare_cont Eq p q).
Proof. rewrite (Pos.compare_cont_antisym p q Eq). reflexivity. Qed.

Lemma SFcompare_antisym (x y : spec_float) (c : comparison) :
  SFcompare x y = Some c -> SFcompare y x = Some (CompOpp c).
Proof.
  destruct x as [sx|sx| |sx mx ex], y as [sy|sy| |sy my ey]; simpl;
    try discriminate;
    try (destruct sx; intros H; inversion H; reflexivity);
    try (destruct sy; intros H; inversion H; reflexivity).
  - destruct sx, sy; intros H; inversion H; reflexivity.
  - destruct sx, sy; intros H; inversion H; clear H; subst; f_equal;
      try reflexivity;
      rewrite (Z.compare_antisym ex ey);
      destruct (ex ?= ey)%Z; simpl; try reflexivity;
      rewrite (compare_cont_swap mx my);
      destruct (Pos.compare_cont Eq mx my); reflexivity.
Qed.

Lemma SFcompare_refl (x : spec_float) :
  x <> S754_nan -> SFcompare x x = Some Eq.
Proof.
  destruct x as [s|s| |s m e]; simpl; intros H; try congruence.
  - destruct s; reflexivity.
  - rewrite Z.compare_refl.
    assert (Hm : Pos.compare_cont Eq m m = Eq) by apply Pos.compare_refl.
    rewrite Hm. destruct s; reflexivity.
Qed.

(** A number that compares below or above another is not NaN. *)
Lemma ltb_not_nan_r (x y : float) : (x <? y) = true -> PrimFloat.is_nan y = false.
Proof.
  unfold PrimFloat.is_nan. rewrite FloatAxioms.ltb_spec, FloatAxioms.eqb_spec.
  unfold SFltb, SFeqb. intros H.
  rewrite SFcompare_refl; [reflexivity|].
  intros E. rewrite E in H. destruct (Prim2SF x); discriminate.
Qed.

Lemma ltb_leb (x y : float) : (x <? y) = true -> (x <=? y) = true.
Proof.
  rewrite FloatAxioms.ltb_spec, FloatAxioms.leb_spec. unfold SFltb, SFleb.
  destruct (SFcompare (Prim2SF x) (Prim2SF y)) as [[]|]; congruence.
Qed.

(** Among numbers, "not above" is "below or equal". *)
Lemma not_ltb_leb (x y : float) :
  PrimFloat.is_nan x = false -> PrimFloat.is_nan y = false ->
  (x <? y) = false -> (y <=? x) = true.
Proof.
  unfold PrimFloat.is_nan.
  rewrite FloatAxioms.ltb_spec, FloatAxioms.leb_spec, !FloatAxioms.eqb_spec.
  unfold SFltb, SFleb, SFeqb. intros Hx Hy H.
  destruct (SFcompare (Prim2SF x) (Prim2SF y)) as [c|] eqn:E.
  - rewrite (SFcompare_antisym _ _ _ E). destruct c; simpl; congruence.
  - destruct (Prim2SF x) as [sx|sx| |sx mx ex], (Prim2SF y) as [sy|sy| |sy my ey];
      simpl in *; discriminate.
Qed.

(** A zero is below any positive threshold that is: the guard of the
    Newton step and of the Lyapunov loop. *)
Lemma zero_below_tiny (d : float) : (d =? 0) = true -> (d <? 1e-10) = true.
Proof.
  rewrite FloatAxioms.eqb_spec, FloatAxioms.ltb_spec.
  spec_of 0. spec_of 1e-10.
  destruct (Prim2SF d) as [s|s| |s m e]; simpl;
    try discriminate; try (destruct s; discriminate).
  intros _. reflexivity.
Qed.

End FloatOrder.

(* ================================================================== *)
(** * Coordinate mapper: GPU path against worker path *)

(** C1 (code does not do this).  At the corner of the surface, pixel (0,0),
    where the vertex shader's texture coordinate is (0,0), and with zoom 2,
    the worker maps the sample to -1 on the real axis and the fragment shader
    maps it to -0.25: the worker multiplies by the zoom, the shader divides
    by it.  The two mappings are not the same function. *)
Theorem gpu_and_worker_mappings_differ :
  Shaders.vertex_texCoord {| Shaders.vx := -1; Shaders.vy := -1 |}
    = {| Shaders.vx := 0; Shaders.vy := 0 |}
  /\ Worker.sampleCoord (Inputs.square100 2) 0 0 = {| real := -1; imag := -1 |}
  /\ Uniforms.fragmentCoord (Inputs.square100 2) {| Shaders.vx := 0; Shaders.vy := 0 |}
     = {| real := -0.25; imag := -0.25 |}
  /\ PrimFloat.eqb
       (real (Worker.sampleCoord (Inputs.square100 2) 0 0))
       (real (Uniforms.fragmentCoord (Inputs.square100 2)
                {| Shaders.vx := 0; Shaders.vy := 0 |})) = false.
Proof. repeat split; vm_compute; reflexivity. Qed.

(* ================================================================== *)
(** * The escape-time drivers *)

Lemma escape_while_fuel_mono (fuel fuel' iteration : nat) (z c : Complex)
      (maxIterations escapeRadiusSquared : float) (e : LoopExit) :
  (fuel <= fuel')%nat ->
  FractalCompute.escape_while fuel iteration z c maxIterations escapeRadiusSquared = Some e ->
  FractalCompute.escape_while fuel' iteration z c maxIterations escapeRadiusSquared = Some e.
Proof.
  revert fuel' iteration z.
  induction fuel as [|fuel IH]; intros fuel' iteration z Hle H; [discriminate|].
  destruct fuel' as [|fuel']; [lia|].
  simpl in *.
  destruct (PrimFloat.ltb (JS.float_of_nat iteration) maxIterations); [|exact H].
  destruct (PrimFloat.ltb escapeRadiusSquared (ComplexMath.magnitudeSquared z));
    [exact H|].
  apply IH; [lia|exact H].
Qed.

Lemma mandelbrot_fuel_mono (M : JS.MathLib) (fuel fuel' : nat) (c : Complex)
      (maxIterations escapeRadius v : float) :
  (fuel <= fuel')%nat ->
  FractalCompute.mandelbrot M fuel c maxIterations escapeRadius = Some v ->
  FractalCompute.mandelbrot M fuel' c maxIterations escapeRadius = Some v.
Proof.
  unfold FractalCompute.mandelbrot. intros Hle H.
  destruct (FractalCompute.escape_while fuel _ _ _ _ _) as [e|] eqn:E; [|discriminate].
  rewrite (escape_while_fuel_mono _ _ _ _ _ _ _ _ Hle E). exact H.
Qed.

Lemma mandelbrot_of_exit (M : JS.MathLib) (fuel : nat) (c : Complex)
      (N er : float) (e : LoopExit) :
  FractalCompute.escape_while fuel 0 Inputs.origin c N (er * er)%float = Some e ->
  FractalCompute.mandelbrot M fuel c N er = Some (FractalCompute.driver_result M N e).
Proof.
  unfold FractalCompute.mandelbrot, Inputs.origin. cbv zeta.
  intros H. rewrite H. reflexivity.
Qed.

(** The loop of [mandelbrot] at c = 2, radius 2, leaves at iteration 2 with
    |z|^2 = 36: the iterates are 0, 2, 6 and 4 > 4 is false. *)
Lemma boundary_point_trace (fuel : nat) (N : float) :
  In N [50; 100; 500; 1000]%float -> (3 <= fuel)%nat ->
  FractalCompute.escape_while fuel 0 Inputs.origin Inputs.two N (2 * 2)%float
  = Some (Escaped 2 36%float).
Proof.
  intros HN Hfuel.
  apply (escape_while_fuel_mono 3); [exact Hfuel|].
  destruct HN as [<-|[<-|[<-|[<-|[]]]]]; vm_compute; reflexivity.
Qed.

(** The loop of [mandelbrot] at c = 0 runs out of iterations. *)
Lemma origin_trace (N er : float) :
  In N [50; 100; 500; 1000]%float -> In er [2; 4; 8]%float ->
  FractalCompute.escape_while 1001 0 Inputs.origin Inputs.origin N (er * er)%float
  = Some Exhausted.
Proof.
  intros HN Her.
  destruct HN as [<-|[<-|[<-|[<-|[]]]]];
    destruct Her as [<-|[<-|[<-|[]]]]; vm_compute; reflexivity.
Qed.

(** C3 (as amended).  With enough fuel for the largest iteration budget, the
    Mandelbrot driver returns exactly maxIterations at c = (0,0), for every
    budget in {50,100,500,1000} and every radius in {2,4,8}; at c = (2,0) with
    radius 2 it leaves the loop at iteration 2, because |z| = 2 does not
    exceed the radius, and returns the smooth count of iteration 2. *)
Theorem mandelbrot_origin_interior_boundary_escapes_at_two
        (M : JS.MathLib) (fuel : nat) (N er : float) :
  In N [50; 100; 500; 1000]%float -> In er [2; 4; 8]%float -> (1001 <= fuel)%nat ->
  FractalCompute.mandelbrot M fuel Inputs.origin N er = Some N
  /\ FractalCompute.escape_while fuel 0 Inputs.origin Inputs.two N (2 * 2)%float
     = Some (Escaped 2 36%float)
  /\ FractalCompute.mandelbrot M fuel Inputs.two N 2
     = Some (FractalCompute.smoothIteration M 2 36%float).
Proof.
  intros HN Her Hfuel.
  assert (Htrace := boundary_point_trace fuel N HN ltac:(lia)).
  split; [|split].
  - apply (mandelbrot_fuel_mono M 1001); [exact Hfuel|].
    exact (mandelbrot_of_exit M 1001 Inputs.origin N er Exhausted (origin_trace N er HN Her)).
  - exact Htrace.
  - exact (mandelbrot_of_exit M fuel Inputs.two N 2 (Escaped 2 36%float) Htrace).
Qed.

Lemma mandelbrot_origin_interior_boundary_escapes_at_two_witness :
  FractalCompute.mandelbrot Inputs.plainMath 1001 Inputs.origin 50 2 = Some 50%float
  /\ FractalCompute.escape_while 1001 0 Inputs.origin Inputs.two 50 (2 * 2)%float
     = Some (Escaped 2 36%float)
  /\ FractalCompute.mandelbrot Inputs.plainMath 1001 Inputs.two 50 2
     = Some (FractalCompute.smoothIteration Inputs.plainMath 2 36%float).
Proof.
  apply (mandelbrot_origin_interior_boundary_escapes_at_two
           Inputs.plainMath 1001 50 2).
  - simpl. left. reflexivity.
  - simpl. left. reflexivity.
  - apply le_n.
Defined.

(** C3 (as stated, refuted).  With radius 2 and budget 50 the loop does not
    leave at iteration 0 or 1 for c = (2,0). *)
Lemma boundary_point_does_not_escape_at_0_or_1 :
  ~ (exists m : float,
        FractalCompute.escape_while 1001 0 Inputs.origin Inputs.two 50 (2 * 2)%float
        = Some (Escaped 0 m)
        \/ FractalCompute.escape_while 1001 0 Inputs.origin Inputs.two 50 (2 * 2)%float
           = Some (Escaped 1 m)).
Proof.
  intros [m H].
  assert (E : FractalCompute.escape_while 1001 0 Inputs.origin Inputs.two 50 (2 * 2)%float
              = Some (Escaped 2 36%float)) by (vm_compute; reflexivity).
  rewrite E in H. destruct H as [H|H]; discriminate H.
Qed.

(** On every in-range parameter pair the worker's Lyapunov loop returns the
    sentinel in its first turn: x starts at 0.5, so the derivative
    r (1 - 2x) is zero and the guard against log 0 fires. *)
Lemma lyapunov_first_turn_returns_sentinel
      (M : JS.MathLib) (fuel : nat) (coord : Complex) (N : float) :
  PrimFloat.ltb 0 (real coord) = true -> PrimFloat.ltb (real coord) 4 = true ->
  PrimFloat.ltb 0 (imag coord) = true -> PrimFloat.ltb (imag coord) 4 = true ->
  PrimFloat.ltb 0 N = true ->
  FractalCompute.lyapunov M (S fuel) coord N = Some (-10)%float.
Proof.
  intros Ha0 Ha4 Hb0 Hb4 HN.
  assert (not_leb : forall x y, PrimFloat.ltb x y = true -> PrimFloat.leb y x = false).
  { intros x y H. rewrite FloatAxioms.leb_spec. rewrite FloatAxioms.ltb_spec in H.
    unfold SFleb, SFltb in *.
    destruct (SFcompare (Prim2SF x) (Prim2SF y)) as [c|] eqn:E; [|discriminate].
    rewrite (FloatOrder.SFcompare_antisym _ _ _ E). destruct c; simpl; congruence. }
  unfold FractalCompute.lyapunov.
  rewrite (not_leb _ _ Ha0), (not_leb _ _ Ha4), (not_leb _ _ Hb0), (not_leb _ _ Hb4).
  simpl orb. cbv iota.
  unfold FractalCompute.lyapunov_for.
  change (JS.float_of_nat 0) with 0%float. rewrite HN.
  change (PrimFloat.leb 0.5 0) with false. change (PrimFloat.leb 1 0.5) with false.
  simpl orb. cbv iota. simpl Nat.even. cbv iota.
  change (1 - 2 * 0.5)%float with 0%float.
  assert (Hz : PrimFloat.ltb (JS.Math_abs (real coord * 0)) 1e-10 = true).
  { unfold JS.Math_abs.
    rewrite FloatAxioms.ltb_spec, FloatAxioms.abs_spec, FloatAxioms.mul_spec.
    rewrite FloatAxioms.ltb_spec in Ha0, Ha4.
    FloatOrder.spec_of 0%float. FloatOrder.spec_of 4%float.
    FloatOrder.spec_of 1e-10%float.
    destruct (Prim2SF (real coord)) as [s|s| |s m e]; simpl in Ha0, Ha4;
      try discriminate; try (destruct s; discriminate).
    destruct s; reflexivity. }
  rewrite Hz. reflexivity.
Qed.

(** C5 (code does not do this).  The worker's [lyapunov] returns 0, not the
    sentinel -10, for a parameter outside (0,4); and for the in-range pair
    (3, 3.5) it returns -10 in the first turn instead of accumulating the
    mean over the 100 iterations. *)
Theorem lyapunov_worker_out_of_range_and_in_range (M : JS.MathLib) (fuel : nat) :
  FractalCompute.lyapunov M fuel {| real := 5; imag := 2 |} 100 = Some 0%float
  /\ FractalCompute.lyapunov M (S fuel) {| real := 3; imag := 3.5 |} 100
     = Some (-10)%float.
Proof.
  split.
  - reflexivity.
  - apply lyapunov_first_turn_returns_sentinel; reflexivity.
Qed.

(** C6 (code does not do this).  For the Julia variant with no constant set,
    the worker's sample at the centre pixel is 0, while with the constant set
    to (-0.7269, 0.1889) it is 50, the iteration budget; the renderer's
    uniform and the shader do fall back to that constant. *)
Theorem julia_default_missing_in_worker (M : JS.MathLib) :
  Worker.computeSample M 1001 (ByType "julia") (Inputs.juliaParams None)
                       (Inputs.square100 4) 50 50 = Some 0%float
  /\ Worker.computeSample M 1001 (ByType "julia")
                          (Inputs.juliaParams (Some Inputs.defaultJulia))
                          (Inputs.square100 4) 50 50 = Some 50%float
  /\ Uniforms.u_juliaConstant (Inputs.juliaParams None) = Inputs.defaultJulia
  /\ Shaders.juliaC {| Shaders.vx := 0; Shaders.vy := 0 |}
     = {| Shaders.vx := -0.7269; Shaders.vy := 0.1889 |}.
Proof.
  repeat split; vm_compute; reflexivity.
Qed.

(* ================================================================== *)
(** * The Newton step *)

(** C10.  The Newton step is a total function; when the squared magnitude of
    the denominator 3z^2 is below 1e-10 it returns z unchanged, and otherwise
    it takes the division branch, whose divisor is then not zero; z = 0 is a
    fixed point. *)
Theorem newton_step_guards_division (z : Complex) :
  (if PrimFloat.ltb (NewtonFractal.denomMagnitude z) 1e-10
   then NewtonFractal.formula z = z
   else PrimFloat.eqb (NewtonFractal.denomMagnitude z) 0 = false
        /\ NewtonFractal.formula z = NewtonFractal.divisionStep z)
  /\ PrimFloat.ltb (NewtonFractal.denomMagnitude Inputs.origin) 1e-10 = true
  /\ NewtonFractal.formula Inputs.origin = Inputs.origin.
Proof.
  split; [|split; reflexivity].
  unfold NewtonFractal.formula.
  destruct (PrimFloat.ltb (NewtonFractal.denomMagnitude z) 1e-10) eqn:E.
  - reflexivity.
  - split; [|reflexivity].
    destruct (PrimFloat.eqb (NewtonFractal.denomMagnitude z) 0) eqn:Z; [|reflexivity].
    apply FloatOrder.zero_below_tiny in Z. congruence.
Qed.

(* ================================================================== *)
(** * Zoom at a point *)


(* ================================================================== *)
(** * The parameter validator *)

Module ValidatorFacts.
Import Presets.
Local Open Scope float_scope.

(** Equality of numbers is equality of values, except between the zeros. *)
Lemma eqb_eq_nonzero (x y : float) :
  (x =? y) = true -> PrimFloat.is_zero x = false -> x = y.
Proof.
  unfold PrimFloat.is_zero. rewrite !FloatAxioms.eqb_spec. intros H Hz.
  apply Prim2SF_inj. revert H Hz. FloatOrder.spec_of PrimFloat.zero.
  unfold SFeqb.
  destruct (Prim2SF x) as [sx|sx| |sx mx ex], (Prim2SF y) as [sy|sy| |sy my ey];
    simpl; intros H Hz; try discriminate H; try discriminate Hz;
    try (destruct sx; discriminate H); try (destruct sy; discriminate H).
  - destruct sx, sy; congruence.
  - destruct sx, sy; try discriminate H;
      destruct (ex ?= ey)%Z eqn:E; try discriminate H;
      apply Z.compare_eq in E; subst ey;
      destruct (Pos.compare_cont Eq mx my) eqn:Em; try discriminate H;
      apply (Pos.compare_eq mx my) in Em; subst my; reflexivity.
Qed.

(** On a list of numbers that holds neither a zero nor NaN, [includes]
    is membership. *)
Lemma includes_number_In (xs : list float) (x : float) :
  forallb (fun y => negb (PrimFloat.is_zero y) && (y =? y)) xs = true ->
  JS.includes_number xs x = true <-> In x xs.
Proof.
  unfold JS.includes_number. intros Hnz. rewrite forallb_forall in Hnz. split.
  - intros H. apply existsb_exists in H. destruct H as [y [Hy E]].
    specialize (Hnz y Hy). apply andb_true_iff in Hnz. destruct Hnz as [Hnz _].
    apply negb_true_iff in Hnz.
    rewrite <- (eqb_eq_nonzero y x E Hnz). exact Hy.
  - intros H. apply existsb_exists. exists x. split; [exact H|].
    specialize (Hnz x H). apply andb_true_iff in Hnz. apply Hnz.
Qed.

Lemma includes_string_In (xs : list string) (s : string) :
  JS.includes_string xs s = true <-> In s xs.
Proof.
  unfold JS.includes_string. rewrite existsb_exists. split.
  - intros [y [Hy E]]. apply String.eqb_eq in E. subst y. exact Hy.
  - intros H. exists s. split; [exact H|apply String.eqb_refl].
Qed.

Lemma Math_min_cap (z : float) :
  JS.isNaN z = false ->
  JS.Math_min 1000000 z = if 1000000 <? z then 1000000 else z.
Proof. intros H. unfold JS.Math_min. rewrite H. reflexivity. Qed.

Lemma Math_max_floor (m : float) :
  JS.isNaN m = false ->
  JS.Math_max 0.1 m = if 0.1 <? m then m else 0.1.
Proof. intros H. unfold JS.Math_max. rewrite H. reflexivity. Qed.

(** The three outcomes of the clamp on a positive zoom. *)
Lemma validate_zoom_positive (z : float) :
  (0 <? z) = true ->
  validate_zoom (Some z)
  = if 1000000 <? z then 1000000 else if 0.1 <? z then z else 0.1.
Proof.
  intros H. pose proof (FloatOrder.ltb_not_nan_r _ _ H) as Hn.
  unfold validate_zoom. rewrite H. unfold JS.isNaN at 1. rewrite Hn. simpl.
  rewrite (Math_min_cap z Hn).
  destruct (1000000 <? z); [reflexivity|].
  apply Math_max_floor. exact Hn.
Qed.

Lemma validate_zoom_not_positive (z : float) :
  (0 <? z) = false -> validate_zoom (Some z) = 4.
Proof. intros H. unfold validate_zoom. rewrite H. reflexivity. Qed.

Lemma validate_zoom_idem (v : option float) :
  validate_zoom (Some (validate_zoom v)) = validate_zoom v.
Proof.
  destruct v as [z|]; [|reflexivity].
  destruct (0 <? z) eqn:H0.
  - rewrite (validate_zoom_positive z H0).
    destruct (1000000 <? z) eqn:H1; [reflexivity|].
    destruct (0.1 <? z) eqn:H2; [|reflexivity].
    rewrite (validate_zoom_positive z H0), H1, H2. reflexivity.
  - rewrite (validate_zoom_not_positive z H0). reflexivity.
Qed.

Lemma validate_zoom_range (v : option float) :
  (0.1 <=? validate_zoom v) = true /\ (validate_zoom v <=? 1000000) = true.
Proof.
  destruct v as [z|]; [|split; reflexivity].
  destruct (0 <? z) eqn:H0.
  - rewrite (validate_zoom_positive z H0).
    pose proof (FloatOrder.ltb_not_nan_r _ _ H0) as Hn.
    destruct (1000000 <? z) eqn:H1; [split; reflexivity|].
    destruct (0.1 <? z) eqn:H2; [|split; reflexivity].
    split.
    + apply FloatOrder.ltb_leb. exact H2.
    + apply FloatOrder.not_ltb_leb; [reflexivity|exact Hn|exact H1].
  - rewrite (validate_zoom_not_positive z H0). split; reflexivity.
Qed.
End ValidatorFacts.

Section ValidatorTheorems.
Import Presets.
Local Open Scope float_scope.

Lemma validate_center_idem (v : option Complex) :
  validate_center (Some (validate_center v)) = validate_center v.
Proof.
  destruct v as [c|]; [|reflexivity]. unfold validate_center.
  destruct (complex_ok c) eqn:E; [rewrite E|]; reflexivity.
Qed.

Lemma validate_center_ok (v : option Complex) :
  complex_ok (validate_center v) = true.
Proof.
  destruct v as [c|]; [|reflexivity]. unfold validate_center.
  destruct (complex_ok c) eqn:E; [exact E|reflexivity].
Qed.

Lemma validate_juliaConstant_idem (v : option Complex) :
  validate_juliaConstant (validate_juliaConstant v) = validate_juliaConstant v.
Proof.
  destruct v as [c|]; [|reflexivity]. unfold validate_juliaConstant.
  destruct (complex_ok c) eqn:E; [rewrite E|]; reflexivity.
Qed.

Lemma validate_fractalType_listed (v : option string) :
  JS.includes_string FractalLoader.getAvailableTypes (validate_fractalType v) = true
  /\ validate_fractalType v <> EmptyString.
Proof.
  destruct v as [t|]; [|split; [reflexivity|discriminate]].
  unfold validate_fractalType.
  destruct (negb (String.eqb t EmptyString)
            && JS.includes_string FractalLoader.getAvailableTypes t) eqn:E.
  - apply andb_true_iff in E. destruct E as [E1 E2]. split; [exact E2|].
    intros ->. discriminate E1.
  - split; [reflexivity|discriminate].
Qed.

Lemma validate_fractalType_idem (v : option string) :
  validate_fractalType (Some (validate_fractalType v)) = validate_fractalType v.
Proof.
  destruct (validate_fractalType_listed v) as [H1 H2].
  unfold validate_fractalType at 1. rewrite H1.
  apply String.eqb_neq in H2. rewrite H2. reflexivity.
Qed.

Lemma validate_escapeRadius_listed (v : option float) :
  JS.includes_number [2; 4; 8] (validate_escapeRadius v) = true.
Proof.
  destruct v as [r|]; [|reflexivity]. unfold validate_escapeRadius.
  destruct (JS.includes_number [2; 4; 8] r) eqn:E; [exact E|reflexivity].
Qed.

Lemma validate_maxIterations_listed (v : option float) :
  JS.includes_number [50; 100; 500; 1000] (validate_maxIterations v) = true.
Proof.
  destruct v as [r|]; [|reflexivity]. unfold validate_maxIterations.
  destruct (JS.includes_number [50; 100; 500; 1000] r) eqn:E; [exact E|reflexivity].
Qed.

Lemma validate_colorPalette_idem (v : option string) :
  validate_colorPalette (Some (validate_colorPalette v)) = validate_colorPalette v.
Proof.
  destruct v as [s|]; [|reflexivity]. unfold validate_colorPalette.
  destruct (String.eqb s EmptyString) eqn:E; [reflexivity|]. rewrite E. reflexivity.
Qed.

Lemma validate_precision_idem (v : option string) :
  validate_precision (Some (validate_precision v)) = validate_precision v.
Proof.
  destruct v as [s|]; [|reflexivity]. unfold validate_precision.
  destruct (JS.includes_string _ s) eqn:E; [rewrite E|]; reflexivity.
Qed.
End ValidatorTheorems.

(** C9.  Validation is idempotent: validating a validator output returns it
    unchanged.  In particular the output's fractal type is in the registry,
    its escape radius is one of 2, 4, 8, its iteration count one of 50, 100,
    500, 1000, its zoom lies in [0.1, 1000000] and its centre has no NaN
    component. *)
Theorem validateFractalParams_idempotent (p : PartialFractalParams) :
  Presets.validateFractalParams (Presets.asPartial (Presets.validateFractalParams p))
  = Presets.validateFractalParams p
  /\ In (fractalType (Presets.validateFractalParams p)) FractalLoader.getAvailableTypes
  /\ In (escapeRadius (Presets.validateFractalParams p)) [2; 4; 8]%float
  /\ In (maxIterations (Presets.validateFractalParams p)) [50; 100; 500; 1000]%float
  /\ PrimFloat.leb 0.1 (zoom (Presets.validateFractalParams p)) = true
  /\ PrimFloat.leb (zoom (Presets.validateFractalParams p)) 1000000 = true
  /\ JS.isNaN (real (center (Presets.validateFractalParams p))) = false
  /\ JS.isNaN (imag (center (Presets.validateFractalParams p))) = false.
Proof.
  destruct p as [ft er mi c z jc cp pr].
  unfold Presets.validateFractalParams, Presets.asPartial; project_fields.
  split; [|split; [|split; [|split; [|split; [|split]]]]].
  - rewrite validate_fractalType_idem, validate_center_idem,
      ValidatorFacts.validate_zoom_idem, validate_juliaConstant_idem,
      validate_colorPalette_idem, validate_precision_idem.
    f_equal.
    + unfold Presets.validate_escapeRadius at 1.
      rewrite validate_escapeRadius_listed. reflexivity.
    + unfold Presets.validate_maxIterations at 1.
      rewrite validate_maxIterations_listed. reflexivity.
  - apply ValidatorFacts.includes_string_In. apply validate_fractalType_listed.
  - apply (ValidatorFacts.includes_number_In [2; 4; 8]%float); [reflexivity|].
    apply validate_escapeRadius_listed.
  - apply (ValidatorFacts.includes_number_In [50; 100; 500; 1000]%float); [reflexivity|].
    apply validate_maxIterations_listed.
  - apply ValidatorFacts.validate_zoom_range.
  - apply ValidatorFacts.validate_zoom_range.
  - pose proof (validate_center_ok c) as H. unfold Presets.complex_ok in H.
    apply andb_true_iff in H. destruct H as [H1 H2].
    split; apply negb_true_iff; assumption.
Qed.

Lemma ltb_above_positive (k z : float) :
  PrimFloat.ltb 0 k = true -> PrimFloat.ltb k z = true -> PrimFloat.ltb 0 z = true.
Proof.
  rewrite !FloatAxioms.ltb_spec. FloatOrder.spec_of 0%float.
  unfold SFltb.
  destruct (Prim2SF k) as [sk|sk| |sk mk ek], (Prim2SF z) as [sz|sz| |sz mz ez];
    cbv beta iota delta [SFcompare]; intros H1 H2;
    try discriminate H1; try discriminate H2; try reflexivity;
    destruct sk; try discriminate H1; destruct sz; try discriminate H2; reflexivity.
Qed.

(** Above the upper bound of the clamp is above its lower bound. *)
Lemma above_cap_above_floor (z : float) :
  PrimFloat.ltb 1000000 z = true -> PrimFloat.ltb 0.1 z = true.
Proof.
  rewrite !FloatAxioms.ltb_spec.
  FloatOrder.spec_of 1000000%float. FloatOrder.spec_of 0.1%float.
  unfold SFltb.
  destruct (Prim2SF z) as [s|s| |s m e]; cbv beta iota delta [SFcompare];
    try discriminate;
    try (destruct s; intros H; try discriminate H; reflexivity).
  destruct s; [intros H; discriminate H|].
  destruct (-33 ?= e)%Z eqn:E1.
  - apply Z.compare_eq in E1. subst e. intros _. reflexivity.
  - intros _. change (-33 < e)%Z in E1.
    assert (E2 : (-56 < e)%Z) by lia.
    unfold Z.lt in E2. rewrite E2. reflexivity.
  - intros H; discriminate H.
Qed.

(** C2 (as amended).  Field by field, a present value that passes the
    validator's test is kept and anything else is replaced by the default,
    whatever the other fields hold.  The test on a centre or a Julia constant
    rejects NaN components only; a positive zoom is clamped into
    [0.1, 1000000], so it is kept when it lies in that range. *)
Theorem validateFractalParams_fieldwise (p : PartialFractalParams) :
  replaced_or_kept (fun t => In t FractalLoader.getAvailableTypes)
    (p_fractalType p) (fractalType (Presets.validateFractalParams p)) "mandelbrot"%string
  /\ replaced_or_kept (fun r => In r [2; 4; 8]%float)
       (p_escapeRadius p) (escapeRadius (Presets.validateFractalParams p)) 2%float
  /\ replaced_or_kept (fun n => In n [50; 100; 500; 1000]%float)
       (p_maxIterations p) (maxIterations (Presets.validateFractalParams p)) 100%float
  /\ replaced_or_kept
       (fun c => JS.isNaN (real c) = false /\ JS.isNaN (imag c) = false)
       (p_center p) (center (Presets.validateFractalParams p))
       {| real := 0; imag := 0 |}
  /\ match p_zoom p with
     | Some z =>
         (PrimFloat.ltb 0 z = false -> zoom (Presets.validateFractalParams p) = 4%float)
         /\ (PrimFloat.ltb 0 z = true -> PrimFloat.ltb 0.1 z = false ->
             zoom (Presets.validateFractalParams p) = 0.1%float)
         /\ (PrimFloat.ltb 0.1 z = true -> PrimFloat.ltb 1000000 z = false ->
             zoom (Presets.validateFractalParams p) = z)
         /\ (PrimFloat.ltb 1000000 z = true ->
             zoom (Presets.validateFractalParams p) = 1000000%float)
     | None => zoom (Presets.validateFractalParams p) = 4%float
     end
  /\ match p_juliaConstant p with
     | Some c =>
         (JS.isNaN (real c) = false /\ JS.isNaN (imag c) = false ->
          juliaConstant (Presets.validateFractalParams p) = Some c)
         /\ (~ (JS.isNaN (real c) = false /\ JS.isNaN (imag c) = false) ->
             juliaConstant (Presets.validateFractalParams p) = None)
     | None => juliaConstant (Presets.validateFractalParams p) = None
     end
  /\ replaced_or_kept (fun s => s <> EmptyString)
       (p_colorPalette p) (colorPalette (Presets.validateFractalParams p)) "viridis"%string
  /\ replaced_or_kept (fun s => In s ["lowp"; "mediump"; "highp"]%string)
       (p_precision p) (precision (Presets.validateFractalParams p)) "highp"%string.
Proof.
  assert (Hok : forall c, Presets.complex_ok c = true
                         <-> JS.isNaN (real c) = false /\ JS.isNaN (imag c) = false).
  { intros c. unfold Presets.complex_ok.
    rewrite andb_true_iff, !negb_true_iff. reflexivity. }
  destruct p as [ft er mi ce z jc cp pr].
  unfold Presets.validateFractalParams, replaced_or_kept; project_fields.
  repeat match goal with |- _ /\ _ => split end.
  - destruct ft as [t|]; [|reflexivity]. unfold Presets.validate_fractalType.
    split; intros H.
    + assert (Ht : String.eqb t EmptyString = false).
      { apply String.eqb_neq. intros ->. simpl in H. intuition discriminate. }
      apply ValidatorFacts.includes_string_In in H. rewrite Ht, H. reflexivity.
    + destruct (JS.includes_string FractalLoader.getAvailableTypes t) eqn:E.
      * apply ValidatorFacts.includes_string_In in E. contradiction.
      * rewrite andb_false_r. reflexivity.
  - destruct er as [r|]; [|reflexivity]. unfold Presets.validate_escapeRadius.
    pose proof (ValidatorFacts.includes_number_In [2; 4; 8]%float r eq_refl) as Hin.
    destruct (JS.includes_number [2; 4; 8]%float r); split; intros H;
      try reflexivity.
    + exfalso. apply H, Hin. reflexivity.
    + apply Hin in H. discriminate.
  - destruct mi as [n|]; [|reflexivity]. unfold Presets.validate_maxIterations.
    pose proof (ValidatorFacts.includes_number_In [50; 100; 500; 1000]%float n eq_refl)
      as Hin.
    destruct (JS.includes_number [50; 100; 500; 1000]%float n); split; intros H;
      try reflexivity.
    + exfalso. apply H, Hin. reflexivity.
    + apply Hin in H. discriminate.
  - destruct ce as [c|]; [|reflexivity]. unfold Presets.validate_center.
    specialize (Hok c).
    destruct (Presets.complex_ok c); split; intros H; try reflexivity.
    + exfalso. apply H, Hok. reflexivity.
    + apply Hok in H. discriminate.
  - destruct z as [z|]; [|reflexivity].
    repeat match goal with |- _ /\ _ => split end.
    + apply ValidatorFacts.validate_zoom_not_positive.
    + intros H0 H1. rewrite (ValidatorFacts.validate_zoom_positive z H0), H1.
      destruct (PrimFloat.ltb 1000000 z) eqn:H2; [|reflexivity].
      rewrite (above_cap_above_floor z H2) in H1. discriminate H1.
    + intros H1 H2.
      rewrite (ValidatorFacts.validate_zoom_positive z
                 (ltb_above_positive 0.1 z eq_refl H1)), H2, H1.
      reflexivity.
    + intros H2.
      rewrite (ValidatorFacts.validate_zoom_positive z
                 (ltb_above_positive 1000000 z eq_refl H2)), H2.
      reflexivity.
  - destruct jc as [c|]; [|reflexivity]. unfold Presets.validate_juliaConstant.
    specialize (Hok c).
    destruct (Presets.complex_ok c); split; intros H; try reflexivity.
    + exfalso. apply H, Hok. reflexivity.
    + apply Hok in H. discriminate.
  - destruct cp as [s|]; [|reflexivity]. unfold Presets.validate_colorPalette.
    destruct (String.eqb s EmptyString) eqn:E; split; intros H; try reflexivity.
    + apply String.eqb_eq in E. contradiction.
    + apply String.eqb_neq in E. contradiction.
  - destruct pr as [s|]; [|reflexivity]. unfold Presets.validate_precision.
    pose proof (ValidatorFacts.includes_string_In ["lowp"; "mediump"; "highp"]%string s)
      as Hin.
    destruct (JS.includes_string ["lowp"; "mediump"; "highp"]%string s);
      split; intros H; try reflexivity.
    + exfalso. apply H, Hin. reflexivity.
    + apply Hin in H. discriminate.
Qed.

Lemma validateFractalParams_fieldwise_witness :
  fractalType (Presets.validateFractalParams Inputs.mixedUpdate) = "julia"%string
  /\ escapeRadius (Presets.validateFractalParams Inputs.mixedUpdate) = 2%float
  /\ maxIterations (Presets.validateFractalParams Inputs.mixedUpdate) = 500%float
  /\ center (Presets.validateFractalParams Inputs.mixedUpdate)
     = {| real := infinity; imag := 0 |}
  /\ zoom (Presets.validateFractalParams Inputs.mixedUpdate) = 0.1%float
  /\ juliaConstant (Presets.validateFractalParams Inputs.mixedUpdate) = None
  /\ colorPalette (Presets.validateFractalParams Inputs.mixedUpdate) = "viridis"%string
  /\ precision (Presets.validateFractalParams Inputs.mixedUpdate) = "highp"%string.
Proof.
  destruct (validateFractalParams_fieldwise Inputs.mixedUpdate)
    as [Hft [Her [Hmi [Hce [Hz [Hjc [Hcp Hpr]]]]]]].
  repeat match goal with |- _ /\ _ => split end.
  - apply (proj1 Hft). right. left. reflexivity.
  - apply (proj2 Her). intros [E|[E|[E|[]]]];
      apply (f_equal (fun x => PrimFloat.eqb x 3)) in E; discriminate E.
  - apply (proj1 Hmi). right. right. left. reflexivity.
  - apply (proj1 Hce). split; reflexivity.
  - apply (proj1 (proj2 Hz)); reflexivity.
  - apply (proj2 Hjc). intros [E _]. discriminate E.
  - apply (proj2 Hcp). intros E. apply E. reflexivity.
  - apply (proj1 Hpr). right. right. left. reflexivity.
Defined.

(** C2 (as stated, refuted).  A centre with an infinite component is not
    replaced by the default centre: the validator keeps (Infinity, 0). *)
Lemma infinite_center_is_not_replaced :
  ~ (forall (p : PartialFractalParams) (c : Complex),
        p_center p = Some c ->
        (JS.isNaN (real c) || PrimFloat.is_infinity (real c)
         || JS.isNaN (imag c) || PrimFloat.is_infinity (imag c)) = true ->
        center (Presets.validateFractalParams p) = {| real := 0; imag := 0 |}).
Proof.
  intros H.
  specialize (H (Inputs.withCenter {| real := infinity; imag := 0 |})
                {| real := infinity; imag := 0 |} eq_refl eq_refl).
  apply (f_equal (fun c => PrimFloat.eqb (real c) 0)) in H.
  vm_compute in H. discriminate H.
Qed.

(* ================================================================== *)
(** * The LOD controller *)

Lemma baseLOD_for_bounds (rest : list float) (zoom : float) (i lodLevel : Z) :
  (0 <= lodLevel <= i)%Z ->
  (0 <= PerformanceMonitor.baseLOD_for i rest zoom lodLevel
   <= i + Z.of_nat (List.length rest))%Z.
Proof.
  revert i lodLevel. induction rest as [|t rest IH]; intros i lodLevel H; simpl.
  - lia.
  - destruct (PrimFloat.ltb t zoom).
    + specialize (IH (i + 1)%Z (i + 1)%Z ltac:(lia)). lia.
    + specialize (IH (i + 1)%Z lodLevel ltac:(lia)). lia.
Qed.

Lemma baseLOD_for_last_exceeded (rest : list float) (zoom : float) (i lodLevel : Z) :
  (PerformanceMonitor.baseLOD_for i rest zoom lodLevel = lodLevel
   /\ forall k : nat, (k < List.length rest)%nat ->
        PrimFloat.ltb (nth k rest 0%float) zoom = false)
  \/ (exists k : nat,
        (k < List.length rest)%nat
        /\ PerformanceMonitor.baseLOD_for i rest zoom lodLevel
           = (i + Z.of_nat k + 1)%Z
        /\ PrimFloat.ltb (nth k rest 0%float) zoom = true
        /\ forall j : nat, (k < j < List.length rest)%nat ->
             PrimFloat.ltb (nth j rest 0%float) zoom = false).
Proof.
  revert i lodLevel. induction rest as [|t rest IH]; intros i lodLevel.
  - left. split; [reflexivity|]. simpl. intros k Hk. lia.
  - cbn [PerformanceMonitor.baseLOD_for].
    destruct (IH (i + 1)%Z (if PrimFloat.ltb t zoom then (i + 1)%Z else lodLevel))
      as [[Hb Hno]|[k [Hk [Hb [Hyes Hno]]]]].
    + destruct (PrimFloat.ltb t zoom) eqn:Ht.
      * right. exists 0%nat.
        refine (conj _ (conj _ (conj _ _))).
        -- simpl. lia.
        -- rewrite Hb. simpl. lia.
        -- exact Ht.
        -- intros [|j] Hj; [lia|]. simpl. apply Hno. simpl in Hj. lia.
      * left. split; [exact Hb|].
        intros [|k] Hk; [exact Ht|]. simpl. apply Hno. simpl in Hk. lia.
    + right. exists (S k).
      refine (conj _ (conj _ (conj _ _))).
      * simpl. lia.
      * rewrite Hb. lia.
      * exact Hyes.
      * intros [|j] Hj; [lia|]. simpl. apply Hno. simpl in Hj. lia.
Qed.

Lemma baseLOD_selected (st : PerformanceMonitor.State) (zoom : float) :
  zoomSelects (zoomThresholds (PerformanceMonitor.lodConfig st)) zoom
              (PerformanceMonitor.baseLOD st zoom).
Proof.
  unfold zoomSelects, PerformanceMonitor.baseLOD.
  destruct (baseLOD_for_last_exceeded
              (zoomThresholds (PerformanceMonitor.lodConfig st)) zoom 0 0)
    as [[Hb Hno]|[k [Hk [Hb [Hyes Hno]]]]].
  - left. split; assumption.
  - right. exists k. rewrite Hb. repeat split; try assumption; lia.
Qed.

(** C7.  When the tier list is not empty and has at least one tier per zoom
    threshold, as in the monitor's configuration, [getRecommendedLOD]
    returns an index of the tier list, and that index is fixed by the zoom
    and the metrics as follows.  The baseline is one past the last threshold
    the zoom exceeds (0 when it exceeds none).  When performance is not
    acceptable and the baseline is below the last tier, the result is the
    baseline plus one (one tier lower in quality).  Otherwise, when fps
    exceeds 65 and the baseline is above 0, it is the baseline minus one
    (one tier higher in quality).  Otherwise it is the baseline, brought
    down to the last tier when the baseline lies past it.  In every case the
    result is within one tier of the baseline. *)
Theorem getRecommendedLOD_in_bounds_one_tier
        (st : PerformanceMonitor.State) (zoom : float) :
  qualitySettings (PerformanceMonitor.lodConfig st) <> [] ->
  (List.length (zoomThresholds (PerformanceMonitor.lodConfig st))
   <= List.length (qualitySettings (PerformanceMonitor.lodConfig st)))%nat ->
  let base := PerformanceMonitor.baseLOD st zoom in
  let last :=
    (Z.of_nat (List.length (qualitySettings (PerformanceMonitor.lodConfig st))) - 1)%Z in
  let lod := PerformanceMonitor.getRecommendedLOD st zoom in
  let acceptable := PerformanceMonitor.isPerformanceAcceptable st in
  let fast := PrimFloat.ltb 65 (fps (PerformanceMonitor.metrics st)) in
  zoomSelects (zoomThresholds (PerformanceMonitor.lodConfig st)) zoom base
  /\ (0 <= lod <= last)%Z
  /\ (base - 1 <= lod <= base + 1)%Z
  /\ (acceptable = false -> (base < last)%Z -> lod = (base + 1)%Z)
  /\ (acceptable = true \/ (last <= base)%Z ->
      fast = true -> (0 < base)%Z -> lod = (base - 1)%Z)
  /\ (acceptable = true \/ (last <= base)%Z ->
      fast = false \/ base = 0%Z -> lod = Z.min base last).
Proof.
  intros Hne Hlen. cbv zeta.
  split; [apply baseLOD_selected|].
  unfold PerformanceMonitor.getRecommendedLOD.
  pose proof (baseLOD_for_bounds (zoomThresholds (PerformanceMonitor.lodConfig st))
                zoom 0 0 ltac:(lia)) as Hb.
  fold (PerformanceMonitor.baseLOD st zoom) in Hb.
  set (base := PerformanceMonitor.baseLOD st zoom) in *.
  set (tiers := qualitySettings (PerformanceMonitor.lodConfig st)) in *.
  assert (Hq : (1 <= Z.of_nat (List.length tiers))%Z).
  { destruct tiers; [congruence|simpl; lia]. }
  destruct (PerformanceMonitor.isPerformanceAcceptable st) eqn:Hacc;
    destruct (PrimFloat.ltb 65 (fps (PerformanceMonitor.metrics st))) eqn:Hfps;
    destruct (base <? Z.of_nat (List.length tiers) - 1)%Z eqn:Hlt;
    destruct (0 <? base)%Z eqn:Hpos;
    simpl negb; simpl andb; cbv iota;
    try apply Z.ltb_lt in Hlt; try apply Z.ltb_ge in Hlt;
    try apply Z.ltb_lt in Hpos; try apply Z.ltb_ge in Hpos;
    repeat match goal with
           | |- _ /\ _ => split
           | |- _ -> _ => intro
           | H : _ \/ _ |- _ => destruct H
           end;
    try discriminate; try lia.
Qed.

Lemma getRecommendedLOD_in_bounds_one_tier_witness :
  (PerformanceMonitor.isPerformanceAcceptable Inputs.idleMonitor = false
   /\ PerformanceMonitor.baseLOD Inputs.idleMonitor 5 = 1%Z
   /\ PerformanceMonitor.getRecommendedLOD Inputs.idleMonitor 5 = 2%Z)
  /\ (PerformanceMonitor.isPerformanceAcceptable Inputs.fastMonitor = true
      /\ PerformanceMonitor.baseLOD Inputs.fastMonitor 50 = 2%Z
      /\ PerformanceMonitor.getRecommendedLOD Inputs.fastMonitor 50 = 1%Z)
  /\ (PerformanceMonitor.baseLOD Inputs.idleMonitor 5000 = 4%Z
      /\ PerformanceMonitor.getRecommendedLOD Inputs.idleMonitor 5000 = 3%Z).
Proof.
  pose proof (getRecommendedLOD_in_bounds_one_tier Inputs.idleMonitor 5
                ltac:(simpl; discriminate) ltac:(simpl; lia)) as Hdown.
  pose proof (getRecommendedLOD_in_bounds_one_tier Inputs.fastMonitor 50
                ltac:(simpl; discriminate) ltac:(simpl; lia)) as Hup.
  pose proof (getRecommendedLOD_in_bounds_one_tier Inputs.idleMonitor 5000
                ltac:(simpl; discriminate) ltac:(simpl; lia)) as Hclamp.
  cbv zeta in Hdown, Hup, Hclamp.
  destruct Hdown as (_ & _ & _ & Hdown & _ & _).
  destruct Hup as (_ & _ & _ & _ & Hup & _).
  destruct Hclamp as (_ & _ & _ & _ & _ & Hclamp).
  refine (conj (conj _ (conj _ _)) (conj (conj _ (conj _ _)) (conj _ _))).
  - vm_compute; reflexivity.
  - vm_compute; reflexivity.
  - rewrite Hdown; vm_compute; reflexivity.
  - vm_compute; reflexivity.
  - vm_compute; reflexivity.
  - rewrite Hup; [vm_compute; reflexivity|left; vm_compute; reflexivity
                 |vm_compute; reflexivity|vm_compute; reflexivity].
  - vm_compute; reflexivity.
  - rewrite Hclamp; [vm_compute; reflexivity|right; vm_compute; discriminate
                    |left; vm_compute; reflexivity].
Defined.

(* ================================================================== *)
(** * The palette gradient *)

Module GradientFacts.
Import ColorPalettes.
Local Open Scope Z_scope.

Lemma hex_digit_value_range (c : ascii) (d : Z) :
  hex_digit_value c = Some d -> 0 <= d < 16.
Proof.
  unfold hex_digit_value.
  destruct ((48 <=? code c) && (code c <=? 57)) eqn:E1.
  { intros H; inversion H; subst. apply andb_true_iff in E1. lia. }
  destruct ((97 <=? code c) && (code c <=? 102)) eqn:E2.
  { intros H; inversion H; subst. apply andb_true_iff in E2. lia. }
  destruct ((65 <=? code c) && (code c <=? 70)) eqn:E3; [|discriminate].
  intros H; inversion H; subst. apply andb_true_iff in E3. lia.
Qed.

Lemma lowerHexDigit_roundtrip (c : ascii) :
  lowerHexDigit c = true ->
  exists d, hex_digit_value c = Some d /\ hex_char d = c.
Proof.
  unfold lowerHexDigit, hex_digit_value, hex_char.
  assert (Hc : ascii_of_N (Z.to_N (code c)) = c).
  { unfold code. rewrite N2Z.id. apply ascii_N_embedding. }
  destruct ((48 <=? code c) && (code c <=? 57)) eqn:E1.
  - intros _. exists (code c - 48). split; [reflexivity|].
    apply andb_true_iff in E1.
    destruct (code c - 48 <? 10) eqn:E; [|apply Z.ltb_ge in E; lia].
    replace (48 + (code c - 48)) with (code c) by lia. exact Hc.
  - destruct ((97 <=? code c) && (code c <=? 102)) eqn:E2; [|discriminate].
    intros _. exists (code c - 87). split; [reflexivity|].
    apply andb_true_iff in E2.
    destruct (code c - 87 <? 10) eqn:E; [apply Z.ltb_lt in E; lia|].
    replace (87 + (code c - 87)) with (code c) by lia. exact Hc.
Qed.

Lemma hex_digits_step (fuel : nat) (x d : Z) (acc : string) :
  0 <= d < 16 -> 0 <= x -> x * 16 + d <> 0 ->
  hex_digits (S fuel) (x * 16 + d) acc
  = hex_digits fuel x (String (hex_char d) acc).
Proof.
  intros Hd Hx Hn. simpl.
  destruct (x * 16 + d =? 0) eqn:E; [apply Z.eqb_eq in E; contradiction|].
  replace ((x * 16 + d) / 16) with x by (apply (Z.div_unique _ 16 x d); lia).
  replace ((x * 16 + d) mod 16) with d by (apply (Z.mod_unique _ 16 x d); lia).
  reflexivity.
Qed.

Lemma hex_digits_zero (fuel : nat) (acc : string) : hex_digits fuel 0 acc = acc.
Proof. destruct fuel; reflexivity. Qed.

Lemma shl_small (x k : Z) :
  0 <= k < 32 -> 0 <= x -> x * 2 ^ k < 2 ^ 31 -> shl x k = x * 2 ^ k.
Proof.
  intros Hk Hx Hlt. unfold shl, toInt32.
  rewrite (Z.mod_small k 32) by lia.
  assert (Hp : 1 <= 2 ^ k) by (apply (Z.pow_le_mono_r 2 0 k); lia).
  assert (Hx31 : x < 2 ^ 31) by nia.
  assert (H32 : 2 ^ 31 < 2 ^ 32) by reflexivity.
  rewrite (Z.mod_small x) by lia.
  destruct (x <? 2 ^ 31) eqn:E; [|apply Z.ltb_ge in E; lia].
  rewrite (Z.mod_small (x * 2 ^ k)) by nia.
  destruct (x * 2 ^ k <? 2 ^ 31) eqn:E2; [reflexivity|apply Z.ltb_ge in E2; lia].
Qed.

(** Six nibbles print as the six characters that stand for them. *)
Lemma rgbToHex_nibbles (a b c d e f : Z) :
  0 <= a < 16 -> 0 <= b < 16 -> 0 <= c < 16 ->
  0 <= d < 16 -> 0 <= e < 16 -> 0 <= f < 16 ->
  rgbToHex (16 * a + b) (16 * c + d) (16 * e + f)
  = String "#"
      (String (hex_char a) (String (hex_char b) (String (hex_char c)
        (String (hex_char d) (String (hex_char e) (String (hex_char f)
          EmptyString)))))).
Proof.
  intros Ha Hb Hc Hd He Hf. unfold rgbToHex. f_equal.
  rewrite (shl_small 1 24), (shl_small (16 * a + b) 16), (shl_small (16 * c + d) 8)
    by (try change (2 ^ 31) with 2147483648; try change (2 ^ 24) with 16777216;
        try change (2 ^ 16) with 65536; try change (2 ^ 8) with 256; lia).
  change (2 ^ 24) with 16777216. change (2 ^ 16) with 65536. change (2 ^ 8) with 256.
  set (n := 1 * 16777216 + (16 * a + b) * 65536 + (16 * c + d) * 256 + (16 * e + f)).
  assert (Hn : 16777216 <= n) by (unfold n; lia).
  unfold toString16.
  destruct (n =? 0) eqn:E0; [apply Z.eqb_eq in E0; lia|].
  destruct (n <? 0) eqn:E1; [apply Z.ltb_lt in E1; lia|].
  assert (Hlog : 24 <= Z.log2 n).
  { change 24 with (Z.log2 16777216). apply Z.log2_le_mono. exact Hn. }
  destruct (Z.to_nat (Z.log2 n)) as [|[|[|[|[|[|fuel]]]]]] eqn:Ef; try lia.
  replace n with (((((((1 * 16 + a) * 16 + b) * 16 + c) * 16 + d) * 16 + e) * 16) + f)
    by (unfold n; lia).
  rewrite !hex_digits_step by lia.
  replace 1 with (0 * 16 + 1) by reflexivity.
  rewrite hex_digits_step by lia.
  rewrite hex_digits_zero. reflexivity.
Qed.

(** [rgbToHex] undoes [hexToRgb] on a colour in lower-case [#rrggbb] form. *)
Lemma rgbToHex_hexToRgb (s : string) :
  lowercaseHexColor s = true ->
  exists r g b, hexToRgb s = Some (r, g, b) /\ rgbToHex r g b = s.
Proof.
  destruct s as [|h [|a [|b [|c [|d [|e [|f [|x rest]]]]]]]]; simpl;
    try discriminate;
    try (destruct h as [[] [] [] [] [] [] [] []]; discriminate).
  destruct h as [[] [] [] [] [] [] [] []]; try discriminate.
  intros H. repeat (apply andb_true_iff in H; destruct H as [H ?]).
  destruct (lowerHexDigit_roundtrip a H) as [va [Ea Ra]].
  destruct (lowerHexDigit_roundtrip b H4) as [vb [Eb Rb]].
  destruct (lowerHexDigit_roundtrip c H3) as [vc [Ec Rc]].
  destruct (lowerHexDigit_roundtrip d H2) as [vd [Ed Rd]].
  destruct (lowerHexDigit_roundtrip e H1) as [ve [Ee Re]].
  destruct (lowerHexDigit_roundtrip f H0) as [vf [Ef Rf]].
  exists (16 * va + vb), (16 * vc + vd), (16 * ve + vf).
  unfold hexToRgb, match_groups, parseInt16.
  rewrite Ea, Eb, Ec, Ed, Ee, Ef. split; [reflexivity|].
  rewrite rgbToHex_nibbles by (eapply hex_digit_value_range; eassumption).
  rewrite Ra, Rb, Rc, Rd, Re, Rf. reflexivity.
Qed.

(** The loop pushes, in order, what each turn yields. *)
Lemma push_loop (colors : list string) (steps : nat) (turns : list nat)
      (gradient : list string) :
  fold_left
    (fun gradient i =>
       match gradientEntry colors steps i with
       | Some hex => gradient ++ [hex]
       | None => gradient
       end) turns gradient
  = gradient
    ++ flat_map (fun i => match gradientEntry colors steps i with
                          | Some hex => [hex]
                          | None => []
                          end) turns.
Proof.
  revert gradient. induction turns as [|i turns IH]; intros gradient; simpl.
  - rewrite app_nil_r. reflexivity.
  - rewrite IH. destruct (gradientEntry colors steps i).
    + rewrite <- app_assoc. reflexivity.
    + reflexivity.
Qed.

Lemma Qfloor_nonneg (x : Q) : (0 <= x)%Q -> 0 <= Qfloor x.
Proof. intros H. apply (Qfloor_resp_le 0 x) in H. exact H. Qed.

Lemma colorAt_parses (colors : list string) (k : Z) :
  (forall c, In c colors -> hexToRgb c <> None) ->
  0 <= k < Z.of_nat (List.length colors) ->
  exists rgb, colorAt colors k = Some rgb.
Proof.
  intros Hall Hk. unfold colorAt, at_index.
  destruct (k <? 0) eqn:E; [apply Z.ltb_lt in E; lia|].
  destruct (nth_error colors (Z.to_nat k)) as [hex|] eqn:En.
  - apply nth_error_In in En. specialize (Hall hex En).
    destruct (hexToRgb hex) as [rgb|]; [exists rgb; reflexivity|congruence].
  - apply nth_error_None in En. lia.
Qed.

(** With two or more colours that all parse, every turn pushes. *)
Lemma gradientEntry_pushes (colors : list string) (steps i : nat) :
  (2 <= List.length colors)%nat ->
  (forall c, In c colors -> hexToRgb c <> None) ->
  exists hex, gradientEntry colors steps i = Some hex.
Proof.
  intros Hlen Hall. unfold gradientEntry.
  set (len := Z.of_nat (List.length colors)).
  set (segmentSize := (inject_Z (Z.of_nat steps) / inject_Z (len - 1))%Q).
  set (segmentIndex := Math_floor (inject_Z (Z.of_nat i) / segmentSize)%Q).
  assert (Hlen' : 2 <= len) by (unfold len; lia).
  assert (Hsize : (0 <= segmentSize)%Q).
  { unfold segmentSize. apply Qle_shift_div_l.
    - change 0%Q with (inject_Z 0). rewrite <- Zlt_Qlt. lia.
    - rewrite Qmult_0_l. change 0%Q with (inject_Z 0). rewrite <- Zle_Qle. lia. }
  assert (Hidx : 0 <= segmentIndex).
  { unfold segmentIndex, Math_floor. apply Qfloor_nonneg.
    unfold Qdiv. apply Qmult_le_0_compat.
    - change 0%Q with (inject_Z 0). rewrite <- Zle_Qle. lia.
    - apply Qinv_le_0_compat. exact Hsize. }
  destruct (colorAt_parses colors (Z.min segmentIndex (len - 2)) Hall)
    as [color1 E1]; [fold len; lia|].
  destruct (colorAt_parses colors (Z.min segmentIndex (len - 2) + 1) Hall)
    as [color2 E2]; [fold len; lia|].
  rewrite E1, E2.
  destruct (interpolateRgb color1 color2 _) as [[r g] b].
  eexists. reflexivity.
Qed.

Lemma gradient_length (colors : list string) (steps : nat) :
  (2 <= List.length colors)%nat ->
  (forall c, In c colors -> hexToRgb c <> None) ->
  List.length (generateSmoothGradient colors steps) = steps.
Proof.
  intros Hlen Hall. unfold generateSmoothGradient.
  destruct (Z.of_nat (List.length colors) <? 2) eqn:E; [apply Z.ltb_lt in E; lia|].
  rewrite push_loop. simpl app.
  assert (H : forall turns,
             List.length
               (flat_map (fun i => match gradientEntry colors steps i with
                                   | Some hex => [hex]
                                   | None => []
                                   end) turns) = List.length turns).
  { induction turns as [|i turns IH]; simpl; [reflexivity|].
    destruct (gradientEntry_pushes colors steps i Hlen Hall) as [hex Ei].
    rewrite Ei. simpl. rewrite IH. reflexivity. }
  rewrite H. apply length_seq.
Qed.

Lemma Math_round_at_start (r1 k : Z) (t : Q) :
  (t == 0)%Q -> Math_round (inject_Z r1 + inject_Z k * t)%Q = r1.
Proof.
  intros Ht. unfold Math_round.
  assert (E : (inject_Z r1 + inject_Z k * t + (1 # 2) == inject_Z r1 + (1 # 2))%Q)
    by (rewrite Ht; ring).
  rewrite (Qfloor_comp _ _ E). unfold Qfloor, Qplus, inject_Z. simpl.
  symmetry. apply (Z.div_unique _ 2 r1 1); lia.
Qed.

Lemma segmentT_at_start (segmentSize : Q) :
  (js_rem (inject_Z (Z.of_nat 0)) segmentSize / segmentSize == 0)%Q.
Proof.
  unfold js_rem. simpl Z.of_nat.
  assert (E : (inject_Z 0 / segmentSize == 0)%Q) by (unfold Qdiv; ring).
  set (q := (inject_Z 0 / segmentSize)%Q) in *.
  assert (Ef : Qfloor q = 0) by (rewrite (Qfloor_comp _ _ E); reflexivity).
  assert (Ec : Qceiling q = 0) by (rewrite (Qceiling_comp _ _ E); reflexivity).
  destruct (Qle_bool 0 q); rewrite ?Ef, ?Ec; unfold Qdiv; ring.
Qed.

(** The first turn pushes the first colour, printed by [rgbToHex]. *)
Lemma gradientEntry_first (c0 c1 : string) (rest : list string) (steps : nat)
      (r g b : Z) (rgb1 : Z * Z * Z) :
  hexToRgb c0 = Some (r, g, b) -> hexToRgb c1 = Some rgb1 ->
  gradientEntry (c0 :: c1 :: rest) steps 0 = Some (rgbToHex r g b).
Proof.
  intros E0 E1. unfold gradientEntry.
  set (len := Z.of_nat (List.length (c0 :: c1 :: rest))).
  set (segmentSize := (inject_Z (Z.of_nat steps) / inject_Z (len - 1))%Q).
  assert (Hlen : 2 <= len) by (unfold len; simpl List.length; lia).
  assert (Ei : Math_floor (inject_Z (Z.of_nat 0) / segmentSize)%Q = 0).
  { unfold Math_floor. simpl Z.of_nat.
    assert (E : (inject_Z 0 / segmentSize == 0)%Q) by (unfold Qdiv; ring).
    rewrite (Qfloor_comp _ _ E). reflexivity. }
  rewrite Ei. rewrite (Z.min_l 0 (len - 2)) by lia.
  change (colorAt (c0 :: c1 :: rest) 0) with (hexToRgb c0).
  change (colorAt (c0 :: c1 :: rest) (0 + 1)) with (hexToRgb c1).
  rewrite E0, E1. destruct rgb1 as [[r2 g2] b2].
  unfold interpolateRgb.
  rewrite !(Math_round_at_start _ _ _ (segmentT_at_start segmentSize)).
  reflexivity.
Qed.
End GradientFacts.

(** C8 (as amended).  An empty input returns an empty result and a
    single-colour input returns that colour unchanged.  For two or more
    colours that all parse, the gradient has exactly N entries and, when
    N >= 1, its first entry is the first colour as [rgbToHex] prints it:
    lower case, with a leading [#].  It is therefore colors[0] itself when
    colors[0] is already written that way. *)
Theorem generateSmoothGradient_entries (colors : list string) (N : nat) :
  match colors with
  | [] => ColorPalettes.generateSmoothGradient colors N = []
  | [c] => ColorPalettes.generateSmoothGradient colors N = [c]
  | c0 :: _ :: _ =>
      (forall c, In c colors -> ColorPalettes.hexToRgb c <> None) ->
      List.length (ColorPalettes.generateSmoothGradient colors N) = N
      /\ (forall r g b, (1 <= N)%nat ->
            ColorPalettes.hexToRgb c0 = Some (r, g, b) ->
            nth_error (ColorPalettes.generateSmoothGradient colors N) 0
            = Some (ColorPalettes.rgbToHex r g b))
      /\ ((1 <= N)%nat -> lowercaseHexColor c0 = true ->
          nth_error (ColorPalettes.generateSmoothGradient colors N) 0 = Some c0)
  end.
Proof.
  destruct colors as [|c0 [|c1 rest]]; [reflexivity|reflexivity|].
  intros Hall.
  assert (Hfirst : forall r g b, (1 <= N)%nat ->
            ColorPalettes.hexToRgb c0 = Some (r, g, b) ->
            nth_error (ColorPalettes.generateSmoothGradient (c0 :: c1 :: rest) N) 0
            = Some (ColorPalettes.rgbToHex r g b)).
  { intros r g b HN E0.
    destruct (ColorPalettes.hexToRgb c1) as [rgb1|] eqn:E1;
      [|exfalso; apply (Hall c1); [right; left; reflexivity|exact E1]].
    unfold ColorPalettes.generateSmoothGradient.
    destruct (Z.of_nat (List.length (c0 :: c1 :: rest)) <? 2)%Z eqn:E;
      [apply Z.ltb_lt in E; simpl List.length in E; lia|].
    rewrite GradientFacts.push_loop. simpl app.
    destruct N as [|n]; [lia|].
    simpl seq. simpl flat_map.
    rewrite (GradientFacts.gradientEntry_first c0 c1 rest (S n) r g b rgb1 E0 E1).
    reflexivity. }
  split; [|split].
  - apply GradientFacts.gradient_length; [simpl; lia|exact Hall].
  - exact Hfirst.
  - intros HN Hc.
    destruct (GradientFacts.rgbToHex_hexToRgb c0 Hc) as [r [g [b [E0 Eh]]]].
    rewrite (Hfirst r g b HN E0), Eh. reflexivity.
Qed.

Lemma generateSmoothGradient_entries_witness :
  List.length
    (ColorPalettes.generateSmoothGradient ["#ff0000"; "#00ff00"; "#0000ff"]%string 10)
  = 10%nat
  /\ nth_error
       (ColorPalettes.generateSmoothGradient ["#ff0000"; "#00ff00"; "#0000ff"]%string 10)
       0
     = Some "#ff0000"%string.
Proof.
  assert (Hall : forall c, In c ["#ff0000"; "#00ff00"; "#0000ff"]%string ->
                           ColorPalettes.hexToRgb c <> None).
  { intros c [<-|[<-|[<-|[]]]]; vm_compute; discriminate. }
  destruct (generateSmoothGradient_entries
              ["#ff0000"; "#00ff00"; "#0000ff"]%string 10 Hall) as [Hlen [_ Hfirst]].
  split; [exact Hlen|].
  apply Hfirst; [lia|reflexivity].
Defined.

(** C8 (as stated, refuted).  The first entry is not always colors[0]: an
    upper-case first colour comes back in lower case. *)
Lemma uppercase_first_color_is_rewritten :
  ~ (forall (colors : list string) (N : nat),
        (2 <= List.length colors)%nat ->
        (forall c, In c colors -> ColorPalettes.hexToRgb c <> None) ->
        (1 <= N)%nat ->
        nth_error (ColorPalettes.generateSmoothGradient colors N) 0
        = nth_error colors 0).
Proof.
  intros H.
  assert (Hall : forall c, In c ["#FF0000"; "#00FF00"]%string ->
                           ColorPalettes.hexToRgb c <> None).
  { intros c [<-|[<-|[]]]; vm_compute; discriminate. }
  specialize (H ["#FF0000"; "#00FF00"]%string 2%nat (le_n 2) Hall
                (le_S 1 1 (le_n 1))).
  vm_compute in H. discriminate H.
Qed.

(* ================================================================== *)
(** * The order of binary64 is transitive *)

Module FloatTrans.
Local Open Scope float_scope.

Lemma SFltb_leb_trans (x y z : spec_float) :
  SFltb x y = true -> SFleb y z = true -> SFltb x z = true.
Proof.
  unfold SFltb, SFleb.
  destruct x as [sx|sx| |sx mx ex], y as [sy|sy| |sy my ey], z as [sz|sz| |sz mz ez];
    cbv beta iota delta [SFcompare]; intros H1 H2;
    try discriminate H1; try discriminate H2;
    repeat match goal with s : bool |- _ => destruct s end;
    try discriminate H1; try discriminate H2; try reflexivity;
    split_compares; simpl in *; try discriminate; try reflexivity; try lia.
Qed.

Lemma SFleb_ltb_trans (x y z : spec_float) :
  SFleb x y = true -> SFltb y z = true -> SFltb x z = true.
Proof.
  unfold SFltb, SFleb.
  destruct x as [sx|sx| |sx mx ex], y as [sy|sy| |sy my ey], z as [sz|sz| |sz mz ez];
    cbv beta iota delta [SFcompare]; intros H1 H2;
    try discriminate H1; try discriminate H2;
    repeat match goal with s : bool |- _ => destruct s end;
    try discriminate H1; try discriminate H2; try reflexivity;
    split_compares; simpl in *; try discriminate; try reflexivity; try lia.
Qed.

Lemma SFleb_trans (x y z : spec_float) :
  SFleb x y = true -> SFleb y z = true -> SFleb x z = true.
Proof.
  unfold SFleb.
  destruct x as [sx|sx| |sx mx ex], y as [sy|sy| |sy my ey], z as [sz|sz| |sz mz ez];
    cbv beta iota delta [SFcompare]; intros H1 H2;
    try discriminate H1; try discriminate H2;
    repeat match goal with s : bool |- _ => destruct s end;
    try discriminate H1; try discriminate H2; try reflexivity;
    split_compares; simpl in *; try discriminate; try reflexivity; try lia.
Qed.

Lemma ltb_leb_trans (x y z : float) :
  (x <? y) = true -> (y <=? z) = true -> (x <? z) = true.
Proof. rewrite !FloatAxioms.ltb_spec, FloatAxioms.leb_spec. apply SFltb_leb_trans. Qed.

Lemma leb_ltb_trans (x y z : float) :
  (x <=? y) = true -> (y <? z) = true -> (x <? z) = true.
Proof. rewrite !FloatAxioms.ltb_spec, FloatAxioms.leb_spec. apply SFleb_ltb_trans. Qed.

Lemma leb_trans (x y z : float) :
  (x <=? y) = true -> (y <=? z) = true -> (x <=? z) = true.
Proof. rewrite !FloatAxioms.leb_spec. apply SFleb_trans. Qed.
End FloatTrans.

(* ================================================================== *)
(** * The worker drivers return *)

Module DriverFacts.
Local Open Scope float_scope.

(** Counters up to the largest budget convert to the number they count. *)
Lemma float_of_nat_1000 : JS.float_of_nat 1000 = 1000.
Proof. vm_compute. reflexivity. Qed.

Lemma escape_while_returns (c : Complex) (N er : float) (k : nat) :
  (1000 <? N) = false ->
  forall (fuel i : nat) (z : Complex),
    (i + k = 1000)%nat -> (k < fuel)%nat ->
    FractalCompute.escape_while fuel i z c N er <> None.
Proof.
  intros HN. induction k as [|k IH]; intros fuel i z' Hi Hfuel.
  - destruct fuel as [|fuel]; [lia|]. simpl.
    replace i with 1000%nat by lia. rewrite float_of_nat_1000, HN. discriminate.
  - destruct fuel as [|fuel]; [lia|]. simpl.
    destruct (JS.float_of_nat i <? N); [|discriminate].
    destruct (er <? ComplexMath.magnitudeSquared z'); [discriminate|].
    apply IH; lia.
Qed.

Lemma burningShip_while_returns (c : Complex) (N er : float) (k : nat) :
  (1000 <? N) = false ->
  forall (fuel i : nat) (z : Complex),
    (i + k = 1000)%nat -> (k < fuel)%nat ->
    FractalCompute.burningShip_while fuel i z c N er <> None.
Proof.
  intros HN. induction k as [|k IH]; intros fuel i z' Hi Hfuel.
  - destruct fuel as [|fuel]; [lia|]. simpl.
    replace i with 1000%nat by lia. rewrite float_of_nat_1000, HN. discriminate.
  - destruct fuel as [|fuel]; [lia|]. simpl.
    destruct (JS.float_of_nat i <? N); [|discriminate].
    destruct (er <? ComplexMath.magnitudeSquared z'); [discriminate|].
    apply IH; lia.
Qed.

Lemma lyapunov_for_returns (M : JS.MathLib) (a b N : float) (k : nat) :
  (1000 <? N) = false ->
  forall (fuel i : nat) (x sum : float),
    (i + k = 1000)%nat -> (k < fuel)%nat ->
    FractalCompute.lyapunov_for M fuel i a b x sum N <> None.
Proof.
  intros HN. induction k as [|k IH]; intros fuel i x sum Hi Hfuel.
  - destruct fuel as [|fuel]; [lia|]. simpl.
    replace i with 1000%nat by lia. rewrite float_of_nat_1000, HN. discriminate.
  - destruct fuel as [|fuel]; [lia|]. simpl.
    destruct (JS.float_of_nat i <? N); [|discriminate].
    destruct ((x <=? 0) || (1 <=? x)); [discriminate|].
    destruct (JS.Math_abs _ <? 1e-10); [discriminate|].
    apply IH; lia.
Qed.

Lemma budget_listed_not_above_1000 (N : float) :
  JS.includes_number [50; 100; 500; 1000] N = true -> (1000 <? N) = false.
Proof.
  intros H. apply ValidatorFacts.includes_number_In in H; [|reflexivity].
  simpl in H. destruct H as [<-|[<-|[<-|[<-|[]]]]]; reflexivity.
Qed.

Section Drivers.
Variable M : JS.MathLib.
Variables (fuel : nat) (N er : float).
Hypothesis HN : (1000 <? N) = false.
Hypothesis Hfuel : (1001 <= fuel)%nat.

Lemma julia_returns (z c : Complex) :
  exists v, FractalCompute.julia M fuel z c N er = Some v.
Proof.
  unfold FractalCompute.julia. cbv zeta.
  destruct (FractalCompute.escape_while fuel 0 z c N _) as [e|] eqn:E.
  - eexists. reflexivity.
  - exfalso. revert E. apply (escape_while_returns c N _ 1000 HN); lia.
Qed.

Lemma mandelbrot_returns (c : Complex) :
  exists v, FractalCompute.mandelbrot M fuel c N er = Some v.
Proof. exact (julia_returns {| real := 0; imag := 0 |} c). Qed.

Lemma burningShip_returns (c : Complex) :
  exists v, FractalCompute.burningShip M fuel c N er = Some v.
Proof.
  unfold FractalCompute.burningShip. cbv zeta.
  destruct (FractalCompute.burningShip_while fuel 0 _ c N _) as [e|] eqn:E.
  - eexists. reflexivity.
  - exfalso. revert E. apply (burningShip_while_returns c N _ 1000 HN); lia.
Qed.

Lemma lyapunov_returns (c : Complex) :
  exists v, FractalCompute.lyapunov M fuel c N = Some v.
Proof.
  unfold FractalCompute.lyapunov. cbv zeta.
  destruct (_ || _); [eexists; reflexivity|].
  destruct (FractalCompute.lyapunov_for M fuel 0 _ _ _ _ N) as [[v|s]|] eqn:E;
    try (eexists; reflexivity).
  exfalso. revert E. apply (lyapunov_for_returns M _ _ N 1000 HN); lia.
Qed.
End Drivers.
End DriverFacts.

(** X1.  For an iteration budget not above 1000 (NaN included), 1001 turns
    are enough for every driver of the worker: each returns a value, for
    every sample point, constant and escape radius. *)
Theorem drivers_return_within_1001_turns
        (M : JS.MathLib) (fuel : nat) (z c : Complex) (N er : float) :
  PrimFloat.ltb 1000 N = false -> (1001 <= fuel)%nat ->
  (exists v, FractalCompute.mandelbrot M fuel c N er = Some v)
  /\ (exists v, FractalCompute.julia M fuel z c N er = Some v)
  /\ (exists v, FractalCompute.burningShip M fuel c N er = Some v)
  /\ (exists v, FractalCompute.lyapunov M fuel c N = Some v).
Proof.
  intros HN Hfuel.
  repeat match goal with |- _ /\ _ => split end.
  - apply DriverFacts.mandelbrot_returns; assumption.
  - apply DriverFacts.julia_returns; assumption.
  - apply DriverFacts.burningShip_returns; assumption.
  - apply DriverFacts.lyapunov_returns; assumption.
Qed.

Lemma drivers_return_within_1001_turns_witness :
  (exists v, FractalCompute.mandelbrot Inputs.plainMath 1001 Inputs.two 500 2 = Some v)
  /\ (exists v, FractalCompute.julia Inputs.plainMath 1001 Inputs.origin Inputs.two
                  500 2 = Some v)
  /\ (exists v, FractalCompute.burningShip Inputs.plainMath 1001 Inputs.two 500 2
                = Some v)
  /\ (exists v, FractalCompute.lyapunov Inputs.plainMath 1001 Inputs.two 500 = Some v).
Proof.
  apply (drivers_return_within_1001_turns Inputs.plainMath 1001 Inputs.origin
           Inputs.two 500 2).
  - reflexivity.
  - apply le_n.
Defined.

(** X2.  A sample of the worker always returns on validated parameters:
    whatever update the validator was given, whatever the preset, surface
    and pixel, 1001 turns are enough for [computeSample]. *)
Theorem computeSample_returns_on_validated_params
        (M : JS.MathLib) (fuel : nat) (preset : PresetArg)
        (p : PartialFractalParams) (viewport : ViewportState)
        (pixelX pixelY : float) :
  (1001 <= fuel)%nat ->
  exists v, Worker.computeSample M fuel preset (Presets.validateFractalParams p)
                                 viewport pixelX pixelY = Some v.
Proof.
  intros Hfuel.
  pose proof (DriverFacts.budget_listed_not_above_1000 _
                (validate_maxIterations_listed (p_maxIterations p))) as HN.
  unfold Worker.computeSample, Worker.sampleIteration.
  change (maxIterations (Presets.validateFractalParams p))
    with (Presets.validate_maxIterations (p_maxIterations p)).
  destruct (String.eqb _ "mandelbrot");
    [apply DriverFacts.mandelbrot_returns; assumption|].
  destruct (String.eqb _ "julia").
  { destruct (juliaConstant _); [|eexists; reflexivity].
    apply DriverFacts.julia_returns; assumption. }
  destruct (String.eqb _ "burning-ship");
    [apply DriverFacts.burningShip_returns; assumption|].
  destruct (String.eqb _ "lyapunov");
    [apply DriverFacts.lyapunov_returns; assumption|].
  eexists. reflexivity.
Qed.

Lemma computeSample_returns_on_validated_params_witness :
  exists v, Worker.computeSample Inputs.plainMath 1001 (ByType "burning-ship")
              (Presets.validateFractalParams Inputs.mixedUpdate)
              (Inputs.square100 4) 10 20 = Some v.
Proof.
  apply (computeSample_returns_on_validated_params Inputs.plainMath 1001
           (ByType "burning-ship") Inputs.mixedUpdate (Inputs.square100 4) 10 20).
  apply le_n.
Defined.

Module EscapeFacts.
Local Open Scope float_scope.

Lemma orbit_step (c z : Complex) (k : nat) :
  orbit c z (S k) = orbit c (ComplexMath.add (ComplexMath.square z) c) k.
Proof.
  unfold orbit. induction k as [|k IH]; [reflexivity|].
  simpl in *. rewrite IH. reflexivity.
Qed.

(** The loop entered at [iteration = i] leaves through its [return] exactly
    at the first orbit point outside the disc, provided the counter stays
    below the budget up to there. *)
Lemma escape_while_exit_from (fuel : nat) (c : Complex) (N er : float) :
  forall (i : nat) (z : Complex) (k : nat) (m : float),
    FractalCompute.escape_while fuel i z c N er = Some (Escaped k m) <->
    exists d : nat,
      k = (i + d)%nat /\ (d < fuel)%nat
      /\ m = ComplexMath.magnitudeSquared (orbit c z d)
      /\ (er <? m) = true
      /\ (forall j, (j <= d)%nat -> (JS.float_of_nat (i + j) <? N) = true)
      /\ (forall j, (j < d)%nat ->
            (er <? ComplexMath.magnitudeSquared (orbit c z j)) = false).
Proof.
  induction fuel as [|fuel IH]; intros i z k m.
  - simpl. split; [discriminate|]. intros [d [_ [Hd _]]]. lia.
  - simpl.
    destruct (JS.float_of_nat i <? N) eqn:Hi.
    + destruct (er <? ComplexMath.magnitudeSquared z) eqn:Hz.
      * split.
        -- intros H. injection H as <- <-. exists 0%nat.
           refine (conj _ (conj _ (conj _ (conj _ (conj _ _)))));
             [lia|lia|reflexivity|exact Hz| |].
           ++ intros j Hj. replace (i + j)%nat with i by lia. exact Hi.
           ++ intros j Hj. lia.
        -- intros [d [Hk [Hd [Hm [He [Hlt Hin]]]]]].
           destruct d as [|d].
           ++ subst. simpl. replace (i + 0)%nat with i by lia. reflexivity.
           ++ specialize (Hin 0%nat ltac:(lia)). simpl in Hin.
              rewrite Hz in Hin. discriminate Hin.
      * rewrite IH. split.
        -- intros [d [Hk [Hd [Hm [He [Hlt Hin]]]]]].
           exists (S d). rewrite orbit_step.
           refine (conj _ (conj _ (conj _ (conj _ (conj _ _)))));
             [lia|lia|exact Hm|exact He| |].
           ++ intros j Hj. destruct j as [|j].
              ** replace (i + 0)%nat with i by lia. exact Hi.
              ** replace (i + S j)%nat with (S i + j)%nat by lia.
                 apply Hlt. lia.
           ++ intros j Hj. destruct j as [|j]; [exact Hz|].
              rewrite orbit_step. apply Hin. lia.
        -- intros [d [Hk [Hd [Hm [He [Hlt Hin]]]]]].
           destruct d as [|d].
           ++ subst m. simpl in He. rewrite Hz in He. discriminate He.
           ++ exists d. rewrite orbit_step in Hm.
              refine (conj _ (conj _ (conj _ (conj _ (conj _ _)))));
                [lia|lia|exact Hm|exact He| |].
              ** intros j Hj. replace (S i + j)%nat with (i + S j)%nat by lia.
                 apply Hlt. lia.
              ** intros j Hj. rewrite <- orbit_step. apply Hin. lia.
    + split; [discriminate|].
      intros [d [_ [_ [_ [_ [Hlt _]]]]]].
      specialize (Hlt 0%nat ltac:(lia)).
      replace (i + 0)%nat with i in Hlt by lia. rewrite Hi in Hlt. discriminate Hlt.
Qed.

(** A larger budget changes no turn of a loop that escapes. *)
Lemma escape_while_larger_budget (fuel : nat) (c : Complex) (N N' er : float) :
  (N <=? N') = true ->
  forall (i : nat) (z : Complex) (k : nat) (m : float),
    FractalCompute.escape_while fuel i z c N er = Some (Escaped k m) ->
    FractalCompute.escape_while fuel i z c N' er = Some (Escaped k m).
Proof.
  intros HNN'. induction fuel as [|fuel IH]; intros i z k m; simpl.
  - discriminate.
  - destruct (JS.float_of_nat i <? N) eqn:Hi; [|discriminate].
    rewrite (FloatTrans.ltb_leb_trans _ _ _ Hi HNN').
    destruct (er <? ComplexMath.magnitudeSquared z); [trivial|]. apply IH.
Qed.
End EscapeFacts.

(** X3.  The escape loop of [mandelbrot] and [julia] leaves through its
    [return] with counter [k] and squared magnitude [m] exactly when [k] is
    the first index at which the orbit of [z] under [z*z + c] has squared
    magnitude above the squared radius, [m] is that magnitude, and every
    counter up to [k] is below the iteration budget. *)
Theorem escape_while_reports_first_exit
        (fuel : nat) (z c : Complex) (N er : float) (k : nat) (m : float) :
  FractalCompute.escape_while fuel 0 z c N er = Some (Escaped k m) <->
  (k < fuel)%nat
  /\ m = ComplexMath.magnitudeSquared (orbit c z k)
  /\ PrimFloat.ltb er m = true
  /\ (forall j, (j <= k)%nat -> PrimFloat.ltb (JS.float_of_nat j) N = true)
  /\ (forall j, (j < k)%nat ->
        PrimFloat.ltb er (ComplexMath.magnitudeSquared (orbit c z j)) = false).
Proof.
  rewrite EscapeFacts.escape_while_exit_from. split.
  - intros [d [Hk H]]. simpl in Hk. subst d. exact H.
  - intros H. exists k. split; [reflexivity|exact H].
Qed.

(** X4.  Raising the iteration budget never changes a sample that escapes:
    if the loop escapes at counter [k] under budget [N], it escapes at the
    same counter with the same magnitude under every budget [N'] with
    [N <= N'], and [julia] (hence [mandelbrot], its start at 0) returns the
    same value. *)
Theorem escape_survives_larger_budget
        (M : JS.MathLib) (fuel : nat) (z c : Complex) (N N' er : float)
        (k : nat) (m : float) :
  PrimFloat.leb N N' = true ->
  FractalCompute.escape_while fuel 0 z c N (er * er) = Some (Escaped k m) ->
  FractalCompute.escape_while fuel 0 z c N' (er * er) = Some (Escaped k m)
  /\ FractalCompute.julia M fuel z c N' er = FractalCompute.julia M fuel z c N er.
Proof.
  intros HNN' H.
  pose proof (EscapeFacts.escape_while_larger_budget fuel c N N' _ HNN' _ _ _ _ H)
    as H'.
  split; [exact H'|].
  unfold FractalCompute.julia. cbv zeta. rewrite H, H'. reflexivity.
Qed.

Lemma escape_survives_larger_budget_witness :
  FractalCompute.escape_while 1001 0 Inputs.two Inputs.two 500 (2 * 2)
  = Some (Escaped 1 36)
  /\ FractalCompute.julia Inputs.plainMath 1001 Inputs.two Inputs.two 500 2
     = FractalCompute.julia Inputs.plainMath 1001 Inputs.two Inputs.two 50 2.
Proof.
  apply (escape_survives_larger_budget Inputs.plainMath 1001 Inputs.two Inputs.two
           50 500 2 1 36).
  - reflexivity.
  - vm_compute. reflexivity.
Defined.

Module LyapunovFacts.
Local Open Scope float_scope.

Lemma not_nan_spec (x : float) :
  PrimFloat.is_nan x = false -> Prim2SF x <> S754_nan.
Proof.
  unfold PrimFloat.is_nan. intros H E. apply negb_false_iff in H.
  rewrite FloatAxioms.eqb_spec, E in H. discriminate H.
Qed.

(** The first turn of the loop: [x] is 0.5, so the derivative is a zero for
    every finite [a], and the guard against [log 0] returns. *)
Lemma first_turn (M : JS.MathLib) (fuel : nat) (a b N : float) :
  PrimFloat.is_nan a = false ->
  (a <=? 0) = false -> (4 <=? a) = false -> (0 <? N) = true ->
  FractalCompute.lyapunov_for M (S fuel) 0 a b 0.5 0 N = Some (inl (-10)).
Proof.
  intros Hnan Ha0 Ha4 HN.
  unfold FractalCompute.lyapunov_for.
  change (JS.float_of_nat 0) with 0. rewrite HN.
  change (0.5 <=? 0) with false. change (1 <=? 0.5) with false.
  simpl orb. cbv iota. simpl Nat.even. cbv iota.
  change (1 - 2 * 0.5) with 0.
  assert (Hz : (JS.Math_abs (a * 0) <? 1e-10) = true).
  { unfold JS.Math_abs.
    rewrite FloatAxioms.ltb_spec, FloatAxioms.abs_spec, FloatAxioms.mul_spec.
    apply not_nan_spec in Hnan.
    rewrite FloatAxioms.leb_spec in Ha0, Ha4.
    FloatOrder.spec_of 0. FloatOrder.spec_of 4. FloatOrder.spec_of 1e-10.
    destruct (Prim2SF a) as [s|s| |s m e]; simpl in Ha0, Ha4;
      try discriminate; try (destruct s; discriminate); try congruence.
    destruct s; reflexivity. }
  rewrite Hz. reflexivity.
Qed.
End LyapunovFacts.

(** X5.  The worker's Lyapunov driver never returns an exponent: for a
    first parameter that is a number and a positive iteration budget it
    returns 0 when the pair is rejected and -10 otherwise, after at most one
    turn of its loop. *)
Theorem lyapunov_worker_returns_only_zero_or_sentinel
        (M : JS.MathLib) (fuel : nat) (coord : Complex) (N : float) :
  PrimFloat.is_nan (real coord) = false ->
  PrimFloat.ltb 0 N = true ->
  FractalCompute.lyapunov M (S fuel) coord N
  = Some (if lyapunovOutOfRange coord then 0 else -10)%float.
Proof.
  intros Hnan HN. unfold FractalCompute.lyapunov, lyapunovOutOfRange. cbv zeta.
  destruct (PrimFloat.leb (real coord) 0) eqn:E1; [reflexivity|].
  destruct (PrimFloat.leb 4 (real coord)) eqn:E2; [reflexivity|].
  simpl orb.
  destruct (PrimFloat.leb (imag coord) 0 || PrimFloat.leb 4 (imag coord))%bool;
    [reflexivity|].
  rewrite (LyapunovFacts.first_turn M fuel _ _ N Hnan E1 E2 HN). reflexivity.
Qed.

Lemma lyapunov_worker_returns_only_zero_or_sentinel_witness :
  FractalCompute.lyapunov Inputs.plainMath 1 {| real := 3.2; imag := 3.9 |} 1000
  = Some (-10)%float.
Proof.
  apply (lyapunov_worker_returns_only_zero_or_sentinel Inputs.plainMath 0
           {| real := 3.2; imag := 3.9 |} 1000); reflexivity.
Defined.

Module DispatchFacts.
Local Open Scope string_scope.

Lemma guard_rejects (t : string) :
  TypeGuards.isFractalType t = false ->
  String.eqb t "mandelbrot" = false /\ String.eqb t "julia" = false
  /\ String.eqb t "burning-ship" = false /\ String.eqb t "lyapunov" = false.
Proof.
  unfold TypeGuards.isFractalType, JS.includes_string. cbn [existsb].
  intros H. repeat (apply orb_false_iff in H; destruct H as [? H]).
  repeat split; assumption.
Qed.

Lemma sample_zero (M : JS.MathLib) (fuel : nat) (t : string)
      (params : FractalParams) (coord : Complex) :
  TypeGuards.isFractalType t = false ->
  Worker.sampleIteration M fuel t params coord = Some 0%float.
Proof.
  intros H. destruct (guard_rejects t H) as [H1 [H2 [H3 H4]]].
  unfold Worker.sampleIteration. rewrite H1, H2, H3, H4. reflexivity.
Qed.

Lemma location_id_rejected (d slug : string) :
  In d FractalLoader.getAvailableTypes ->
  TypeGuards.isFractalType (PresetIds.locationPresetId d slug) = false
  /\ String.eqb (PresetIds.locationPresetId d slug) EmptyString = false.
Proof.
  intros H. simpl in H.
  repeat (destruct H as [<-|H]; [split; reflexivity|]). destruct H.
Qed.
End DispatchFacts.

(** X6.  The worker's switch computes only the four types the type guard
    [isFractalType] accepts: for every other type name the sample is 0 with
    no turn of any loop, although the validator keeps every type of the
    registry. *)
Theorem worker_samples_zero_outside_type_guard
        (M : JS.MathLib) (fuel : nat) (t : string)
        (params : FractalParams) (coord : Complex) :
  TypeGuards.isFractalType t = false ->
  Worker.sampleIteration M fuel t params coord = Some 0%float
  /\ (In t FractalLoader.getAvailableTypes ->
      Presets.validate_fractalType (Some t) = t).
Proof.
  intros H. split; [apply DispatchFacts.sample_zero; exact H|].
  intros Hin. simpl in Hin.
  repeat (destruct Hin as [<-|Hin]; [reflexivity|]). destruct Hin.
Qed.

Lemma worker_samples_zero_outside_type_guard_witness :
  Worker.sampleIteration Inputs.plainMath 0 "tricorn" Presets.defaults Inputs.two
  = Some 0%float
  /\ (In "tricorn"%string FractalLoader.getAvailableTypes ->
      Presets.validate_fractalType (Some "tricorn"%string) = "tricorn"%string).
Proof.
  apply (worker_samples_zero_outside_type_guard Inputs.plainMath 0 "tricorn"
           Presets.defaults Inputs.two).
  reflexivity.
Defined.

(** X7.  A location preset handed to the worker yields the sample 0 at every
    pixel: its id, the definition id followed by a dash and the location
    slug, takes precedence over the fractal type of its parameters and is
    none of the names the switch knows. *)
Theorem worker_samples_zero_for_location_presets
        (M : JS.MathLib) (fuel : nat) (definitionId slug : string)
        (params_fractalType : option (option string))
        (params : FractalParams) (viewport : ViewportState)
        (pixelX pixelY : float) :
  In definitionId FractalLoader.getAvailableTypes ->
  Worker.computeSample M fuel
    (ByPreset (Some (PresetIds.locationPresetId definitionId slug)) params_fractalType)
    params viewport pixelX pixelY = Some 0%float.
Proof.
  intros Hin.
  destruct (DispatchFacts.location_id_rejected definitionId slug Hin) as [Hg He].
  unfold Worker.computeSample, Worker.resolveFractalType, Worker.or_string.
  rewrite He. apply DispatchFacts.sample_zero. exact Hg.
Qed.

Lemma worker_samples_zero_for_location_presets_witness :
  Worker.computeSample Inputs.plainMath 1001
    (ByPreset (Some (PresetIds.locationPresetId "mandelbrot" "seahorse-valley"))
              (Some (Some "mandelbrot"%string)))
    Presets.defaults (Inputs.square100 4) 50 50 = Some 0%float.
Proof.
  apply (worker_samples_zero_for_location_presets Inputs.plainMath 1001
           "mandelbrot" "seahorse-valley" (Some (Some "mandelbrot"%string))
           Presets.defaults (Inputs.square100 4) 50 50).
  simpl. left. reflexivity.
Defined.

(* ================================================================== *)
(** * Recommendations of the presets module *)

(** X8.  What the presets module recommends is always accepted by its own
    validator: the recommended iteration count, for every zoom (NaN
    included), and the recommended precision, for every zoom and device
    tier, pass [validateFractalParams] unchanged, and the precision passes
    the type guard. *)
Theorem recommendations_pass_validation (zoom : float) (deviceTier : DeviceTier) :
  Presets.validate_maxIterations (Some (PresetAdvice.getRecommendedIterations zoom))
  = PresetAdvice.getRecommendedIterations zoom
  /\ Presets.validate_precision
       (Some (PresetAdvice.getRecommendedPrecision zoom deviceTier))
     = PresetAdvice.getRecommendedPrecision zoom deviceTier
  /\ TypeGuards.isShaderPrecision
       (PresetAdvice.getRecommendedPrecision zoom deviceTier) = true.
Proof.
  unfold PresetAdvice.getRecommendedIterations, PresetAdvice.getRecommendedPrecision.
  split; [|split].
  - destruct (PrimFloat.ltb 1000 zoom); [reflexivity|].
    destruct (PrimFloat.ltb 100 zoom); [reflexivity|].
    destruct (PrimFloat.ltb 10 zoom); reflexivity.
  - destruct deviceTier; destruct (PrimFloat.ltb 1e6 zoom);
      destruct (PrimFloat.ltb 1000 zoom); reflexivity.
  - destruct deviceTier; destruct (PrimFloat.ltb 1e6 zoom);
      destruct (PrimFloat.ltb 1000 zoom); reflexivity.
Qed.

(** X9.  The recommended iteration count never decreases when the zoom
    value grows. *)
Theorem getRecommendedIterations_monotone (zoom zoom' : float) :
  PrimFloat.leb zoom zoom' = true ->
  PrimFloat.leb (PresetAdvice.getRecommendedIterations zoom)
                (PresetAdvice.getRecommendedIterations zoom') = true.
Proof.
  intros H. unfold PresetAdvice.getRecommendedIterations.
  destruct (PrimFloat.ltb 1000 zoom) eqn:A.
  { rewrite (FloatTrans.ltb_leb_trans _ _ _ A H). reflexivity. }
  destruct (PrimFloat.ltb 100 zoom) eqn:B.
  { rewrite (FloatTrans.ltb_leb_trans _ _ _ B H).
    destruct (PrimFloat.ltb 1000 zoom'); reflexivity. }
  destruct (PrimFloat.ltb 10 zoom) eqn:C.
  { rewrite (FloatTrans.ltb_leb_trans _ _ _ C H).
    destruct (PrimFloat.ltb 1000 zoom'); [reflexivity|].
    destruct (PrimFloat.ltb 100 zoom'); reflexivity. }
  destruct (PrimFloat.ltb 1000 zoom'); [reflexivity|].
  destruct (PrimFloat.ltb 100 zoom'); [reflexivity|].
  destruct (PrimFloat.ltb 10 zoom'); reflexivity.
Qed.

Lemma getRecommendedIterations_monotone_witness :
  PrimFloat.leb (PresetAdvice.getRecommendedIterations 50)
                (PresetAdvice.getRecommendedIterations 5000) = true.
Proof.
  apply (getRecommendedIterations_monotone 50 5000). reflexivity.
Defined.

(* ================================================================== *)
(** * The frame window and the quality tiers of the monitor *)

Module MinMaxFacts.
Local Open Scope float_scope.

Lemma leb_refl (x : float) : PrimFloat.is_nan x = false -> (x <=? x) = true.
Proof.
  intros H. apply LyapunovFacts.not_nan_spec in H.
  rewrite FloatAxioms.leb_spec. unfold SFleb.
  rewrite (FloatOrder.SFcompare_refl _ H). reflexivity.
Qed.

Lemma eqb_leb (x y : float) :
  (x =? y) = true -> (x <=? y) = true /\ (y <=? x) = true.
Proof.
  rewrite FloatAxioms.eqb_spec, !FloatAxioms.leb_spec. unfold SFeqb, SFleb.
  destruct (SFcompare (Prim2SF x) (Prim2SF y)) as [c|] eqn:E; [|discriminate].
  rewrite (FloatOrder.SFcompare_antisym _ _ _ E).
  destruct c; simpl; try discriminate. split; reflexivity.
Qed.

Lemma zeros_leb (x y : float) :
  PrimFloat.is_zero x = true -> PrimFloat.is_zero y = true -> (x <=? y) = true.
Proof.
  unfold PrimFloat.is_zero. intros Hx Hy.
  apply eqb_leb in Hx. apply eqb_leb in Hy.
  apply (FloatTrans.leb_trans x PrimFloat.zero y); [apply Hx|apply Hy].
Qed.

(** [Math.min] of two numbers is below both. *)
Lemma Math_min_le (a b : float) :
  PrimFloat.is_nan a = false -> PrimFloat.is_nan b = false ->
  (JS.Math_min a b <=? a) = true /\ (JS.Math_min a b <=? b) = true.
Proof.
  intros Ha Hb. unfold JS.Math_min, JS.isNaN. rewrite Ha, Hb. simpl orb. cbv iota.
  destruct (PrimFloat.is_zero a && PrimFloat.is_zero b) eqn:Z.
  - apply andb_true_iff in Z. destruct Z as [Za Zb].
    destruct (PrimFloat.get_sign a).
    + split; [apply leb_refl; exact Ha|apply zeros_leb; assumption].
    + split; [apply zeros_leb; assumption|apply leb_refl; exact Hb].
  - destruct (a <? b) eqn:L.
    + split; [apply leb_refl; exact Ha|apply FloatOrder.ltb_leb; exact L].
    + split; [apply FloatOrder.not_ltb_leb; assumption|apply leb_refl; exact Hb].
Qed.

(** [Math.max] of two numbers is above both. *)
Lemma Math_max_ge (a b : float) :
  PrimFloat.is_nan a = false -> PrimFloat.is_nan b = false ->
  (a <=? JS.Math_max a b) = true /\ (b <=? JS.Math_max a b) = true.
Proof.
  intros Ha Hb. unfold JS.Math_max, JS.isNaN. rewrite Ha, Hb. simpl orb. cbv iota.
  destruct (PrimFloat.is_zero a && PrimFloat.is_zero b) eqn:Z.
  - apply andb_true_iff in Z. destruct Z as [Za Zb].
    destruct (PrimFloat.get_sign a).
    + split; [apply zeros_leb; assumption|apply leb_refl; exact Hb].
    + split; [apply leb_refl; exact Ha|apply zeros_leb; assumption].
  - destruct (a <? b) eqn:L.
    + split; [apply FloatOrder.ltb_leb; exact L|apply leb_refl; exact Hb].
    + split; [apply leb_refl; exact Ha|apply FloatOrder.not_ltb_leb; assumption].
Qed.

Lemma Math_min_not_nan (a b : float) :
  PrimFloat.is_nan a = false -> PrimFloat.is_nan b = false ->
  PrimFloat.is_nan (JS.Math_min a b) = false.
Proof.
  intros Ha Hb. unfold JS.Math_min, JS.isNaN. rewrite Ha, Hb. simpl orb. cbv iota.
  destruct (_ && _); [destruct (PrimFloat.get_sign a)|destruct (a <? b)]; assumption.
Qed.

Lemma Math_max_not_nan (a b : float) :
  PrimFloat.is_nan a = false -> PrimFloat.is_nan b = false ->
  PrimFloat.is_nan (JS.Math_max a b) = false.
Proof.
  intros Ha Hb. unfold JS.Math_max, JS.isNaN. rewrite Ha, Hb. simpl orb. cbv iota.
  destruct (_ && _); [destruct (PrimFloat.get_sign a)|destruct (a <? b)]; assumption.
Qed.
Lemma Math_min_cases (a b : float) :
  PrimFloat.is_nan a = false -> PrimFloat.is_nan b = false ->
  JS.Math_min a b = a \/ JS.Math_min a b = b.
Proof.
  intros Ha Hb. unfold JS.Math_min, JS.isNaN. rewrite Ha, Hb. simpl orb. cbv iota.
  destruct (_ && _); [destruct (PrimFloat.get_sign a)|destruct (a <? b)%float]; tauto.
Qed.
End MinMaxFacts.

Module WindowFacts.
Import FrameMonitor.

Lemma window_push (xs : list float) (x : float) :
  let w := skipn (List.length xs - 60) xs in
  (if (60 <? List.length (w ++ [x]))%nat then tl (w ++ [x]) else w ++ [x])
  = skipn (List.length (xs ++ [x]) - 60) (xs ++ [x]).
Proof.
  cbv zeta. rewrite !length_app, length_skipn. simpl List.length.
  destruct (Nat.ltb_spec 60 (List.length xs - (List.length xs - 60) + 1)) as [H|H].
  - assert (Hlen : (60 <= List.length xs)%nat) by lia.
    replace (List.length xs + 1 - 60)%nat with (S (List.length xs - 60)) by lia.
    rewrite skipn_app.
    replace (S (List.length xs - 60) - List.length xs)%nat with 0%nat by lia.
    simpl (skipn 0 [x]).
    remember (List.length xs - 60)%nat as n eqn:Hn.
    assert (Hlt : (n < List.length xs)%nat) by lia.
    clear - Hlt. revert n Hlt.
    induction xs as [|y ys IH]; intros n Hlt; simpl in Hlt; [lia|].
    destruct n as [|n].
    + simpl. reflexivity.
    + change (skipn (S n) (y :: ys)) with (skipn n ys).
      change (skipn (S (S n)) (y :: ys)) with (skipn (S n) ys).
      apply IH. lia.
  - replace (List.length xs - 60)%nat with 0%nat by lia.
    replace (List.length xs + 1 - 60)%nat with 0%nat by lia.
    reflexivity.
Qed.

Lemma frame_renderTimes (m : Monitor) (f : float * float * float) :
  renderTimes (timing (frame m f))
  = let pushed := renderTimes (timing m) ++ [frameTimeOf f] in
    if (60 <? List.length pushed)%nat then tl pushed else pushed.
Proof. destruct f as [[s e1] e2]. reflexivity. Qed.

Lemma frames_window (fs : list (float * float * float)) :
  forall (m : Monitor) (xs : list float),
    renderTimes (timing m) = skipn (List.length xs - 60) xs ->
    renderTimes (timing (frames m fs))
    = skipn (List.length (xs ++ map frameTimeOf fs) - 60) (xs ++ map frameTimeOf fs).
Proof.
  induction fs as [|f fs IH]; intros m xs H.
  - simpl. rewrite app_nil_r. exact H.
  - change (frames m (f :: fs)) with (frames (frame m f) fs).
    simpl map.
    replace (xs ++ frameTimeOf f :: map frameTimeOf fs)
      with ((xs ++ [frameTimeOf f]) ++ map frameTimeOf fs)
      by (rewrite <- app_assoc; reflexivity).
    apply IH. rewrite frame_renderTimes. cbv zeta. rewrite H.
    apply window_push.
Qed.

Lemma frame_lodConfig (m : Monitor) (f : float * float * float) :
  PerformanceMonitor.lodConfig (core (frame m f))
  = PerformanceMonitor.lodConfig (core m).
Proof. destruct f as [[s e1] e2]. reflexivity. Qed.

Lemma frames_lodConfig (fs : list (float * float * float)) (m : Monitor) :
  PerformanceMonitor.lodConfig (core (frames m fs))
  = PerformanceMonitor.lodConfig (core m).
Proof.
  revert m. induction fs as [|f fs IH]; intros m; [reflexivity|].
  change (frames m (f :: fs)) with (frames (frame m f) fs).
  rewrite IH. apply frame_lodConfig.
Qed.

Lemma frame_mean (m : Monitor) (f : float * float * float) :
  frameTime (PerformanceMonitor.metrics (core (frame m f)))
  = (sum (renderTimes (timing (frame m f)))
     / JS.float_of_nat (List.length (renderTimes (timing (frame m f)))))%float.
Proof. destruct f as [[s e1] e2]. reflexivity. Qed.

Lemma frames_snoc (m : Monitor) (fs : list (float * float * float))
      (f : float * float * float) :
  frames m (fs ++ [f]) = frame (frames m fs) f.
Proof. unfold frames. rewrite fold_left_app. reflexivity. Qed.
End WindowFacts.

(** X10.  The monitor keeps a sliding window of render times: after any
    sequence of frames following [reset()], [renderTimes] holds the times of
    the latest 60 frames, oldest first, and all of them while fewer than 60
    were rendered; the reported mean frame time is the mean over that
    window, and the LOD configuration is untouched. *)
Theorem render_times_hold_the_latest_60_frames
        (m : FrameMonitor.Monitor) (now : float)
        (fs : list (float * float * float)) :
  let m' := FrameMonitor.frames (FrameMonitor.reset m now) fs in
  let window := FrameMonitor.renderTimes (FrameMonitor.timing m') in
  window = skipn (List.length fs - 60) (map FrameMonitor.frameTimeOf fs)
  /\ List.length window = Nat.min (List.length fs) 60
  /\ (fs <> [] ->
      frameTime (PerformanceMonitor.metrics (FrameMonitor.core m'))
      = (FrameMonitor.sum window / JS.float_of_nat (List.length window))%float)
  /\ PerformanceMonitor.lodConfig (FrameMonitor.core m')
     = PerformanceMonitor.lodConfig (FrameMonitor.core m).
Proof.
  cbv zeta.
  assert (W : FrameMonitor.renderTimes
                (FrameMonitor.timing
                   (FrameMonitor.frames (FrameMonitor.reset m now) fs))
              = skipn (List.length fs - 60) (map FrameMonitor.frameTimeOf fs)).
  { pose proof (WindowFacts.frames_window fs (FrameMonitor.reset m now) []
                  eq_refl) as H.
    simpl app in H. rewrite length_map in H. exact H. }
  split; [exact W|]. split; [|split].
  - rewrite W, length_skipn, length_map. lia.
  - intros Hne. destruct (exists_last Hne) as [fs' [f ->]].
    rewrite WindowFacts.frames_snoc. apply WindowFacts.frame_mean.
  - rewrite WindowFacts.frames_lodConfig. reflexivity.
Qed.

Module TierFacts.
Import PerformanceMonitor.

Lemma getRecommendedLOD_index (st : State) (zoom : float) :
  qualitySettings (lodConfig st) <> [] ->
  (0 <= getRecommendedLOD st zoom
   <= Z.of_nat (List.length (qualitySettings (lodConfig st))) - 1)%Z.
Proof.
  intros Hne. unfold getRecommendedLOD.
  pose proof (baseLOD_for_bounds (zoomThresholds (lodConfig st)) zoom 0 0
                ltac:(lia)) as Hb.
  fold (baseLOD st zoom) in Hb.
  set (base := baseLOD st zoom) in *.
  set (tiers := qualitySettings (lodConfig st)) in *.
  assert (Hq : (1 <= Z.of_nat (List.length tiers))%Z).
  { destruct tiers; [congruence|simpl; lia]. }
  cbv zeta.
  destruct (negb (isPerformanceAcceptable st)
            && (base <? Z.of_nat (List.length tiers) - 1)%Z); [lia|].
  destruct (PrimFloat.ltb 65 (fps (metrics st)) && (0 <? base)%Z) eqn:E; [|lia].
  apply andb_true_iff in E. destruct E as [_ E]. apply Z.ltb_lt in E. lia.
Qed.
End TierFacts.

(** X11.  The level [getRecommendedLOD] returns always selects a tier: when
    the tier list is not empty, [getQualitySettings] of that level is an
    entry of the list, for every zoom and every metrics; a level past the
    end selects the last tier, a negative level none. *)
Theorem getQualitySettings_defined_on_recommended_level
        (st : PerformanceMonitor.State) (zoom : float) :
  qualitySettings (PerformanceMonitor.lodConfig st) <> [] ->
  (exists q,
      FrameMonitor.getQualitySettings st (PerformanceMonitor.getRecommendedLOD st zoom)
      = Some q
      /\ In q (qualitySettings (PerformanceMonitor.lodConfig st)))
  /\ (forall lodLevel,
         (Z.of_nat (List.length (qualitySettings (PerformanceMonitor.lodConfig st)))
          <= lodLevel)%Z ->
         FrameMonitor.getQualitySettings st lodLevel
         = Some (last (qualitySettings (PerformanceMonitor.lodConfig st))
                      {| q_maxIterations := 0; q_samplesPerPixel := 0;
                         q_precision := EmptyString |}))
  /\ (forall lodLevel, (lodLevel < 0)%Z ->
                       FrameMonitor.getQualitySettings st lodLevel = None).
Proof.
  intros Hne.
  pose proof (TierFacts.getRecommendedLOD_index st zoom Hne) as Hb.
  unfold FrameMonitor.getQualitySettings. cbv zeta.
  set (tiers := qualitySettings (PerformanceMonitor.lodConfig st)) in *.
  split; [|split].
  - set (k := PerformanceMonitor.getRecommendedLOD st zoom) in *.
    destruct (Z.ltb_spec (Z.min k (Z.of_nat (List.length tiers) - 1)) 0) as [H|H];
      [lia|].
    destruct (nth_error tiers (Z.to_nat (Z.min k (Z.of_nat (List.length tiers) - 1))))
      as [q|] eqn:E.
    + exists q. split; [reflexivity|]. apply nth_error_In in E. exact E.
    + apply nth_error_None in E. lia.
  - intros lodLevel Hl.
    assert (Hq : (1 <= List.length tiers)%nat).
    { destruct tiers; [congruence|simpl; lia]. }
    replace (Z.min lodLevel (Z.of_nat (List.length tiers) - 1))
      with (Z.of_nat (List.length tiers - 1)) by lia.
    destruct (Z.ltb_spec (Z.of_nat (List.length tiers - 1)) 0) as [H|H]; [lia|].
    rewrite Nat2Z.id.
    destruct (exists_last Hne) as [init [l E]]. rewrite E.
    rewrite length_app. simpl List.length.
    replace (List.length init + 1 - 1)%nat with (List.length init) by lia.
    rewrite nth_error_app2 by lia. rewrite Nat.sub_diag. simpl.
    rewrite last_last. reflexivity.
  - intros lodLevel Hl.
    destruct (Z.ltb_spec (Z.min lodLevel (Z.of_nat (List.length tiers) - 1)) 0)
      as [H|H]; [reflexivity|lia].
Qed.

Lemma getQualitySettings_defined_on_recommended_level_witness :
  (exists q,
      FrameMonitor.getQualitySettings Inputs.idleMonitor
        (PerformanceMonitor.getRecommendedLOD Inputs.idleMonitor 5000) = Some q
      /\ In q (qualitySettings (PerformanceMonitor.lodConfig Inputs.idleMonitor)))
  /\ (forall lodLevel,
         (Z.of_nat (List.length
                      (qualitySettings (PerformanceMonitor.lodConfig Inputs.idleMonitor)))
          <= lodLevel)%Z ->
         FrameMonitor.getQualitySettings Inputs.idleMonitor lodLevel
         = Some (last (qualitySettings (PerformanceMonitor.lodConfig Inputs.idleMonitor))
                      {| q_maxIterations := 0; q_samplesPerPixel := 0;
                         q_precision := EmptyString |}))
  /\ (forall lodLevel, (lodLevel < 0)%Z ->
                       FrameMonitor.getQualitySettings Inputs.idleMonitor lodLevel = None).
Proof.
  apply (getQualitySettings_defined_on_recommended_level Inputs.idleMonitor 5000).
  simpl. discriminate.
Defined.

(** X12.  Adaptive quality never raises the iteration budget.  With at
    least four tiers and numbers for the requested budget and the tiers'
    budgets, [getAdaptiveQuality] picks tier 0 when the ratio
    [min(1, fps / 60)] is at least 0.95, tier 1 when it is at least 0.8,
    tier 2 when it is at least 0.6 and tier 3 otherwise (also when fps is
    not a number), and returns that tier with its [maxIterations] replaced
    by the smaller of the requested budget and the tier's budget: the
    result is [Math.min] of the two, it is one of the two, and it is above
    neither. *)
Theorem getAdaptiveQuality_never_raises_budget
        (st : PerformanceMonitor.State) (baseIterations : float) :
  (4 <= List.length (qualitySettings (PerformanceMonitor.lodConfig st)))%nat ->
  PrimFloat.is_nan baseIterations = false ->
  (forall t, In t (qualitySettings (PerformanceMonitor.lodConfig st)) ->
             PrimFloat.is_nan (q_maxIterations t) = false) ->
  let ratio := JS.Math_min 1 (fps (PerformanceMonitor.metrics st) / 60)%float in
  let k := if PrimFloat.leb 0.95 ratio then 0%nat
           else if PrimFloat.leb 0.8 ratio then 1%nat
           else if PrimFloat.leb 0.6 ratio then 2%nat
           else 3%nat in
  exists tier q,
    nth_error (qualitySettings (PerformanceMonitor.lodConfig st)) k = Some tier
    /\ FrameMonitor.getAdaptiveQuality st baseIterations = Some q
    /\ q_maxIterations q = JS.Math_min baseIterations (q_maxIterations tier)
    /\ (q_maxIterations q = baseIterations
        \/ q_maxIterations q = q_maxIterations tier)
    /\ PrimFloat.leb (q_maxIterations q) baseIterations = true
    /\ PrimFloat.leb (q_maxIterations q) (q_maxIterations tier) = true
    /\ q_samplesPerPixel q = q_samplesPerPixel tier
    /\ q_precision q = q_precision tier.
Proof.
  intros Hlen Hb Ht. unfold FrameMonitor.getAdaptiveQuality. cbv zeta.
  destruct (qualitySettings (PerformanceMonitor.lodConfig st))
    as [|t0 [|t1 [|t2 [|t3 rest]]]]; simpl in Hlen; try lia.
  assert (H0 := Ht t0 ltac:(simpl; tauto)).
  assert (H1 := Ht t1 ltac:(simpl; tauto)).
  assert (H2 := Ht t2 ltac:(simpl; tauto)).
  assert (H3 := Ht t3 ltac:(simpl; tauto)).
  set (ratio := JS.Math_min 1 _).
  destruct (PrimFloat.leb 0.95 ratio);
    [exists t0|destruct (PrimFloat.leb 0.8 ratio);
               [exists t1|destruct (PrimFloat.leb 0.6 ratio); [exists t2|exists t3]]];
    eexists; (split; [reflexivity|]); (split; [reflexivity|]);
    cbn [q_maxIterations q_samplesPerPixel q_precision];
    (split; [reflexivity|]);
    (split; [apply MinMaxFacts.Math_min_cases; assumption|]);
    (split; [apply MinMaxFacts.Math_min_le; assumption|]);
    (split; [apply MinMaxFacts.Math_min_le; assumption|]);
    split; reflexivity.
Qed.

Lemma getAdaptiveQuality_never_raises_budget_witness :
  exists tier q,
    nth_error (qualitySettings (PerformanceMonitor.lodConfig Inputs.fastMonitor)) 0
    = Some tier
    /\ FrameMonitor.getAdaptiveQuality Inputs.fastMonitor 200 = Some q
    /\ q_maxIterations q = JS.Math_min 200 (q_maxIterations tier)
    /\ (q_maxIterations q = 200%float \/ q_maxIterations q = q_maxIterations tier)
    /\ PrimFloat.leb (q_maxIterations q) 200 = true
    /\ PrimFloat.leb (q_maxIterations q) (q_maxIterations tier) = true
    /\ q_samplesPerPixel q = q_samplesPerPixel tier
    /\ q_precision q = q_precision tier.
Proof.
  apply (getAdaptiveQuality_never_raises_budget Inputs.fastMonitor 200).
  - simpl. lia.
  - reflexivity.
  - simpl. intros t [<-|[<-|[<-|[<-|[]]]]]; reflexivity.
Defined.

Module FpsFacts.
Import FrameMonitor.
Local Open Scope float_scope.

(** A frame whose second clock reading is less than a second after the last
    fps update only counts. *)
Lemma frame_counts (m : Monitor) (f : float * float * float) :
  (1000 <=? snd f - lastFpsUpdate (timing m)) = false ->
  fps (PerformanceMonitor.metrics (core (frame m f)))
  = fps (PerformanceMonitor.metrics (core m))
  /\ frameCount (timing (frame m f)) = S (frameCount (timing m))
  /\ lastFpsUpdate (timing (frame m f)) = lastFpsUpdate (timing m).
Proof.
  destruct f as [[s e1] e2]. simpl snd. intros H.
  unfold frame, endFrame, startFrame. cbv zeta.
  cbn [timing core lastFpsUpdate frameCount fps PerformanceMonitor.metrics].
  rewrite H. repeat split.
Qed.

Lemma frames_count (fs : list (float * float * float)) :
  forall m : Monitor,
    (forall f, In f fs -> (1000 <=? snd f - lastFpsUpdate (timing m)) = false) ->
    fps (PerformanceMonitor.metrics (core (frames m fs)))
    = fps (PerformanceMonitor.metrics (core m))
    /\ frameCount (timing (frames m fs)) = (frameCount (timing m) + List.length fs)%nat
    /\ lastFpsUpdate (timing (frames m fs)) = lastFpsUpdate (timing m).
Proof.
  induction fs as [|f fs IH]; intros m H.
  - simpl. repeat split. lia.
  - change (frames m (f :: fs)) with (frames (frame m f) fs).
    destruct (frame_counts m f (H f (or_introl eq_refl))) as [F1 [F2 F3]].
    destruct (IH (frame m f)) as [G1 [G2 G3]].
    { intros g Hg. rewrite F3. apply H. right. exact Hg. }
    rewrite G1, G2, G3, F1, F2, F3. repeat split. simpl. lia.
Qed.
End FpsFacts.

(** X13.  For the first second after [reset()] the monitor reports no frame
    rate: while every frame ends less than 1000 ms after the reset, fps stays
    0 and the frames are only counted; performance is therefore reported as
    not acceptable and the adaptive quality is the fourth tier, whatever the
    render times were. *)
Theorem fps_stays_zero_in_first_second_after_reset
        (m : FrameMonitor.Monitor) (now baseIterations : float)
        (fs : list (float * float * float)) :
  (forall f, In f fs -> PrimFloat.leb 1000 (snd f - now) = false) ->
  let m' := FrameMonitor.frames (FrameMonitor.reset m now) fs in
  fps (PerformanceMonitor.metrics (FrameMonitor.core m')) = 0%float
  /\ FrameMonitor.frameCount (FrameMonitor.timing m') = List.length fs
  /\ PerformanceMonitor.isPerformanceAcceptable (FrameMonitor.core m') = false
  /\ FrameMonitor.getAdaptiveQuality (FrameMonitor.core m') baseIterations
     = match nth_error (qualitySettings
                          (PerformanceMonitor.lodConfig (FrameMonitor.core m))) 3 with
       | Some tier =>
           Some {| q_maxIterations :=
                     JS.Math_min baseIterations (q_maxIterations tier);
                   q_samplesPerPixel := q_samplesPerPixel tier;
                   q_precision := q_precision tier |}
       | None => None
       end.
Proof.
  intros H. cbv zeta.
  destruct (FpsFacts.frames_count fs (FrameMonitor.reset m now) H) as [F1 [F2 _]].
  change (fps (PerformanceMonitor.metrics
                 (FrameMonitor.core (FrameMonitor.reset m now)))) with 0%float in F1.
  split; [exact F1|]. split; [exact F2|]. split.
  - unfold PerformanceMonitor.isPerformanceAcceptable. rewrite F1. reflexivity.
  - unfold FrameMonitor.getAdaptiveQuality. cbv zeta.
    rewrite F1, WindowFacts.frames_lodConfig.
    change (PerformanceMonitor.lodConfig
              (FrameMonitor.core (FrameMonitor.reset m now)))
      with (PerformanceMonitor.lodConfig (FrameMonitor.core m)).
    change (JS.Math_min 1 (0 / 60)) with 0%float.
    change (PrimFloat.leb 0.95 0) with false.
    change (PrimFloat.leb 0.8 0) with false.
    change (PrimFloat.leb 0.6 0) with false.
    cbv iota. reflexivity.
Qed.

Lemma fps_stays_zero_in_first_second_after_reset_witness :
  let m' := FrameMonitor.frames (FrameMonitor.reset idleFrameMonitor 100) threeFrames in
  fps (PerformanceMonitor.metrics (FrameMonitor.core m')) = 0%float
  /\ FrameMonitor.frameCount (FrameMonitor.timing m') = List.length threeFrames
  /\ PerformanceMonitor.isPerformanceAcceptable (FrameMonitor.core m') = false
  /\ FrameMonitor.getAdaptiveQuality (FrameMonitor.core m') 200
     = match nth_error (qualitySettings
                          (PerformanceMonitor.lodConfig
                             (FrameMonitor.core idleFrameMonitor))) 3 with
       | Some tier =>
           Some {| q_maxIterations := JS.Math_min 200 (q_maxIterations tier);
                   q_samplesPerPixel := q_samplesPerPixel tier;
                   q_precision := q_precision tier |}
       | None => None
       end.
Proof.
  apply (fps_stays_zero_in_first_second_after_reset idleFrameMonitor 100 200
           threeFrames).
  intros f [<-|[<-|[<-|[]]]]; reflexivity.
Defined.

(* ================================================================== *)
(** * Colours: printing and parsing *)

Module ColorFacts.
Import ColorPalettes.
Local Open Scope Z_scope.

Lemma hex_char_roundtrip (d : Z) :
  0 <= d < 16 ->
  hex_digit_value (hex_char d) = Some d /\ lowerHexDigit (hex_char d) = true.
Proof.
  intros H.
  assert (E : d = 0 \/ d = 1 \/ d = 2 \/ d = 3 \/ d = 4 \/ d = 5 \/ d = 6 \/ d = 7
              \/ d = 8 \/ d = 9 \/ d = 10 \/ d = 11 \/ d = 12 \/ d = 13 \/ d = 14
              \/ d = 15) by lia.
  repeat (destruct E as [->|E]; [split; reflexivity|]). subst d. split; reflexivity.
Qed.

(** What [rgbToHex] prints for three channels. *)
Lemma rgbToHex_channels (r g b : Z) :
  channel r -> channel g -> channel b ->
  rgbToHex r g b
  = String "#"
      (String (hex_char (r / 16)) (String (hex_char (r mod 16))
        (String (hex_char (g / 16)) (String (hex_char (g mod 16))
          (String (hex_char (b / 16)) (String (hex_char (b mod 16))
            EmptyString)))))).
Proof.
  unfold channel. intros Hr Hg Hb.
  rewrite (Z.div_mod r 16) at 1 by lia.
  rewrite (Z.div_mod g 16) at 1 by lia.
  rewrite (Z.div_mod b 16) at 1 by lia.
  apply GradientFacts.rgbToHex_nibbles;
    try (apply Z.mod_pos_bound; lia);
    (split; [apply Z.div_pos; lia|apply Z.div_lt_upper_bound; lia]).
Qed.

Lemma hexToRgb_rgbToHex (r g b : Z) :
  channel r -> channel g -> channel b ->
  hexToRgb (rgbToHex r g b) = Some (r, g, b)
  /\ lowercaseHexColor (rgbToHex r g b) = true.
Proof.
  intros Hr Hg Hb. rewrite (rgbToHex_channels r g b Hr Hg Hb).
  unfold channel in *.
  assert (D : forall v, 0 <= v <= 255 -> 0 <= v / 16 < 16 /\ 0 <= v mod 16 < 16).
  { intros v Hv. split; [split; [apply Z.div_pos; lia|apply Z.div_lt_upper_bound; lia]
                        |apply Z.mod_pos_bound; lia]. }
  destruct (D r Hr) as [R1 R2], (D g Hg) as [G1 G2], (D b Hb) as [B1 B2].
  destruct (hex_char_roundtrip _ R1) as [r1 r1'], (hex_char_roundtrip _ R2) as [r2 r2'].
  destruct (hex_char_roundtrip _ G1) as [g1 g1'], (hex_char_roundtrip _ G2) as [g2 g2'].
  destruct (hex_char_roundtrip _ B1) as [b1 b1'], (hex_char_roundtrip _ B2) as [b2 b2'].
  split.
  - unfold hexToRgb, match_groups, parseInt16.
    rewrite r1, r2, g1, g2, b1, b2.
    rewrite <- !Z.div_mod by lia. reflexivity.
  - unfold lowercaseHexColor. rewrite r1', r2', g1', g2', b1', b2'. reflexivity.
Qed.

Lemma parseInt16_channel (a b : ascii) (v : Z) :
  parseInt16 a b = Some v -> channel v.
Proof.
  unfold parseInt16, channel.
  destruct (hex_digit_value a) as [x|] eqn:Ea; [|discriminate].
  destruct (hex_digit_value b) as [y|] eqn:Eb; [|discriminate].
  intros H. assert (Hv : v = 16 * x + y) by congruence.
  apply GradientFacts.hex_digit_value_range in Ea.
  apply GradientFacts.hex_digit_value_range in Eb. lia.
Qed.

Lemma match_groups_channels (s : string) (r g b : Z) :
  match_groups s = Some (r, g, b) -> channel r /\ channel g /\ channel b.
Proof.
  unfold match_groups.
  destruct s as [|c1 [|c2 [|c3 [|c4 [|c5 [|c6 [|c7 rest]]]]]]]; try discriminate.
  destruct (parseInt16 c1 c2) as [x|] eqn:E1; [|discriminate].
  destruct (parseInt16 c3 c4) as [y|] eqn:E2; [|discriminate].
  destruct (parseInt16 c5 c6) as [z|] eqn:E3; [|discriminate].
  intros H. injection H as <- <- <-.
  repeat split; eapply parseInt16_channel; eassumption.
Qed.

(** Every colour [hexToRgb] returns has three channels. *)
Lemma hexToRgb_channels (hex : string) (r g b : Z) :
  hexToRgb hex = Some (r, g, b) -> channel r /\ channel g /\ channel b.
Proof.
  unfold hexToRgb. destruct hex as [|c rest].
  - apply match_groups_channels.
  - destruct c as [[] [] [] [] [] [] [] []]; apply match_groups_channels.
Qed.
End ColorFacts.

(** X14.  Printing a colour and parsing it back returns its channels: for
    channels from 0 to 255, [hexToRgb(rgbToHex(r, g, b))] is [r, g, b], and
    what [rgbToHex] prints is [#] followed by six lower-case hexadecimal
    digits. *)
Theorem hexToRgb_inverts_rgbToHex (r g b : Z) :
  channel r -> channel g -> channel b ->
  ColorPalettes.hexToRgb (ColorPalettes.rgbToHex r g b) = Some (r, g, b)
  /\ lowercaseHexColor (ColorPalettes.rgbToHex r g b) = true.
Proof. apply ColorFacts.hexToRgb_rgbToHex. Qed.

Lemma hexToRgb_inverts_rgbToHex_witness :
  ColorPalettes.hexToRgb (ColorPalettes.rgbToHex 253 231 37) = Some (253, 231, 37)%Z
  /\ lowercaseHexColor (ColorPalettes.rgbToHex 253 231 37) = true.
Proof.
  apply (hexToRgb_inverts_rgbToHex 253 231 37); unfold channel; lia.
Defined.

(* ================================================================== *)
(** * The palette texture *)

Module TextureFacts.
Import ColorPalettes Palettes.

Lemma length_store (data : list Z) (k : nat) (v : Z) :
  List.length (store data k v) = List.length data.
Proof.
  revert k. induction data as [|x rest IH]; intros k; [reflexivity|].
  destruct k as [|k]; simpl; [reflexivity|]. rewrite IH. reflexivity.
Qed.

Lemma nth_store (data : list Z) (k j : nat) (v : Z) :
  nth j (store data k v) 0%Z
  = if (j =? k)%nat && (k <? List.length data)%nat then (v mod 256)%Z
    else nth j data 0%Z.
Proof.
  revert k j. induction data as [|x rest IH]; intros k j.
  - simpl. rewrite andb_false_r. reflexivity.
  - destruct k as [|k], j as [|j]; simpl; try reflexivity.
    rewrite IH. reflexivity.
Qed.

Lemma texel_eq (a b c d a' b' c' d' : Z) :
  a = a' -> b = b' -> c = c' -> d = d' -> (a, b, c, d) = (a', b', c', d').
Proof. intros -> -> -> ->. reflexivity. Qed.

Lemma inv_start (gradientColors : list string) (resolution : nat) :
  textureLoopInv gradientColors resolution 0 (repeat 0%Z (resolution * 4)).
Proof.
  split; [apply repeat_length|]. split; [intros i Hi; lia|].
  intros j _. destruct (Nat.lt_ge_cases j (resolution * 4)) as [H|H].
  - apply nth_repeat_lt. exact H.
  - apply nth_overflow. rewrite repeat_length. exact H.
Qed.

Ltac read_stores :=
  rewrite ?nth_store, ?length_store;
  repeat match goal with
         | |- context [(?a =? ?b)%nat] => destruct (Nat.eqb_spec a b); try lia
         | |- context [(?a <? ?b)%nat] => destruct (Nat.ltb_spec a b); try lia
         end;
  simpl andb; cbv iota.

Lemma inv_step (gradientColors : list string) (resolution k : nat) (data : list Z) :
  (k < resolution)%nat ->
  textureLoopInv gradientColors resolution k data ->
  textureLoopInv gradientColors resolution (S k) (writeTexel gradientColors data k).
Proof.
  intros Hk [Hlen [Hdone Hrest]]. unfold writeTexel, textureLoopInv.
  destruct (texelColor gradientColors k) as [[[r g] b]|] eqn:E.
  - cbv zeta. split; [rewrite !length_store; exact Hlen|]. split.
    + intros i Hi. destruct (Nat.eq_dec i k) as [->|Hne].
      * unfold writtenTexel. rewrite E. unfold texelColor in E.
        destruct (nth_error gradientColors k) as [hex|]; [|discriminate].
        apply ColorFacts.hexToRgb_channels in E. unfold channel in E.
        destruct E as [Hr [Hg Hb]].
        unfold texel. apply texel_eq; read_stores;
          try reflexivity; apply Z.mod_small; lia.
      * rewrite <- (Hdone i ltac:(lia)). unfold texel.
        apply texel_eq; read_stores; reflexivity.
    + intros j Hj. read_stores. apply Hrest. lia.
  - split; [exact Hlen|]. split.
    + intros i Hi. destruct (Nat.eq_dec i k) as [->|Hne].
      * unfold writtenTexel. rewrite E. unfold texel.
        rewrite !Hrest by lia. reflexivity.
      * apply Hdone. lia.
    + intros j Hj. apply Hrest. lia.
Qed.

Lemma inv_loop (gradientColors : list string) (resolution k : nat) :
  (k <= resolution)%nat ->
  textureLoopInv gradientColors resolution k
      (fold_left (writeTexel gradientColors) (seq 0 k)
                 (repeat 0%Z (resolution * 4))).
Proof.
  induction k as [|k IH]; intros Hk.
  - apply inv_start.
  - rewrite seq_S, fold_left_app. simpl fold_left.
    apply inv_step; [lia|]. apply IH. lia.
Qed.

Lemma loop_texels (gradientColors : list string) (resolution i : nat) :
  (i < resolution)%nat ->
  texel (textureLoop gradientColors resolution) i = writtenTexel gradientColors i.
Proof.
  intros Hi. unfold textureLoop. cbv zeta.
  destruct (inv_loop gradientColors resolution resolution (le_n _)) as [_ [H _]].
  apply H. exact Hi.
Qed.

Lemma loop_length (gradientColors : list string) (resolution : nat) :
  List.length (textureLoop gradientColors resolution) = (resolution * 4)%nat.
Proof.
  unfold textureLoop. cbv zeta.
  destruct (inv_loop gradientColors resolution resolution (le_n _)) as [H _].
  exact H.
Qed.

Lemma texels (palette : ColorPalette) (resolution i : nat) :
  (i < resolution)%nat ->
  texel (paletteTextureData palette resolution) i
  = writtenTexel (generateSmoothGradient (cp_colors palette) resolution) i.
Proof. intros Hi. unfold paletteTextureData. cbv zeta. apply loop_texels. exact Hi. Qed.

(** What the loop writes are bytes: channels, and an alpha of 255 or 0. *)
Lemma writtenTexel_bytes (gradientColors : list string) (i : nat) :
  let '(r, g, b, a) := writtenTexel gradientColors i in
  channel r /\ channel g /\ channel b /\ (a = 255%Z \/ a = 0%Z).
Proof.
  unfold writtenTexel, texelColor.
  destruct (nth_error gradientColors i) as [hex|].
  - destruct (hexToRgb hex) as [[[r g] b]|] eqn:E.
    + destruct (ColorFacts.hexToRgb_channels hex r g b E) as [Hr [Hg Hb]].
      refine (conj Hr (conj Hg (conj Hb _))). left. reflexivity.
    + unfold channel. lia.
  - unfold channel. lia.
Qed.
End TextureFacts.

(** X17.  The loop of [createPaletteTexture] that fills the byte array,
    for any list of gradient colours: the array holds four bytes per texel;
    texel [i] is the colour [hexToRgb] reads from entry [i] of the list
    with alpha 255, or four zeros when the list has no entry [i] or the
    entry does not parse; its bytes are channels; and an entry that
    [rgbToHex] printed from channels [r], [g], [b] gives back the texel
    [(r, g, b, 255)]. *)
Theorem texture_loop_writes_parsed_entries
        (gradientColors : list string) (resolution i : nat) :
  (i < resolution)%nat ->
  let data := Palettes.textureLoop gradientColors resolution in
  List.length data = (resolution * 4)%nat
  /\ texel data i
     = match nth_error gradientColors i with
       | Some hex =>
           match ColorPalettes.hexToRgb hex with
           | Some (r, g, b) => (r, g, b, 255%Z)
           | None => (0, 0, 0, 0)%Z
           end
       | None => (0, 0, 0, 0)%Z
       end
  /\ (let '(r, g, b, a) := texel data i in
      channel r /\ channel g /\ channel b /\ (a = 255%Z \/ a = 0%Z))
  /\ (forall r g b : Z,
         channel r -> channel g -> channel b ->
         nth_error gradientColors i = Some (ColorPalettes.rgbToHex r g b) ->
         texel data i = (r, g, b, 255%Z)).
Proof.
  intros Hi. cbv zeta.
  split; [apply TextureFacts.loop_length|].
  rewrite (TextureFacts.loop_texels gradientColors resolution i Hi).
  split; [|split].
  - unfold writtenTexel, Palettes.texelColor.
    destruct (nth_error gradientColors i); reflexivity.
  - apply TextureFacts.writtenTexel_bytes.
  - intros r g b Hr Hg Hb E. unfold writtenTexel, Palettes.texelColor.
    rewrite E.
    destruct (ColorFacts.hexToRgb_rgbToHex r g b Hr Hg Hb) as [-> _]. reflexivity.
Qed.

Lemma texture_loop_writes_parsed_entries_witness :
  let data := Palettes.textureLoop rgbStops 4 in
  List.length data = (4 * 4)%nat
  /\ texel data 2
     = match nth_error rgbStops 2 with
       | Some hex =>
           match ColorPalettes.hexToRgb hex with
           | Some (r, g, b) => (r, g, b, 255%Z)
           | None => (0, 0, 0, 0)%Z
           end
       | None => (0, 0, 0, 0)%Z
       end
  /\ (let '(r, g, b, a) := texel data 2 in
      channel r /\ channel g /\ channel b /\ (a = 255%Z \/ a = 0%Z))
  /\ (forall r g b : Z,
         channel r -> channel g -> channel b ->
         nth_error rgbStops 2 = Some (ColorPalettes.rgbToHex r g b) ->
         texel data 2 = (r, g, b, 255%Z)).
Proof.
  apply (texture_loop_writes_parsed_entries rgbStops 4 2). lia.
Defined.

(** X18.  A palette of fewer than two colours leaves the texture almost
    empty: the gradient is the colour list itself, so a single colour fills
    texel 0 only (when it parses) and every other texel stays transparent
    black; an empty palette leaves all of them so. *)
Theorem degenerate_palette_leaves_texture_blank
        (palette : ColorPalette) (resolution i : nat) :
  (List.length (cp_colors palette) < 2)%nat ->
  (i < resolution)%nat ->
  texel (Palettes.paletteTextureData palette resolution) i
  = match i, cp_colors palette with
    | O, [c] => match ColorPalettes.hexToRgb c with
                | Some (r, g, b) => (r, g, b, 255%Z)
                | None => (0, 0, 0, 0)%Z
                end
    | _, _ => (0, 0, 0, 0)%Z
    end.
Proof.
  intros Hlen Hi. rewrite (TextureFacts.texels palette resolution i Hi).
  unfold writtenTexel, Palettes.texelColor,
    ColorPalettes.generateSmoothGradient.
  destruct (cp_colors palette) as [|c [|c' rest]]; simpl in Hlen; try lia.
  - simpl. destruct i; reflexivity.
  - simpl. destruct i as [|i]; simpl; [reflexivity|]. destruct i; reflexivity.
Qed.

Lemma degenerate_palette_leaves_texture_blank_witness :
  texel (Palettes.paletteTextureData singleColorPalette 4) 0 = (51, 102, 153, 255)%Z.
Proof.
  apply (degenerate_palette_leaves_texture_blank singleColorPalette 4 0).
  - simpl. lia.
  - lia.
Defined.

Module PaletteTableFacts.
Import ColorPalettes Palettes.

Lemma parses_all (colors : list string) :
  forallb parsesAsColor colors = true -> forall c, In c colors -> hexToRgb c <> None.
Proof.
  intros H c Hc. rewrite forallb_forall in H. specialize (H c Hc).
  unfold parsesAsColor in H. destruct (hexToRgb c); [discriminate|discriminate H].
Qed.

(** Every palette of the table has two or more colours, and all parse. *)
Lemma table_colors :
  forallb (fun p => (2 <=? List.length (cp_colors p))%nat
                    && forallb parsesAsColor (cp_colors p)) colorPalettes = true.
Proof. vm_compute. reflexivity. Qed.

Lemma find_by_id (table : list ColorPalette) (id : string) :
  match find (fun palette => String.eqb (cp_id palette) id) table with
  | Some p => In p table /\ cp_id p = id /\ In id (map cp_id table)
  | None => ~ In id (map cp_id table)
  end.
Proof.
  induction table as [|q table IH]; simpl; [tauto|].
  destruct (String.eqb_spec (cp_id q) id) as [E|E].
  - repeat split; tauto.
  - destruct (find _ table) as [p|].
    + destruct IH as [H1 [H2 H3]]. repeat split; tauto.
    + intros [H|H]; [contradiction|apply IH; exact H].
Qed.

Lemma isHexDigit_value (c : ascii) :
  isHexDigit c = true -> hex_digit_value c <> None.
Proof.
  unfold isHexDigit, hex_digit_value.
  destruct ((48 <=? code c)%Z && (code c <=? 57)%Z); [discriminate|].
  destruct ((97 <=? code c)%Z && (code c <=? 102)%Z); [discriminate|].
  destruct ((65 <=? code c)%Z && (code c <=? 70)%Z); [discriminate|].
  simpl. discriminate.
Qed.

(** What the filter of [createCustomPalette] keeps, [hexToRgb] parses. *)
Lemma testHexColor_parses (color : string) :
  testHexColor color = true -> hexToRgb color <> None.
Proof.
  unfold testHexColor.
  destruct color as [|h [|a [|b [|c [|d [|e [|f [|x rest]]]]]]]];
    try discriminate;
    try (destruct h as [[] [] [] [] [] [] [] []]; discriminate).
  destruct h as [[] [] [] [] [] [] [] []]; try discriminate.
  intros H. repeat (apply andb_true_iff in H; destruct H as [H ?]).
  unfold hexToRgb, match_groups, parseInt16.
  repeat match goal with
         | Hd : isHexDigit ?ch = true |- _ =>
             apply isHexDigit_value in Hd;
             destruct (hex_digit_value ch); [clear Hd|congruence]
         end.
  discriminate.
Qed.

Lemma slug_chars (name : string) :
  String.length (map_string replace_char (map_string toLowerCase_char name))
  = String.length name
  /\ forall_chars slugChar
       (map_string replace_char (map_string toLowerCase_char name)) = true.
Proof.
  induction name as [|c rest [IH1 IH2]]; [split; reflexivity|].
  simpl. split; [rewrite IH1; reflexivity|]. rewrite IH2, andb_true_r.
  unfold replace_char, slugChar.
  destruct ((97 <=? code (toLowerCase_char c))%Z
            && (code (toLowerCase_char c) <=? 122)%Z) eqn:E1; simpl.
  - rewrite E1. reflexivity.
  - destruct ((48 <=? code (toLowerCase_char c))%Z
              && (code (toLowerCase_char c) <=? 57)%Z) eqn:E2.
    + rewrite E1, E2. reflexivity.
    + reflexivity.
Qed.
Lemma ids_distinct : NoDup getColorPaletteIds.
Proof.
  unfold getColorPaletteIds. simpl.
  repeat (constructor; [simpl; intros H;
                        repeat (destruct H as [H|H]; [discriminate H|]);
                        exact H|]).
  constructor.
Qed.
End PaletteTableFacts.

(** X19.  Looking a palette up by id finds exactly the listed ids:
    [getColorPalette(id)] is a palette of the table with that id when the
    id is among [getColorPaletteIds()], and [null] otherwise.
    Every palette it returns has two or more colours, each of which
    [hexToRgb] parses, so its gradient has as many entries as asked for.
    The ten ids are listed without repetition. *)
Theorem builtin_palettes_are_found_by_id (id : string) (resolution : nat) :
  match Palettes.getColorPalette id with
  | Some p =>
      In id Palettes.getColorPaletteIds
      /\ In p Palettes.colorPalettes
      /\ cp_id p = id
      /\ (2 <= List.length (cp_colors p))%nat
      /\ (forall c, In c (cp_colors p) -> ColorPalettes.hexToRgb c <> None)
      /\ List.length (ColorPalettes.generateSmoothGradient (cp_colors p) resolution)
         = resolution
  | None => ~ In id Palettes.getColorPaletteIds
  end
  /\ Palettes.getColorPaletteIds
     = ["viridis"; "plasma"; "inferno"; "magma"; "cividis"; "twilight";
        "ocean"; "fire"; "rainbow"; "electric"]%string
  /\ NoDup Palettes.getColorPaletteIds.
Proof.
  split; [|split; [reflexivity|]].
  - unfold Palettes.getColorPalette, Palettes.getColorPaletteIds.
    pose proof (PaletteTableFacts.find_by_id Palettes.colorPalettes id) as H.
    destruct (find _ Palettes.colorPalettes) as [p|]; [|exact H].
    destruct H as [Hin [Hid Hids]].
    pose proof PaletteTableFacts.table_colors as T.
    rewrite forallb_forall in T. specialize (T p Hin).
    apply andb_true_iff in T. destruct T as [T1 T2].
    apply Nat.leb_le in T1.
    pose proof (PaletteTableFacts.parses_all _ T2) as Hall.
    refine (conj Hids (conj Hin (conj Hid (conj T1 (conj Hall _))))).
    apply GradientFacts.gradient_length; assumption.
  - apply PaletteTableFacts.ids_distinct.
Qed.

(** X20.  A custom palette keeps exactly the colours written as [#] and six
    hexadecimal digits, in their order; each of them parses, so with two or
    more kept colours the gradient has as many entries as asked for.  Its id
    is [custom-] followed by one character among a-z, 0-9 and the dash per
    character of the name, and it is never the id of a palette of the
    table. *)
Theorem createCustomPalette_keeps_parsable_colors
        (name : string) (colors : list string) (type : PaletteType) :
  let p := Palettes.createCustomPalette name colors type in
  cp_colors p = filter Palettes.testHexColor colors
  /\ (forall c, In c (cp_colors p) <-> In c colors /\ Palettes.testHexColor c = true)
  /\ (forall c, In c (cp_colors p) -> ColorPalettes.hexToRgb c <> None)
  /\ (forall N, (2 <= List.length (cp_colors p))%nat ->
                List.length (ColorPalettes.generateSmoothGradient (cp_colors p) N) = N)
  /\ (exists slug,
         cp_id p = ("custom-" ++ slug)%string
         /\ String.length slug = String.length name
         /\ forall_chars slugChar slug = true)
  /\ Palettes.getColorPalette (cp_id p) = None.
Proof.
  cbv zeta. unfold Palettes.createCustomPalette. cbn [cp_colors cp_id].
  assert (Hparse : forall c, In c (filter Palettes.testHexColor colors) ->
                             ColorPalettes.hexToRgb c <> None).
  { intros c Hc. apply filter_In in Hc.
    apply PaletteTableFacts.testHexColor_parses. apply Hc. }
  split; [reflexivity|].
  split; [intros c; apply filter_In|].
  split; [exact Hparse|].
  split; [intros N Hlen; apply GradientFacts.gradient_length; assumption|].
  split.
  - eexists. split; [reflexivity|]. apply PaletteTableFacts.slug_chars.
  - reflexivity.
Qed.

(* ================================================================== *)
(** * The renderer's parameters *)

Module RendererFacts.
Import RendererState.
Local Open Scope float_scope.

Lemma validate_precision_listed (v : option string) :
  JS.includes_string ["lowp"; "mediump"; "highp"]%string (Presets.validate_precision v)
  = true.
Proof.
  destruct v as [s|]; [|reflexivity]. unfold Presets.validate_precision.
  destruct (JS.includes_string ["lowp"; "mediump"; "highp"]%string s) eqn:E;
    [exact E|reflexivity].
Qed.

Lemma validate_colorPalette_nonempty (v : option string) :
  Presets.validate_colorPalette v <> EmptyString.
Proof.
  destruct v as [s|]; [|discriminate]. unfold Presets.validate_colorPalette.
  destruct (String.eqb_spec s EmptyString) as [E|E]; [discriminate|exact E].
Qed.

Lemma validated_discrete (p : PartialFractalParams) :
  discreteParamsValid (Presets.validateFractalParams p).
Proof.
  unfold discreteParamsValid, Presets.validateFractalParams; project_fields.
  split; [|split; [|split; [|split]]].
  - apply ValidatorFacts.includes_string_In. apply validate_fractalType_listed.
  - apply (ValidatorFacts.includes_number_In [2; 4; 8]); [reflexivity|].
    apply validate_escapeRadius_listed.
  - apply (ValidatorFacts.includes_number_In [50; 100; 500; 1000]); [reflexivity|].
    apply validate_maxIterations_listed.
  - apply ValidatorFacts.includes_string_In. apply validate_precision_listed.
  - apply validate_colorPalette_nonempty.
Qed.

Lemma initializeRenderer_discrete (r : Renderer) :
  discreteParamsValid (currentParams r) ->
  discreteParamsValid (currentParams (initializeRenderer r)).
Proof.
  intros H. unfold initializeRenderer.
  destruct (_ && _); [|exact H].
  destruct H as [H1 [H2 [H3 [_ H5]]]].
  unfold discreteParamsValid; cbn [currentParams set_precision fractalType
    escapeRadius maxIterations precision colorPalette].
  refine (conj H1 (conj H2 (conj H3 (conj _ H5)))).
  simpl. tauto.
Qed.

(** After [initializeRenderer] the precision is not ['highp']. *)
Lemma initializeRenderer_precision (r : Renderer) :
  In (precision (currentParams r)) ["lowp"; "mediump"; "highp"]%string ->
  In (precision (currentParams (initializeRenderer r))) ["lowp"; "mediump"]%string.
Proof.
  intros H. unfold initializeRenderer.
  change (String.eqb textureCapabilities_format "uint8") with true.
  cbn [andb].
  destruct (String.eqb_spec (precision (currentParams r)) "highp") as [E|E].
  - simpl. tauto.
  - simpl in H. simpl. destruct H as [H|[H|[H|[]]]]; [tauto|tauto|].
    symmetry in H. contradiction.
Qed.

Lemma call_discrete (r : Renderer) (c : Call) :
  discreteParamsValid (currentParams r) ->
  discreteParamsValid (currentParams (call r c)).
Proof.
  intros H. destruct c as [newParams|width height|factor centerX centerY|dx dy|].
  - apply validated_discrete.
  - exact H.
  - unfold call, zoom.
    destruct centerX as [cx|], centerY as [cy|]; exact H.
  - exact H.
  - apply initializeRenderer_discrete. exact H.
Qed.

Lemma calls_discrete (cs : list Call) (r : Renderer) :
  discreteParamsValid (currentParams r) ->
  discreteParamsValid (currentParams (calls r cs)).
Proof.
  revert r. induction cs as [|c cs IH]; intros r H; [exact H|].
  change (calls r (c :: cs)) with (calls (call r c) cs).
  apply IH. apply call_discrete. exact H.
Qed.



Lemma Math_max_cases (a b : float) :
  PrimFloat.is_nan a = false -> PrimFloat.is_nan b = false ->
  JS.Math_max a b = a \/ JS.Math_max a b = b.
Proof.
  intros Ha Hb. unfold JS.Math_max, JS.isNaN. rewrite Ha, Hb. simpl orb. cbv iota.
  destruct (_ && _); [destruct (PrimFloat.get_sign a)|destruct (a <? b)]; tauto.
Qed.

(** The clamp of the studio followed by the clamp of the validator. *)
Lemma clamp_then_validate (p : float) :
  (0.1 <=? Presets.validate_zoom
             (Some (JS.Math_max 0.001 (JS.Math_min 1000 p)))) = true
  /\ (Presets.validate_zoom
        (Some (JS.Math_max 0.001 (JS.Math_min 1000 p))) <=? 1000) = true.
Proof.
  destruct (PrimFloat.is_nan p) eqn:Hp.
  - assert (E : JS.Math_min 1000 p = nan).
    { unfold JS.Math_min, JS.isNaN. rewrite Hp. reflexivity. }
    rewrite E. split; reflexivity.
  - assert (H1000 : PrimFloat.is_nan 1000 = false) by reflexivity.
    assert (H001 : PrimFloat.is_nan 0.001 = false) by reflexivity.
    pose proof (MinMaxFacts.Math_min_not_nan 1000 p H1000 Hp) as Hm.
    destruct (MinMaxFacts.Math_min_le 1000 p H1000 Hp) as [Hm1000 _].
    set (m := JS.Math_min 1000 p) in *.
    pose proof (MinMaxFacts.Math_max_not_nan 0.001 m H001 Hm) as Hw.
    destruct (MinMaxFacts.Math_max_ge 0.001 m H001 Hm) as [Hlow _].
    assert (Hhigh : (JS.Math_max 0.001 m <=? 1000) = true).
    { destruct (Math_max_cases 0.001 m H001 Hm) as [-> | ->];
        [reflexivity|exact Hm1000]. }
    set (w := JS.Math_max 0.001 m) in *.
    assert (Hpos : (0 <? w) = true).
    { apply (FloatTrans.ltb_leb_trans 0 0.001 w); [reflexivity|exact Hlow]. }
    rewrite (ValidatorFacts.validate_zoom_positive w Hpos).
    destruct (1000000 <? w) eqn:Hbig.
    { pose proof (FloatTrans.ltb_leb_trans _ _ _ Hbig Hhigh) as Habs.
      vm_compute in Habs. discriminate Habs. }
    destruct (0.1 <? w) eqn:H01.
    + split; [apply FloatOrder.ltb_leb; exact H01|exact Hhigh].
    + split; reflexivity.
Qed.
End RendererFacts.

(** X21.  A renderer is constructed with its parameters validated and the
    precision ['highp'] lowered to ['mediump'] by [initializeRenderer].
    Whatever happens to it afterwards ([updateParams], [resize], [zoom],
    [pan] with any arguments, the restoration of a lost context, in any
    order), its fractal type stays a type of the registry, its escape radius
    one of 2, 4, 8, its iteration count one of 50, 100, 500, 1000, its
    precision a shader precision and its palette id not empty; hence a
    worker sample on its parameters always returns.  Right after the
    construction, and right after every restoration of the context, the
    precision is ['lowp'] or ['mediump']. *)
Theorem renderer_keeps_discrete_params_valid
        (initialParams : PartialFractalParams) (canvas_width canvas_height : float)
        (cs : list RendererState.Call) :
  let r0 := RendererState.construct initialParams canvas_width canvas_height in
  let r := RendererState.calls r0 cs in
  discreteParamsValid (RendererState.currentParams r)
  /\ (forall (M : JS.MathLib) (preset : PresetArg) (pixelX pixelY : float),
      exists v, Worker.computeSample M 1001 preset (RendererState.currentParams r)
                  (RendererState.viewport r) pixelX pixelY = Some v)
  /\ In (precision (RendererState.currentParams r0)) ["lowp"; "mediump"]%string
  /\ In (precision (RendererState.currentParams
                      (RendererState.call r RendererState.ContextRestored)))
        ["lowp"; "mediump"]%string
  /\ RendererState.viewport r0
     = {| vp_center := center (Presets.validateFractalParams initialParams);
          vp_zoom := zoom (Presets.validateFractalParams initialParams);
          vp_width := canvas_width;
          vp_height := canvas_height;
          vp_aspectRatio := (canvas_width / canvas_height)%float |}.
Proof.
  cbv zeta.
  assert (H0 : discreteParamsValid
                 (RendererState.currentParams
                    (RendererState.construct initialParams canvas_width
                                             canvas_height))).
  { unfold RendererState.construct. cbv zeta.
    apply RendererFacts.initializeRenderer_discrete.
    apply RendererFacts.validated_discrete. }
  assert (H : discreteParamsValid
                (RendererState.currentParams
                   (RendererState.calls
                      (RendererState.construct initialParams canvas_width
                                               canvas_height) cs))).
  { apply RendererFacts.calls_discrete. exact H0. }
  split; [exact H|].
  split.
  - intros M preset pixelX pixelY.
    destruct H as [_ [_ [HN _]]].
    assert (Hb : PrimFloat.ltb 1000
                   (maxIterations
                      (RendererState.currentParams
                         (RendererState.calls
                            (RendererState.construct initialParams canvas_width
                                                     canvas_height) cs))) = false).
    { simpl in HN. destruct HN as [<-|[<-|[<-|[<-|[]]]]]; reflexivity. }
    unfold Worker.computeSample, Worker.sampleIteration.
    destruct (String.eqb _ "mandelbrot");
      [apply DriverFacts.mandelbrot_returns; [exact Hb|apply le_n]|].
    destruct (String.eqb _ "julia").
    { destruct (juliaConstant _); [|eexists; reflexivity].
      apply DriverFacts.julia_returns; [exact Hb|apply le_n]. }
    destruct (String.eqb _ "burning-ship");
      [apply DriverFacts.burningShip_returns; [exact Hb|apply le_n]|].
    destruct (String.eqb _ "lyapunov");
      [apply DriverFacts.lyapunov_returns; [exact Hb|apply le_n]|].
    eexists. reflexivity.
  - split; [|split].
    + unfold RendererState.construct. cbv zeta.
      apply RendererFacts.initializeRenderer_precision.
      pose proof (RendererFacts.validated_discrete initialParams) as V.
      apply V.
    + cbn [RendererState.call].
      apply RendererFacts.initializeRenderer_precision. apply H.
    + unfold RendererState.construct, RendererState.initializeRenderer. cbv zeta.
      destruct (_ && _); reflexivity.
Qed.


(** X23.  The zoom the studio stores on a wheel or pinch event reaches the
    renderer within [0.1, 1000]: the handlers clamp it to [0.001, 1000],
    the validator behind [updateParams] raises it to 0.1 at least, and a NaN
    becomes the default 4.  This holds for every previous zoom and every
    event. *)
Theorem wheel_zoom_reaches_renderer_within_bounds
        (viewport_zoom deltaY distance lastZoomDistance : float) :
  let wheel := Presets.validate_zoom (Some (Studio.handleWheel viewport_zoom deltaY)) in
  let pinch := Presets.validate_zoom
                 (Some (Studio.handlePinch viewport_zoom distance lastZoomDistance)) in
  PrimFloat.leb 0.1 wheel = true /\ PrimFloat.leb wheel 1000 = true
  /\ PrimFloat.leb 0.1 pinch = true /\ PrimFloat.leb pinch 1000 = true.
Proof.
  cbv zeta. unfold Studio.handleWheel, Studio.handlePinch. cbv zeta.
  destruct (RendererFacts.clamp_then_validate
              (viewport_zoom * (if PrimFloat.ltb 0 deltaY then 1.1 else 0.9))%float)
    as [W1 W2].
  destruct (RendererFacts.clamp_then_validate
              (viewport_zoom / (distance / lastZoomDistance))%float) as [P1 P2].
  repeat split; assumption.
Qed.

(* ================================================================== *)
(** * Moving the view *)

Module MoveFacts.
Import FractalRenderer.
Local Open Scope Q_scope.


End MoveFacts.





(* ================================================================== *)
(** * The WebGL context manager *)

Module ContextFacts.
Import ContextManager.
Local Open Scope Q_scope.

Lemma events_direct (es : list Event) (m : Manager) :
  buffers m = [] -> textures m = [] -> currentBufferIndex m = 0%nat ->
  buffers (events m es) = [] /\ textures (events m es) = []
  /\ currentBufferIndex (events m es) = 0%nat.
Proof.
  revert m. induction es as [|e es IH]; intros m Hb Ht Hi; [repeat split; assumption|].
  change (events m (e :: es)) with (events (event m e) es).
  apply IH; destruct e; simpl; unfold swapBuffers; try rewrite Hb; simpl;
    assumption || reflexivity.
Qed.
End ContextFacts.

(** X28.  The context manager never renders through a framebuffer of its
    own: after construction and any sequence of buffer swaps, resizes,
    context restorations and [destroy], it holds no framebuffer and no
    texture, its buffer index is still 0, and [getCurrentFramebuffer],
    [getReadFramebuffer] and [getCurrentTexture] return [null], for double
    and for triple buffering alike. *)
Theorem context_manager_renders_directly
        (type : BufferType) (width height maxTextureSize maxFramebufferSize : Q)
        (es : list ContextManager.Event) :
  let m := ContextManager.events
             (ContextManager.construct type width height
                                       maxTextureSize maxFramebufferSize) es in
  ContextManager.buffers m = [] /\ ContextManager.textures m = []
  /\ ContextManager.currentBufferIndex m = 0%nat
  /\ ContextManager.getCurrentFramebuffer m = None
  /\ ContextManager.getReadFramebuffer m = None
  /\ ContextManager.getCurrentTexture m = None.
Proof.
  cbv zeta.
  destruct (ContextFacts.events_direct es
              (ContextManager.construct type width height
                                        maxTextureSize maxFramebufferSize))
    as [Hb [Ht Hi]];
    try (unfold ContextManager.construct;
         destruct (ContextManager.validateAndAdjustBufferConfig _ _ _ _);
         reflexivity).
  unfold ContextManager.getCurrentFramebuffer, ContextManager.getReadFramebuffer,
    ContextManager.getCurrentTexture.
  rewrite Hb, Ht. repeat split; assumption || reflexivity.
Qed.

(* ================================================================== *)
(** * The registry formulas and the worker *)

Module FormulaFacts.
Local Open Scope float_scope.

Lemma number_or_truthy (x : float) :
  negb (JS.isNaN x || PrimFloat.is_zero x) = true ->
  Formulas.number_or (Some x) 0 = x.
Proof.
  intros H. unfold Formulas.number_or. apply negb_true_iff in H. rewrite H.
  reflexivity.
Qed.
End FormulaFacts.

(** X29.  The registry formulas are the steps of the worker: for a constant
    whose components are neither NaN nor zero, the Mandelbrot and Burning
    Ship formulas of the registry return what the worker's loops compute in
    one turn, so the orbit the escape loop walks is the orbit of the
    registry formula; the Julia formula does so for every constant, and
    without one it uses (-0.7269, 0.1889). *)
Theorem registry_formulas_are_worker_steps (z c : Complex) (k : nat) :
  truthyComplex c = true ->
  Formulas.mandelbrot z (Some c) = ComplexMath.add (ComplexMath.square z) c
  /\ Formulas.burningShip z (Some c)
     = ComplexMath.add (ComplexMath.square (ComplexMath.abs z)) c
  /\ Nat.iter k (fun w => Formulas.mandelbrot w (Some c)) z = orbit c z k
  /\ (forall c', Formulas.julia z (Some c')
                 = ComplexMath.add (ComplexMath.square z) c')
  /\ Formulas.julia z None
     = ComplexMath.add (ComplexMath.square z) Inputs.defaultJulia.
Proof.
  intros H. unfold truthyComplex in H. apply andb_true_iff in H.
  destruct H as [Hr Hi].
  assert (Step : forall w, Formulas.mandelbrot w (Some c)
                           = ComplexMath.add (ComplexMath.square w) c).
  { intros w. unfold Formulas.mandelbrot, Formulas.opt_real, Formulas.opt_imag.
    simpl option_map.
    rewrite (FormulaFacts.number_or_truthy _ Hr),
      (FormulaFacts.number_or_truthy _ Hi). reflexivity. }
  split; [apply Step|]. split.
  - unfold Formulas.burningShip, Formulas.opt_real, Formulas.opt_imag.
    simpl option_map.
    rewrite (FormulaFacts.number_or_truthy _ Hr),
      (FormulaFacts.number_or_truthy _ Hi). reflexivity.
  - split; [|split; [intros c'; reflexivity|reflexivity]].
    unfold orbit. induction k as [|k IH]; [reflexivity|].
    simpl. rewrite IH. apply Step.
Qed.

Lemma registry_formulas_are_worker_steps_witness :
  Formulas.mandelbrot Inputs.two (Some Inputs.defaultJulia)
  = ComplexMath.add (ComplexMath.square Inputs.two) Inputs.defaultJulia
  /\ Formulas.burningShip Inputs.two (Some Inputs.defaultJulia)
     = ComplexMath.add (ComplexMath.square (ComplexMath.abs Inputs.two))
                       Inputs.defaultJulia
  /\ Nat.iter 3 (fun w => Formulas.mandelbrot w (Some Inputs.defaultJulia)) Inputs.two
     = orbit Inputs.defaultJulia Inputs.two 3
  /\ (forall c', Formulas.julia Inputs.two (Some c')
                 = ComplexMath.add (ComplexMath.square Inputs.two) c')
  /\ Formulas.julia Inputs.two None
     = ComplexMath.add (ComplexMath.square Inputs.two) Inputs.defaultJulia.
Proof.
  apply (registry_formulas_are_worker_steps Inputs.two Inputs.defaultJulia 3).
  reflexivity.
Defined.
